(** * SimpleMove: the in-memory ride store ([server/storage.ts])

    A shallow embedding of the [MemStorage] class and of the schema types
    it stores ([shared/schema.ts]), followed by the properties of the ride
    lifecycle that the design document states about it.

    Conventions of the embedding.
    - JavaScript numbers used as identifiers, counters and millisecond
      timestamps are integers of [Z]; the [real] columns, which the store
      only carries around, are IEEE doubles ([spec_float]).
    - A property that may hold [undefined], [null] or a value is a [JsOpt].
    - A [Map<number, V>] is an association list in insertion order, since
      [Array.from(map.values())] and [find] observe that order.
    - Every method is a computation in the monad [M]: it reads and writes
      the store and either returns a value or throws [Error(message)].
      [new Date()] is an argument [now] of the method.
    - Methods run to completion one after the other (the single-threaded
      execution the design assumes), and callers do not write to the
      objects that the store hands out.
    - The identifier counters are unbounded integers; as JavaScript
      numbers they are exact below 2^53. *)

From Stdlib Require Import ZArith List String Bool Lia Permutation Sorted.
From Stdlib Require Import SpecFloat.
Import ListNotations.

Local Open Scope string_scope.
Local Open Scope list_scope.
Local Open Scope Z_scope.

Set Implicit Arguments.

(** ** JavaScript values *)

Inductive JsOpt (A : Type) : Type :=
| JsUndefined
| JsNull
| JsVal (a : A).

Arguments JsUndefined {A}.
Arguments JsNull {A}.
Arguments JsVal {A} a.

(** [x == null] in the loose sense: [undefined] or [null]. *)
Definition is_nullish {A} (x : JsOpt A) : bool :=
  match x with
  | JsVal _ => false
  | _ => true
  end.

Definition is_set {A} (x : JsOpt A) : bool := negb (is_nullish x).

(** [a === b] on two possibly absent numbers. *)
Definition strict_eq (a b : JsOpt Z) : bool :=
  match a, b with
  | JsUndefined, JsUndefined => true
  | JsNull, JsNull => true
  | JsVal x, JsVal y => x =? y
  | _, _ => false
  end.

(** [list.includes(s)] on an array of string literals. *)
Definition includes (l : list string) (s : string) : bool :=
  existsb (String.eqb s) l.

(** [array.slice(0, end)]: a negative [end] counts from the end of the array. *)
Definition slice0 {A} (l : list A) (e : Z) : list A :=
  let len := Z.of_nat (List.length l) in
  let k := if e <? 0 then Z.max (len + e) 0 else Z.min e len in
  firstn (Z.to_nat k) l.

(** [array.sort(cmp)]: [cmp a b > 0] places [b] before [a], and the sort is
    stable: elements that compare equal keep their order.  For the
    consistent comparators used by the store the result is the stable
    sorted arrangement, computed here by inserting each element, from the
    last to the first, in front of the sorted rest. *)
Section Sort.
Context {A : Type} (cmp : A -> A -> Z).

Fixpoint sort_insert (x : A) (l : list A) : list A :=
  match l with
  | [] => [x]
  | y :: l' => if 0 <? cmp x y then y :: sort_insert x l' else x :: y :: l'
  end.

Definition js_sort (l : list A) : list A :=
  fold_right sort_insert [] l.
End Sort.

(** ** [Map<number, V>] *)

Module JsMap.
Section WithValue.
Context {V : Type}.

Definition t := list (Z * V).

Definition empty : t := [].

Fixpoint get (k : Z) (m : t) : option V :=
  match m with
  | [] => None
  | (k', v) :: m' => if k' =? k then Some v else get k m'
  end.

(** An existing key keeps its place; a new key goes last. *)
Fixpoint set (k : Z) (v : V) (m : t) : t :=
  match m with
  | [] => [(k, v)]
  | (k', v') :: m' =>
      if k' =? k then (k, v) :: m' else (k', v') :: set k v m'
  end.

Definition keys (m : t) : list Z := map fst m.
Definition values (m : t) : list V := map snd m.
End WithValue.
Arguments t V : clear implicits.
End JsMap.

(** ** The schema types *)

Module User.
Record t := {
  id : Z;
  username : string;
  password : string;
  fullName : string;
  email : string;
  phone : JsOpt string;
  profilePicture : JsOpt string;
  userType : JsOpt string;
  createdAt : JsOpt Z;
  language : JsOpt string;
  isOnline : JsOpt bool
}.
End User.

Module InsertUser.
Record t := {
  username : string;
  password : string;
  fullName : string;
  email : string;
  phone : JsOpt string;
  profilePicture : JsOpt string;
  userType : JsOpt string;
  language : JsOpt string;
  isOnline : JsOpt bool
}.
End InsertUser.

(** [Partial<User>]: [None] is a key that the object does not have. *)
Module PartialUser.
Record t := {
  id : option Z;
  username : option string;
  password : option string;
  fullName : option string;
  email : option string;
  phone : option (JsOpt string);
  profilePicture : option (JsOpt string);
  userType : option (JsOpt string);
  createdAt : option (JsOpt Z);
  language : option (JsOpt string);
  isOnline : option (JsOpt bool)
}.
End PartialUser.

Module Vehicle.
Record t := {
  id : Z;
  driverId : Z;
  model : string;
  year : string;
  color : string;
  licensePlate : string;
  vehicleType : JsOpt string
}.
End Vehicle.

Module InsertVehicle.
Record t := {
  driverId : Z;
  model : string;
  year : string;
  color : string;
  licensePlate : string;
  vehicleType : JsOpt string
}.
End InsertVehicle.

Module PartialVehicle.
Record t := {
  id : option Z;
  driverId : option Z;
  model : option string;
  year : option string;
  color : option string;
  licensePlate : option string;
  vehicleType : option (JsOpt string)
}.
End PartialVehicle.

Module Ride.
Record t := {
  id : Z;
  passengerId : JsOpt Z;
  driverId : JsOpt Z;
  originAddress : string;
  destinationAddress : string;
  originLat : JsOpt spec_float;
  originLng : JsOpt spec_float;
  destinationLat : JsOpt spec_float;
  destinationLng : JsOpt spec_float;
  status : string;
  requestedAt : JsOpt Z;
  acceptedAt : JsOpt Z;
  startedAt : JsOpt Z;
  completedAt : JsOpt Z;
  cancelledAt : JsOpt Z;
  distance : JsOpt spec_float;
  duration : JsOpt Z;
  fare : JsOpt spec_float;
  vehicleType : JsOpt string;
  paymentMethod : JsOpt string
}.

(** The overrides that the transitions write after [...ride]. *)
Definition set_driverId (d : JsOpt Z) (r : t) : t :=
  {| id := id r; passengerId := passengerId r; driverId := d;
     originAddress := originAddress r;
     destinationAddress := destinationAddress r;
     originLat := originLat r; originLng := originLng r;
     destinationLat := destinationLat r;
     destinationLng := destinationLng r;
     status := status r; requestedAt := requestedAt r;
     acceptedAt := acceptedAt r; startedAt := startedAt r;
     completedAt := completedAt r; cancelledAt := cancelledAt r;
     distance := distance r; duration := duration r; fare := fare r;
     vehicleType := vehicleType r; paymentMethod := paymentMethod r |}.

Definition set_status (st : string) (r : t) : t :=
  {| id := id r; passengerId := passengerId r; driverId := driverId r;
     originAddress := originAddress r;
     destinationAddress := destinationAddress r;
     originLat := originLat r; originLng := originLng r;
     destinationLat := destinationLat r;
     destinationLng := destinationLng r;
     status := st; requestedAt := requestedAt r;
     acceptedAt := acceptedAt r; startedAt := startedAt r;
     completedAt := completedAt r; cancelledAt := cancelledAt r;
     distance := distance r; duration := duration r; fare := fare r;
     vehicleType := vehicleType r; paymentMethod := paymentMethod r |}.

Definition set_acceptedAt (d : JsOpt Z) (r : t) : t :=
  {| id := id r; passengerId := passengerId r; driverId := driverId r;
     originAddress := originAddress r;
     destinationAddress := destinationAddress r;
     originLat := originLat r; originLng := originLng r;
     destinationLat := destinationLat r;
     destinationLng := destinationLng r;
     status := status r; requestedAt := requestedAt r;
     acceptedAt := d; startedAt := startedAt r;
     completedAt := completedAt r; cancelledAt := cancelledAt r;
     distance := distance r; duration := duration r; fare := fare r;
     vehicleType := vehicleType r; paymentMethod := paymentMethod r |}.

Definition set_startedAt (d : JsOpt Z) (r : t) : t :=
  {| id := id r; passengerId := passengerId r; driverId := driverId r;
     originAddress := originAddress r;
     destinationAddress := destinationAddress r;
     originLat := originLat r; originLng := originLng r;
     destinationLat := destinationLat r;
     destinationLng := destinationLng r;
     status := status r; requestedAt := requestedAt r;
     acceptedAt := acceptedAt r; startedAt := d;
     completedAt := completedAt r; cancelledAt := cancelledAt r;
     distance := distance r; duration := duration r; fare := fare r;
     vehicleType := vehicleType r; paymentMethod := paymentMethod r |}.

Definition set_completedAt (d : JsOpt Z) (r : t) : t :=
  {| id := id r; passengerId := passengerId r; driverId := driverId r;
     originAddress := originAddress r;
     destinationAddress := destinationAddress r;
     originLat := originLat r; originLng := originLng r;
     destinationLat := destinationLat r;
     destinationLng := destinationLng r;
     status := status r; requestedAt := requestedAt r;
     acceptedAt := acceptedAt r; startedAt := startedAt r;
     completedAt := d; cancelledAt := cancelledAt r;
     distance := distance r; duration := duration r; fare := fare r;
     vehicleType := vehicleType r; paymentMethod := paymentMethod r |}.

Definition set_cancelledAt (d : JsOpt Z) (r : t) : t :=
  {| id := id r; passengerId := passengerId r; driverId := driverId r;
     originAddress := originAddress r;
     destinationAddress := destinationAddress r;
     originLat := originLat r; originLng := originLng r;
     destinationLat := destinationLat r;
     destinationLng := destinationLng r;
     status := status r; requestedAt := requestedAt r;
     acceptedAt := acceptedAt r; startedAt := startedAt r;
     completedAt := completedAt r; cancelledAt := d;
     distance := distance r; duration := duration r; fare := fare r;
     vehicleType := vehicleType r; paymentMethod := paymentMethod r |}.
End Ride.

(** [insertRideSchema]: the [rides] columns without [id] and without the
    five timestamps.  [driverId] and [status] are part of it. *)
Module InsertRide.
Record t := {
  passengerId : JsOpt Z;
  driverId : JsOpt Z;
  originAddress : string;
  destinationAddress : string;
  originLat : JsOpt spec_float;
  originLng : JsOpt spec_float;
  destinationLat : JsOpt spec_float;
  destinationLng : JsOpt spec_float;
  status : JsOpt string;
  distance : JsOpt spec_float;
  duration : JsOpt Z;
  fare : JsOpt spec_float;
  vehicleType : JsOpt string;
  paymentMethod : JsOpt string
}.
End InsertRide.

Module Rating.
Record t := {
  id : Z;
  rideId : JsOpt Z;
  fromUserId : JsOpt Z;
  toUserId : JsOpt Z;
  rating : Z;
  comment : JsOpt string;
  createdAt : JsOpt Z
}.
End Rating.

Module InsertRating.
Record t := {
  rideId : JsOpt Z;
  fromUserId : JsOpt Z;
  toUserId : JsOpt Z;
  rating : Z;
  comment : JsOpt string
}.
End InsertRating.

(** ** The store and the monad of its methods *)

Record MemStorage := {
  usersMap : JsMap.t User.t;
  vehiclesMap : JsMap.t Vehicle.t;
  ridesMap : JsMap.t Ride.t;
  ratingsMap : JsMap.t Rating.t;
  userIdCounter : Z;
  vehicleIdCounter : Z;
  rideIdCounter : Z;
  ratingIdCounter : Z
}.

Inductive Completion (A : Type) : Type :=
| Return (a : A)
| Throw (message : string).

Arguments Return {A} a.
Arguments Throw {A} message.

Definition M (A : Type) : Type := MemStorage -> Completion A * MemStorage.

Definition ret {A} (a : A) : M A := fun s => (Return a, s).

Definition throw {A} (message : string) : M A := fun s => (Throw message, s).

Definition bind {A B} (m : M A) (k : A -> M B) : M B :=
  fun s =>
    match m s with
    | (Return a, s') => k a s'
    | (Throw e, s') => (Throw e, s')
    end.

Definition read {A} (f : MemStorage -> A) : M A := fun s => (Return (f s), s).

Definition write (f : MemStorage -> MemStorage) : M unit :=
  fun s => (Return tt, f s).

Notation "x <- m ;; k" := (bind m (fun x => k))
  (at level 61, m at next level, right associativity).
Notation "m ;;; k" := (bind m (fun _ => k))
  (at level 61, right associativity).

(** Assignments to the fields of [this]. *)
Definition assign_usersMap (m : JsMap.t User.t) (s : MemStorage) :=
  {| usersMap := m; vehiclesMap := vehiclesMap s; ridesMap := ridesMap s;
     ratingsMap := ratingsMap s; userIdCounter := userIdCounter s;
     vehicleIdCounter := vehicleIdCounter s;
     rideIdCounter := rideIdCounter s;
     ratingIdCounter := ratingIdCounter s |}.

Definition assign_vehiclesMap (m : JsMap.t Vehicle.t) (s : MemStorage) :=
  {| usersMap := usersMap s; vehiclesMap := m; ridesMap := ridesMap s;
     ratingsMap := ratingsMap s; userIdCounter := userIdCounter s;
     vehicleIdCounter := vehicleIdCounter s;
     rideIdCounter := rideIdCounter s;
     ratingIdCounter := ratingIdCounter s |}.

Definition assign_ridesMap (m : JsMap.t Ride.t) (s : MemStorage) :=
  {| usersMap := usersMap s; vehiclesMap := vehiclesMap s; ridesMap := m;
     ratingsMap := ratingsMap s; userIdCounter := userIdCounter s;
     vehicleIdCounter := vehicleIdCounter s;
     rideIdCounter := rideIdCounter s;
     ratingIdCounter := ratingIdCounter s |}.

Definition assign_ratingsMap (m : JsMap.t Rating.t) (s : MemStorage) :=
  {| usersMap := usersMap s; vehiclesMap := vehiclesMap s;
     ridesMap := ridesMap s; ratingsMap := m;
     userIdCounter := userIdCounter s;
     vehicleIdCounter := vehicleIdCounter s;
     rideIdCounter := rideIdCounter s;
     ratingIdCounter := ratingIdCounter s |}.

Definition assign_userIdCounter (n : Z) (s : MemStorage) :=
  {| usersMap := usersMap s; vehiclesMap := vehiclesMap s;
     ridesMap := ridesMap s; ratingsMap := ratingsMap s;
     userIdCounter := n; vehicleIdCounter := vehicleIdCounter s;
     rideIdCounter := rideIdCounter s;
     ratingIdCounter := ratingIdCounter s |}.

Definition assign_vehicleIdCounter (n : Z) (s : MemStorage) :=
  {| usersMap := usersMap s; vehiclesMap := vehiclesMap s;
     ridesMap := ridesMap s; ratingsMap := ratingsMap s;
     userIdCounter := userIdCounter s; vehicleIdCounter := n;
     rideIdCounter := rideIdCounter s;
     ratingIdCounter := ratingIdCounter s |}.

Definition assign_rideIdCounter (n : Z) (s : MemStorage) :=
  {| usersMap := usersMap s; vehiclesMap := vehiclesMap s;
     ridesMap := ridesMap s; ratingsMap := ratingsMap s;
     userIdCounter := userIdCounter s;
     vehicleIdCounter := vehicleIdCounter s; rideIdCounter := n;
     ratingIdCounter := ratingIdCounter s |}.

Definition assign_ratingIdCounter (n : Z) (s : MemStorage) :=
  {| usersMap := usersMap s; vehiclesMap := vehiclesMap s;
     ridesMap := ridesMap s; ratingsMap := ratingsMap s;
     userIdCounter := userIdCounter s;
     vehicleIdCounter := vehicleIdCounter s;
     rideIdCounter := rideIdCounter s; ratingIdCounter := n |}.

(** [this.xMap.set(k, v)] *)
Definition usersMap_set (k : Z) (v : User.t) : M unit :=
  write (fun s => assign_usersMap (JsMap.set k v (usersMap s)) s).

Definition vehiclesMap_set (k : Z) (v : Vehicle.t) : M unit :=
  write (fun s => assign_vehiclesMap (JsMap.set k v (vehiclesMap s)) s).

Definition ridesMap_set (k : Z) (v : Ride.t) : M unit :=
  write (fun s => assign_ridesMap (JsMap.set k v (ridesMap s)) s).

Definition ratingsMap_set (k : Z) (v : Rating.t) : M unit :=
  write (fun s => assign_ratingsMap (JsMap.set k v (ratingsMap s)) s).

(** [this.xIdCounter++], the value before the increment. *)
Definition userIdCounter_postincr : M Z :=
  n <- read userIdCounter ;; write (assign_userIdCounter (n + 1)) ;;; ret n.

Definition vehicleIdCounter_postincr : M Z :=
  n <- read vehicleIdCounter ;;
  write (assign_vehicleIdCounter (n + 1)) ;;; ret n.

Definition rideIdCounter_postincr : M Z :=
  n <- read rideIdCounter ;; write (assign_rideIdCounter (n + 1)) ;;; ret n.

Definition ratingIdCounter_postincr : M Z :=
  n <- read ratingIdCounter ;;
  write (assign_ratingIdCounter (n + 1)) ;;; ret n.

(** ** User operations *)

Definition getUser (id : Z) : M (option User.t) :=
  read (fun s => JsMap.get id (usersMap s)).

Definition getUserByUsername (username : string) : M (option User.t) :=
  read (fun s =>
    find (fun user => String.eqb (User.username user) username)
         (JsMap.values (usersMap s))).

Definition createUser (userData : InsertUser.t) (now : Z) : M User.t :=
  id <- userIdCounter_postincr ;;
  let user :=
    {| User.id := id;
       User.username := InsertUser.username userData;
       User.password := InsertUser.password userData;
       User.fullName := InsertUser.fullName userData;
       User.email := InsertUser.email userData;
       User.phone := InsertUser.phone userData;
       User.profilePicture := InsertUser.profilePicture userData;
       User.userType := InsertUser.userType userData;
       User.createdAt := JsVal now;
       User.language := InsertUser.language userData;
       User.isOnline := InsertUser.isOnline userData |} in
  usersMap_set id user ;;;
  ret user.

(** One property of [{ ...a, ...b }]. *)
Definition spread {A} (over : option A) (base : A) : A :=
  match over with
  | Some v => v
  | None => base
  end.

Definition updateUser (id : Z) (userData : PartialUser.t) : M User.t :=
  user <- getUser id ;;
  match user with
  | None => throw "User not found"
  | Some user =>
      let updatedUser :=
        {| User.id := spread (PartialUser.id userData) (User.id user);
           User.username :=
             spread (PartialUser.username userData) (User.username user);
           User.password :=
             spread (PartialUser.password userData) (User.password user);
           User.fullName :=
             spread (PartialUser.fullName userData) (User.fullName user);
           User.email :=
             spread (PartialUser.email userData) (User.email user);
           User.phone :=
             spread (PartialUser.phone userData) (User.phone user);
           User.profilePicture :=
             spread (PartialUser.profilePicture userData)
                    (User.profilePicture user);
           User.userType :=
             spread (PartialUser.userType userData) (User.userType user);
           User.createdAt :=
             spread (PartialUser.createdAt userData) (User.createdAt user);
           User.language :=
             spread (PartialUser.language userData) (User.language user);
           User.isOnline :=
             spread (PartialUser.isOnline userData) (User.isOnline user) |} in
      usersMap_set id updatedUser ;;;
      ret updatedUser
  end.

Definition updateUserStatus (id : Z) (isOnline : bool) : M User.t :=
  updateUser id
    {| PartialUser.id := None; PartialUser.username := None;
       PartialUser.password := None; PartialUser.fullName := None;
       PartialUser.email := None; PartialUser.phone := None;
       PartialUser.profilePicture := None; PartialUser.userType := None;
       PartialUser.createdAt := None; PartialUser.language := None;
       PartialUser.isOnline := Some (JsVal isOnline) |}.

(** ** Vehicle operations *)

Definition getVehicle (id : Z) : M (option Vehicle.t) :=
  read (fun s => JsMap.get id (vehiclesMap s)).

Definition getVehicleByDriver (driverId : Z) : M (option Vehicle.t) :=
  read (fun s =>
    find (fun vehicle => Vehicle.driverId vehicle =? driverId)
         (JsMap.values (vehiclesMap s))).

Definition createVehicle (vehicleData : InsertVehicle.t) : M Vehicle.t :=
  id <- vehicleIdCounter_postincr ;;
  let vehicle :=
    {| Vehicle.id := id;
       Vehicle.driverId := InsertVehicle.driverId vehicleData;
       Vehicle.model := InsertVehicle.model vehicleData;
       Vehicle.year := InsertVehicle.year vehicleData;
       Vehicle.color := InsertVehicle.color vehicleData;
       Vehicle.licensePlate := InsertVehicle.licensePlate vehicleData;
       Vehicle.vehicleType := InsertVehicle.vehicleType vehicleData |} in
  vehiclesMap_set id vehicle ;;;
  ret vehicle.

Definition updateVehicle (id : Z) (vehicleData : PartialVehicle.t)
  : M Vehicle.t :=
  vehicle <- getVehicle id ;;
  match vehicle with
  | None => throw "Vehicle not found"
  | Some vehicle =>
      let updatedVehicle :=
        {| Vehicle.id :=
             spread (PartialVehicle.id vehicleData) (Vehicle.id vehicle);
           Vehicle.driverId :=
             spread (PartialVehicle.driverId vehicleData)
                    (Vehicle.driverId vehicle);
           Vehicle.model :=
             spread (PartialVehicle.model vehicleData) (Vehicle.model vehicle);
           Vehicle.year :=
             spread (PartialVehicle.year vehicleData) (Vehicle.year vehicle);
           Vehicle.color :=
             spread (PartialVehicle.color vehicleData) (Vehicle.color vehicle);
           Vehicle.licensePlate :=
             spread (PartialVehicle.licensePlate vehicleData)
                    (Vehicle.licensePlate vehicle);
           Vehicle.vehicleType :=
             spread (PartialVehicle.vehicleType vehicleData)
                    (Vehicle.vehicleType vehicle) |} in
      vehiclesMap_set id updatedVehicle ;;;
      ret updatedVehicle
  end.

(** ** Ride operations *)

Definition getRide (id : Z) : M (option Ride.t) :=
  read (fun s => JsMap.get id (ridesMap s)).

Definition user_active_ride (userId : Z) (ride : Ride.t) : bool :=
  (strict_eq (Ride.passengerId ride) (JsVal userId)
   || strict_eq (Ride.driverId ride) (JsVal userId))
  && includes ["requested"; "accepted"; "in_progress"] (Ride.status ride).

Definition getActiveRideForUser (userId : Z) : M (option Ride.t) :=
  read (fun s => find (user_active_ride userId) (JsMap.values (ridesMap s))).

Definition driver_active_ride (driverId : Z) (ride : Ride.t) : bool :=
  strict_eq (Ride.driverId ride) (JsVal driverId)
  && includes ["accepted"; "in_progress"] (Ride.status ride).

Definition getDriverActiveRide (driverId : Z) : M (option Ride.t) :=
  read (fun s =>
    find (driver_active_ride driverId) (JsMap.values (ridesMap s))).

(** The argument comes from [rideData.passengerId!], which may be absent. *)
Definition passenger_active_ride (passengerId : JsOpt Z) (ride : Ride.t)
  : bool :=
  strict_eq (Ride.passengerId ride) passengerId
  && includes ["requested"; "accepted"; "in_progress"] (Ride.status ride).

Definition getPassengerActiveRide (passengerId : JsOpt Z)
  : M (option Ride.t) :=
  read (fun s =>
    find (passenger_active_ride passengerId) (JsMap.values (ridesMap s))).

(** [date?.getTime() || 0] *)
Definition getTime_or_0 (date : JsOpt Z) : Z :=
  match date with
  | JsVal t => if t =? 0 then 0 else t
  | _ => 0
  end.

Definition user_ride (userId : Z) (ride : Ride.t) : bool :=
  strict_eq (Ride.passengerId ride) (JsVal userId)
  || strict_eq (Ride.driverId ride) (JsVal userId).

Definition most_recent_first (a b : Ride.t) : Z :=
  let aDate := getTime_or_0 (Ride.requestedAt a) in
  let bDate := getTime_or_0 (Ride.requestedAt b) in
  bDate - aDate.

(** [limit] is [None] when the caller leaves the argument out. *)
Definition getUserRides (userId : Z) (limit : option Z) : M (list Ride.t) :=
  let limit := match limit with Some l => l | None => 10 end in
  read (fun s =>
    slice0
      (js_sort most_recent_first
         (filter (user_ride userId) (JsMap.values (ridesMap s))))
      limit).

(** [{ ...rideData, id, status: 'requested', requestedAt: now }] *)
Definition requested_ride (rideData : InsertRide.t) (id now : Z) : Ride.t :=
  {| Ride.id := id;
     Ride.passengerId := InsertRide.passengerId rideData;
     Ride.driverId := InsertRide.driverId rideData;
     Ride.originAddress := InsertRide.originAddress rideData;
     Ride.destinationAddress := InsertRide.destinationAddress rideData;
     Ride.originLat := InsertRide.originLat rideData;
     Ride.originLng := InsertRide.originLng rideData;
     Ride.destinationLat := InsertRide.destinationLat rideData;
     Ride.destinationLng := InsertRide.destinationLng rideData;
     Ride.status := "requested";
     Ride.requestedAt := JsVal now;
     Ride.acceptedAt := JsUndefined;
     Ride.startedAt := JsUndefined;
     Ride.completedAt := JsUndefined;
     Ride.cancelledAt := JsUndefined;
     Ride.distance := InsertRide.distance rideData;
     Ride.duration := InsertRide.duration rideData;
     Ride.fare := InsertRide.fare rideData;
     Ride.vehicleType := InsertRide.vehicleType rideData;
     Ride.paymentMethod := InsertRide.paymentMethod rideData |}.

(** [{ ...ride, driverId, status: 'accepted', acceptedAt: now }] *)
Definition accepted_ride (ride : Ride.t) (driverId now : Z) : Ride.t :=
  Ride.set_acceptedAt (JsVal now)
    (Ride.set_status "accepted" (Ride.set_driverId (JsVal driverId) ride)).

(** [{ ...ride, status: 'cancelled', cancelledAt: now }] *)
Definition cancelled_ride (ride : Ride.t) (now : Z) : Ride.t :=
  Ride.set_cancelledAt (JsVal now) (Ride.set_status "cancelled" ride).

(** [{ ...ride, status: 'in_progress', startedAt: now }] *)
Definition started_ride (ride : Ride.t) (now : Z) : Ride.t :=
  Ride.set_startedAt (JsVal now) (Ride.set_status "in_progress" ride).

(** [{ ...ride, status: 'completed', completedAt: now }] *)
Definition completed_ride (ride : Ride.t) (now : Z) : Ride.t :=
  Ride.set_completedAt (JsVal now) (Ride.set_status "completed" ride).

Definition createRide (rideData : InsertRide.t) (now : Z) : M Ride.t :=
  existingRide <- getPassengerActiveRide (InsertRide.passengerId rideData) ;;
  match existingRide with
  | Some _ => throw "Passenger already has an active ride"
  | None =>
      id <- rideIdCounter_postincr ;;
      let ride := requested_ride rideData id now in
      ridesMap_set id ride ;;;
      ret ride
  end.

Definition acceptRide (rideId driverId : Z) (now : Z) : M Ride.t :=
  ride <- getRide rideId ;;
  match ride with
  | None => throw "Ride not found"
  | Some ride =>
      if negb (String.eqb (Ride.status ride) "requested")
      then throw "Ride is not in requested status"
      else
        existingRide <- getDriverActiveRide driverId ;;
        match existingRide with
        | Some _ => throw "Driver already has an active ride"
        | None =>
            let updatedRide := accepted_ride ride driverId now in
            ridesMap_set rideId updatedRide ;;;
            ret updatedRide
        end
  end.

Definition declineRide (rideId : Z) (now : Z) : M Ride.t :=
  ride <- getRide rideId ;;
  match ride with
  | None => throw "Ride not found"
  | Some ride =>
      if negb (String.eqb (Ride.status ride) "requested")
      then throw "Ride is not in requested status"
      else
        let updatedRide := cancelled_ride ride now in
        ridesMap_set rideId updatedRide ;;;
        ret updatedRide
  end.

Definition markDriverArrived (rideId : Z) : M Ride.t :=
  ride <- getRide rideId ;;
  match ride with
  | None => throw "Ride not found"
  | Some ride =>
      if negb (String.eqb (Ride.status ride) "accepted")
      then throw "Ride is not in accepted status"
      else ret ride
  end.

Definition startRide (rideId : Z) (now : Z) : M Ride.t :=
  ride <- getRide rideId ;;
  match ride with
  | None => throw "Ride not found"
  | Some ride =>
      if negb (String.eqb (Ride.status ride) "accepted")
      then throw "Ride is not in accepted status"
      else
        let updatedRide := started_ride ride now in
        ridesMap_set rideId updatedRide ;;;
        ret updatedRide
  end.

Definition completeRide (rideId : Z) (now : Z) : M Ride.t :=
  ride <- getRide rideId ;;
  match ride with
  | None => throw "Ride not found"
  | Some ride =>
      if negb (String.eqb (Ride.status ride) "in_progress")
      then throw "Ride is not in progress"
      else
        let updatedRide := completed_ride ride now in
        ridesMap_set rideId updatedRide ;;;
        ret updatedRide
  end.

Definition cancelRide (rideId : Z) (now : Z) : M Ride.t :=
  ride <- getRide rideId ;;
  match ride with
  | None => throw "Ride not found"
  | Some ride =>
      if negb (includes ["requested"; "accepted"; "in_progress"]
                 (Ride.status ride))
      then throw "Ride cannot be cancelled"
      else
        let updatedRide := cancelled_ride ride now in
        ridesMap_set rideId updatedRide ;;;
        ret updatedRide
  end.

(** ** Rating operations *)


Definition newest_rating_first (a b : Rating.t) : Z :=
  let aDate := getTime_or_0 (Rating.createdAt a) in
  let bDate := getTime_or_0 (Rating.createdAt b) in
  bDate - aDate.

Definition getUserRatings (userId : Z) : M (list Rating.t) :=
  read (fun s =>
    js_sort newest_rating_first
      (filter (fun rating => strict_eq (Rating.toUserId rating) (JsVal userId))
         (JsMap.values (ratingsMap s)))).

Definition createRating (ratingData : InsertRating.t) (now : Z)
  : M Rating.t :=
  id <- ratingIdCounter_postincr ;;
  let rating :=
    {| Rating.id := id;
       Rating.rideId := InsertRating.rideId ratingData;
       Rating.fromUserId := InsertRating.fromUserId ratingData;
       Rating.toUserId := InsertRating.toUserId ratingData;
       Rating.rating := InsertRating.rating ratingData;
       Rating.comment := InsertRating.comment ratingData;
       Rating.createdAt := JsVal now |} in
  ratingsMap_set id rating ;;;
  ret rating.

(** ** The constructor *)

Definition test_user : InsertUser.t :=
  {| InsertUser.username := "test";
     InsertUser.password :=
       "$2a$10$3Nh1O1pFQTspJZJKi4RhwOsqLu9FwfIuEzLOYX5Nb9hU11Vrf0Siy.salt";
     InsertUser.fullName := "Test User";
     InsertUser.email := "test@example.com";
     InsertUser.phone := JsVal "555-1234";
     InsertUser.profilePicture := JsVal "";
     InsertUser.userType := JsVal "passenger";
     InsertUser.language := JsVal "pt";
     InsertUser.isOnline := JsVal false |}.

Definition empty_store : MemStorage :=
  {| usersMap := JsMap.empty; vehiclesMap := JsMap.empty;
     ridesMap := JsMap.empty; ratingsMap := JsMap.empty;
     userIdCounter := 1; vehicleIdCounter := 1;
     rideIdCounter := 1; ratingIdCounter := 1 |}.

(** [new MemStorage()]: the fields are initialised, then the test user is
    created; [createUser] has no [await], so it has run when the
    constructor returns. *)
Definition new_MemStorage (now : Z) : MemStorage :=
  snd (createUser test_user now empty_store).

(** ** Sequences of calls *)

(** The calls that can change the store, with their arguments and, where
    the method reads the clock, the time it reads. *)
Inductive Call : Type :=
| CreateUser (userData : InsertUser.t) (now : Z)
| UpdateUser (id : Z) (userData : PartialUser.t)
| UpdateUserStatus (id : Z) (isOnline : bool)
| CreateVehicle (vehicleData : InsertVehicle.t)
| UpdateVehicle (id : Z) (vehicleData : PartialVehicle.t)
| CreateRide (rideData : InsertRide.t) (now : Z)
| AcceptRide (rideId driverId : Z) (now : Z)
| DeclineRide (rideId : Z) (now : Z)
| MarkDriverArrived (rideId : Z)
| StartRide (rideId : Z) (now : Z)
| CompleteRide (rideId : Z) (now : Z)
| CancelRide (rideId : Z) (now : Z)
| CreateRating (ratingData : InsertRating.t) (now : Z).

(** What a call returns. *)
Inductive Value : Type :=
| UserValue (user : User.t)
| VehicleValue (vehicle : Vehicle.t)
| RideValue (ride : Ride.t)
| RatingValue (rating : Rating.t).

Definition perform (c : Call) : M Value :=
  match c with
  | CreateUser d now => v <- createUser d now ;; ret (UserValue v)
  | UpdateUser id d => v <- updateUser id d ;; ret (UserValue v)
  | UpdateUserStatus id b => v <- updateUserStatus id b ;; ret (UserValue v)
  | CreateVehicle d => v <- createVehicle d ;; ret (VehicleValue v)
  | UpdateVehicle id d => v <- updateVehicle id d ;; ret (VehicleValue v)
  | CreateRide d now => v <- createRide d now ;; ret (RideValue v)
  | AcceptRide r d now => v <- acceptRide r d now ;; ret (RideValue v)
  | DeclineRide r now => v <- declineRide r now ;; ret (RideValue v)
  | MarkDriverArrived r => v <- markDriverArrived r ;; ret (RideValue v)
  | StartRide r now => v <- startRide r now ;; ret (RideValue v)
  | CompleteRide r now => v <- completeRide r now ;; ret (RideValue v)
  | CancelRide r now => v <- cancelRide r now ;; ret (RideValue v)
  | CreateRating d now => v <- createRating d now ;; ret (RatingValue v)
  end.

(** The store after a call, whether it returned or threw. *)
Definition exec (c : Call) (s : MemStorage) : MemStorage :=
  snd (perform c s).

Definition run (cs : list Call) (s : MemStorage) : MemStorage :=
  fold_left (fun s c => exec c s) cs s.

(** A store is reachable when calls on a new store lead to it. *)
Definition reachable (s : MemStorage) : Prop :=
  exists now cs, s = run cs (new_MemStorage now).

(** ** The vocabulary of the design document *)

(** The failure kinds of the design, and the kind of each message that the
    store throws. *)
Inductive Failure : Type :=
| NotFound
| InvalidTransition
| AlreadyActive.

Definition failure_of (message : string) : option Failure :=
  if includes ["User not found"; "Vehicle not found"; "Ride not found"]
       message
  then Some NotFound
  else if includes ["Ride is not in requested status";
                    "Ride is not in accepted status";
                    "Ride is not in progress";
                    "Ride cannot be cancelled"] message
  then Some InvalidTransition
  else if includes ["Passenger already has an active ride";
                    "Driver already has an active ride"] message
  then Some AlreadyActive
  else None.

(** The rides of the store, in the order of [ridesMap.values()]. *)
Definition rides (s : MemStorage) : list Ride.t :=
  JsMap.values (ridesMap s).

Definition known_status (st : string) : bool :=
  includes ["requested"; "accepted"; "in_progress"; "completed"; "cancelled"]
    st.

Definition terminal (st : string) : Prop :=
  st = "completed" \/ st = "cancelled".

(** The ride [R] had status [st] in the store after some prefix of the
    calls [cs] made on a new store. *)
Definition reached (now0 : Z) (cs : list Call) (R : Z) (st : string) : Prop :=
  exists cs1 cs2 r,
    cs = cs1 ++ cs2 /\
    JsMap.get R (ridesMap (run cs1 (new_MemStorage now0))) = Some r /\
    Ride.status r = st.

(** The number of [createUser] calls in a sequence. *)
Fixpoint user_creations (cs : list Call) : Z :=
  match cs with
  | [] => 0
  | CreateUser _ _ :: cs' => 1 + user_creations cs'
  | _ :: cs' => user_creations cs'
  end.

(** The fields that no transition writes. *)
Definition same_request (r r' : Ride.t) : Prop :=
  Ride.id r' = Ride.id r /\
  Ride.passengerId r' = Ride.passengerId r /\
  Ride.originAddress r' = Ride.originAddress r /\
  Ride.destinationAddress r' = Ride.destinationAddress r /\
  Ride.originLat r' = Ride.originLat r /\
  Ride.originLng r' = Ride.originLng r /\
  Ride.destinationLat r' = Ride.destinationLat r /\
  Ride.destinationLng r' = Ride.destinationLng r /\
  Ride.requestedAt r' = Ride.requestedAt r /\
  Ride.distance r' = Ride.distance r /\
  Ride.duration r' = Ride.duration r /\
  Ride.fare r' = Ride.fare r /\
  Ride.vehicleType r' = Ride.vehicleType r /\
  Ride.paymentMethod r' = Ride.paymentMethod r.

(** The other rides and the rest of the store are as before. *)
Definition only_ride_changed (R : Z) (s s' : MemStorage) : Prop :=
  (forall R', R' <> R ->
     JsMap.get R' (ridesMap s') = JsMap.get R' (ridesMap s)) /\
  usersMap s' = usersMap s /\
  vehiclesMap s' = vehiclesMap s /\
  ratingsMap s' = ratingsMap s /\
  userIdCounter s' = userIdCounter s /\
  vehicleIdCounter s' = vehicleIdCounter s /\
  rideIdCounter s' = rideIdCounter s /\
  ratingIdCounter s' = ratingIdCounter s.

(** Descending order of the requested time, as the comparator reads it. *)
Definition requested_time (r : Ride.t) : Z :=
  match Ride.requestedAt r with
  | JsVal t => t
  | _ => 0
  end.

Definition requested_not_before (a b : Ride.t) : Prop :=
  requested_time b <= requested_time a.

(** The limit of [getUserRides] when the argument may be left out. *)
Definition limit_or_default (limit : option Z) : Z :=
  match limit with
  | Some l => l
  | None => 10
  end.

(** The ride history as the design states it: the rides of the user,
    most recent first, cut to the first [limit] of them. *)
Definition history_as_stated (s : MemStorage) (U : Z) (limit : option Z)
  : Prop :=
  exists sorted,
    getUserRides U limit s =
      (Return (firstn (Z.to_nat (limit_or_default limit)) sorted), s) /\
    Permutation sorted (filter (user_ride U) (rides s)) /\
    StronglySorted requested_not_before sorted.

(** ** Sample data *)

Definition ride_request (passengerId driverId : JsOpt Z) : InsertRide.t :=
  {| InsertRide.passengerId := passengerId;
     InsertRide.driverId := driverId;
     InsertRide.originAddress := "Rua A, 1";
     InsertRide.destinationAddress := "Rua B, 2";
     InsertRide.originLat := JsUndefined;
     InsertRide.originLng := JsUndefined;
     InsertRide.destinationLat := JsUndefined;
     InsertRide.destinationLng := JsUndefined;
     InsertRide.status := JsUndefined;
     InsertRide.distance := JsUndefined;
     InsertRide.duration := JsUndefined;
     InsertRide.fare := JsUndefined;
     InsertRide.vehicleType := JsVal "economy";
     InsertRide.paymentMethod := JsVal "credit_card" |}.

Definition new_user (username userType : string) : InsertUser.t :=
  {| InsertUser.username := username;
     InsertUser.password := "secret";
     InsertUser.fullName := username;
     InsertUser.email := username;
     InsertUser.phone := JsUndefined;
     InsertUser.profilePicture := JsUndefined;
     InsertUser.userType := JsVal userType;
     InsertUser.language := JsUndefined;
     InsertUser.isOnline := JsVal true |}.

(** A driver (user 2) requests a ride as a passenger, another passenger
    (user 3) requests a ride, and the driver accepts the second ride. *)
Definition driver_rides_and_drives : list Call :=
  [ CreateUser (new_user "dora" "driver") 10;
    CreateUser (new_user "paulo" "passenger") 20;
    CreateRide (ride_request (JsVal 2) JsUndefined) 30;
    CreateRide (ride_request (JsVal 3) JsUndefined) 40;
    AcceptRide 2 2 50 ].

(** A passenger's ride through its whole life. *)
Definition one_full_ride : list Call :=
  [ CreateRide (ride_request (JsVal 1) JsUndefined) 30;
    AcceptRide 1 7 40;
    StartRide 1 50;
    CompleteRide 1 60 ].

(** User 2 requests three rides, at the times 50, 30 and 40, and cancels
    the first two. *)
Definition three_rides_store : MemStorage :=
  run [ CreateRide (ride_request (JsVal 2) JsUndefined) 50;
        CancelRide 1 55;
        CreateRide (ride_request (JsVal 2) JsUndefined) 30;
        CancelRide 2 35;
        CreateRide (ride_request (JsVal 2) JsUndefined) 40 ]
      (new_MemStorage 0).

(** A store with one requested ride, of passenger 1. *)
Definition requested_store : MemStorage :=
  run [CreateRide (ride_request (JsVal 1) JsUndefined) 30] (new_MemStorage 0).

(** The store after [one_full_ride]: ride 1 is completed. *)
Definition completed_store : MemStorage :=
  run one_full_ride (new_MemStorage 0).

(** ** The contract table *)

(** The ride that a transition call is about. *)
Definition transition_target (c : Call) : option Z :=
  match c with
  | AcceptRide R _ _ => Some R
  | DeclineRide R _ => Some R
  | MarkDriverArrived R => Some R
  | StartRide R _ => Some R
  | CompleteRide R _ => Some R
  | CancelRide R _ => Some R
  | _ => None
  end.

(** The failures that the interface declares for each call. *)
Definition declared_failures (c : Call) : list Failure :=
  match c with
  | CreateRide _ _ => [AlreadyActive]
  | AcceptRide _ _ _ => [NotFound; InvalidTransition; AlreadyActive]
  | DeclineRide _ _ => [NotFound; InvalidTransition]
  | MarkDriverArrived _ => [NotFound; InvalidTransition]
  | StartRide _ _ => [NotFound; InvalidTransition]
  | CompleteRide _ _ => [NotFound; InvalidTransition]
  | CancelRide _ _ => [NotFound; InvalidTransition]
  | UpdateUser _ _ => [NotFound]
  | UpdateUserStatus _ _ => [NotFound]
  | UpdateVehicle _ _ => [NotFound]
  | _ => []
  end.

(** The fields that a successful transition leaves as they were, besides
    those of [same_request]: all but the status, the timestamp of the
    transition and, for [acceptRide], the driver. *)
Definition untouched_by (c : Call) (r r' : Ride.t) : Prop :=
  match c with
  | AcceptRide _ _ _ =>
      Ride.startedAt r' = Ride.startedAt r /\
      Ride.completedAt r' = Ride.completedAt r /\
      Ride.cancelledAt r' = Ride.cancelledAt r
  | StartRide _ _ =>
      Ride.driverId r' = Ride.driverId r /\
      Ride.acceptedAt r' = Ride.acceptedAt r /\
      Ride.completedAt r' = Ride.completedAt r /\
      Ride.cancelledAt r' = Ride.cancelledAt r
  | CompleteRide _ _ =>
      Ride.driverId r' = Ride.driverId r /\
      Ride.acceptedAt r' = Ride.acceptedAt r /\
      Ride.startedAt r' = Ride.startedAt r /\
      Ride.cancelledAt r' = Ride.cancelledAt r
  | DeclineRide _ _ | CancelRide _ _ =>
      Ride.driverId r' = Ride.driverId r /\
      Ride.acceptedAt r' = Ride.acceptedAt r /\
      Ride.startedAt r' = Ride.startedAt r /\
      Ride.completedAt r' = Ride.completedAt r
  | _ => r' = r
  end.

(** The status and the timestamp that a successful transition writes. *)
Definition written_by (c : Call) (r' : Ride.t) : Prop :=
  match c with
  | AcceptRide _ D now =>
      Ride.status r' = "accepted" /\ Ride.acceptedAt r' = JsVal now /\
      Ride.driverId r' = JsVal D
  | DeclineRide _ now | CancelRide _ now =>
      Ride.status r' = "cancelled" /\ Ride.cancelledAt r' = JsVal now
  | StartRide _ now =>
      Ride.status r' = "in_progress" /\ Ride.startedAt r' = JsVal now
  | CompleteRide _ now =>
      Ride.status r' = "completed" /\ Ride.completedAt r' = JsVal now
  | _ => True
  end.

(** The round trip of [createRide] and [getRide] as the design states it:
    the stored ride has no driver. *)
Definition roundtrip_as_stated
  (s : MemStorage) (rideData : InsertRide.t) (now P : Z) : Prop :=
  InsertRide.passengerId rideData = JsVal P ->
  (forall r0, In r0 (rides s) ->
     ~ (Ride.passengerId r0 = JsVal P /\
        In (Ride.status r0) ["requested"; "accepted"; "in_progress"])) ->
  exists ride s',
    createRide rideData now s = (Return ride, s') /\
    exists ride',
      getRide (Ride.id ride) s' = (Return (Some ride'), s') /\
      Ride.status ride' = "requested" /\
      Ride.passengerId ride' = JsVal P /\
      is_nullish (Ride.driverId ride') = true.

(** ** What a call does to the rides *)

(** Between the store [s] before a call and the store [s'] after it, the
    rides are the same, or a requested ride was added under the next
    identifier, or one ride was replaced by one of the five transitions. *)
Inductive rides_change (s s' : MemStorage) : Prop :=
| Unchanged :
    ridesMap s' = ridesMap s ->
    rideIdCounter s' = rideIdCounter s ->
    rides_change s s'
| Created (rideData : InsertRide.t) (now : Z) :
    find (passenger_active_ride (InsertRide.passengerId rideData)) (rides s)
      = None ->
    ridesMap s' =
      JsMap.set (rideIdCounter s)
        (requested_ride rideData (rideIdCounter s) now) (ridesMap s) ->
    rideIdCounter s' = rideIdCounter s + 1 ->
    rides_change s s'
| Accepted (R D now : Z) (r : Ride.t) :
    JsMap.get R (ridesMap s) = Some r ->
    Ride.status r = "requested" ->
    find (driver_active_ride D) (rides s) = None ->
    ridesMap s' = JsMap.set R (accepted_ride r D now) (ridesMap s) ->
    rideIdCounter s' = rideIdCounter s ->
    rides_change s s'
| Declined (R now : Z) (r : Ride.t) :
    JsMap.get R (ridesMap s) = Some r ->
    Ride.status r = "requested" ->
    ridesMap s' = JsMap.set R (cancelled_ride r now) (ridesMap s) ->
    rideIdCounter s' = rideIdCounter s ->
    rides_change s s'
| Started (R now : Z) (r : Ride.t) :
    JsMap.get R (ridesMap s) = Some r ->
    Ride.status r = "accepted" ->
    ridesMap s' = JsMap.set R (started_ride r now) (ridesMap s) ->
    rideIdCounter s' = rideIdCounter s ->
    rides_change s s'
| Completed (R now : Z) (r : Ride.t) :
    JsMap.get R (ridesMap s) = Some r ->
    Ride.status r = "in_progress" ->
    ridesMap s' = JsMap.set R (completed_ride r now) (ridesMap s) ->
    rideIdCounter s' = rideIdCounter s ->
    rides_change s s'
| Cancelled (R now : Z) (r : Ride.t) :
    JsMap.get R (ridesMap s) = Some r ->
    In (Ride.status r) ["requested"; "accepted"; "in_progress"] ->
    ridesMap s' = JsMap.set R (cancelled_ride r now) (ridesMap s) ->
    rideIdCounter s' = rideIdCounter s ->
    rides_change s s'.

(** At most one key of the map holds a value that satisfies [p]. *)
Definition unique {V} (p : V -> bool) (m : JsMap.t V) : Prop :=
  forall k1 k2 v1 v2,
    JsMap.get k1 m = Some v1 -> JsMap.get k2 m = Some v2 ->
    p v1 = true -> p v2 = true -> k1 = k2.

(** The invariant of the rides of a reachable store. *)
Record rides_ok (s : MemStorage) : Prop := {
  keys_distinct : NoDup (JsMap.keys (ridesMap s));
  keys_below_counter :
    forall R r, JsMap.get R (ridesMap s) = Some r -> R < rideIdCounter s;
  id_is_key :
    forall R r, JsMap.get R (ridesMap s) = Some r -> Ride.id r = R;
  status_known :
    forall R r, JsMap.get R (ridesMap s) = Some r ->
                known_status (Ride.status r) = true;
  one_per_passenger :
    forall P, unique (passenger_active_ride P) (ridesMap s);
  one_per_driver :
    forall D, unique (driver_active_ride D) (ridesMap s)
}.

(** The timestamps of a ride agree with the statuses [seen] in its
    history. *)
Definition stamps (seen : string -> Prop) (r : Ride.t) : Prop :=
  (is_set (Ride.requestedAt r) = true <-> seen "requested") /\
  (is_set (Ride.acceptedAt r) = true <-> seen "accepted") /\
  (is_set (Ride.startedAt r) = true <-> seen "in_progress") /\
  (is_set (Ride.completedAt r) = true <-> seen "completed") /\
  (is_set (Ride.cancelledAt r) = true <-> seen "cancelled") /\
  seen "requested" /\
  (seen "in_progress" -> seen "accepted") /\
  (seen "completed" -> seen "in_progress").

(** ** The request handlers ([server/routes.ts])

    A handler reads the authenticated user of the request ([None] when
    [req.isAuthenticated()] is false), the route parameter after
    [parseInt] ([None] when it is [NaN]) and the body after the schema's
    [parse] ([None] when [parse] throws a [ZodError]), calls the store and
    answers with a status code and a payload. *)

Inductive Payload : Type :=
| StatusText                       (* [res.sendStatus(code)] *)
| Message (message : string)       (* [{ message }] *)
| Invalid (message : string)       (* [{ message, errors }] *)
| RideJson (ride : Ride.t)
| RatingJson (rating : Rating.t).

Record Response := {
  statusCode : Z;
  payload : Payload
}.

Definition sendStatus (code : Z) : Response :=
  {| statusCode := code; payload := StatusText |}.

(** [res.status(code).json(payload)]; [res.json(payload)] answers 200. *)
Definition json (code : Z) (p : Payload) : Response :=
  {| statusCode := code; payload := p |}.

(** [try { m } catch (error) { handler(error) }] *)
Definition try_catch {A} (m : M A) (handler : string -> M A) : M A :=
  fun s =>
    match m s with
    | (Return a, s') => (Return a, s')
    | (Throw e, s') => handler e s'
    end.

(** [req.user.userType !== 'driver'] is false. *)
Definition is_driver (user : User.t) : bool :=
  match User.userType user with
  | JsVal t => String.eqb t "driver"
  | _ => false
  end.

(** [ride.passengerId !== req.user.id && ride.driverId !== req.user.id] *)
Definition not_on_ride (user : User.t) (ride : Ride.t) : bool :=
  negb (strict_eq (Ride.passengerId ride) (JsVal (User.id user)))
  && negb (strict_eq (Ride.driverId ride) (JsVal (User.id user))).

(** [{ ...req.body, passengerId: req.user.id }] after [parse]. *)
Definition with_passengerId (p : Z) (d : InsertRide.t) : InsertRide.t :=
  {| InsertRide.passengerId := JsVal p;
     InsertRide.driverId := InsertRide.driverId d;
     InsertRide.originAddress := InsertRide.originAddress d;
     InsertRide.destinationAddress := InsertRide.destinationAddress d;
     InsertRide.originLat := InsertRide.originLat d;
     InsertRide.originLng := InsertRide.originLng d;
     InsertRide.destinationLat := InsertRide.destinationLat d;
     InsertRide.destinationLng := InsertRide.destinationLng d;
     InsertRide.status := InsertRide.status d;
     InsertRide.distance := InsertRide.distance d;
     InsertRide.duration := InsertRide.duration d;
     InsertRide.fare := InsertRide.fare d;
     InsertRide.vehicleType := InsertRide.vehicleType d;
     InsertRide.paymentMethod := InsertRide.paymentMethod d |}.

(** [{ ...req.body, fromUserId: req.user.id }] after [parse]. *)
Definition with_fromUserId (u : Z) (d : InsertRating.t) : InsertRating.t :=
  {| InsertRating.rideId := InsertRating.rideId d;
     InsertRating.fromUserId := JsVal u;
     InsertRating.toUserId := InsertRating.toUserId d;
     InsertRating.rating := InsertRating.rating d;
     InsertRating.comment := InsertRating.comment d |}.

(** [{ ...ratingData, toUserId }] *)
Definition with_toUserId (u : JsOpt Z) (d : InsertRating.t) : InsertRating.t :=
  {| InsertRating.rideId := InsertRating.rideId d;
     InsertRating.fromUserId := InsertRating.fromUserId d;
     InsertRating.toUserId := u;
     InsertRating.rating := InsertRating.rating d;
     InsertRating.comment := InsertRating.comment d |}.

(** [storage.getRide(id)] for an [id] that may be [NaN], [null] or
    [undefined]: the map has no such key. *)
Definition getRide_param (id : option Z) : M (option Ride.t) :=
  match id with
  | Some id => getRide id
  | None => ret None
  end.

Definition js_number (x : JsOpt Z) : option Z :=
  match x with
  | JsVal n => Some n
  | _ => None
  end.

(** [GET /api/rides/active] *)
Definition get_rides_active (user : option User.t) : M Response :=
  match user with
  | None => ret (sendStatus 401)
  | Some user =>
      try_catch
        (activeRide <- getActiveRideForUser (User.id user) ;;
         match activeRide with
         | None => ret (json 404 (Message "No active ride found"))
         | Some activeRide => ret (json 200 (RideJson activeRide))
         end)
        (fun _ => ret (json 500 (Message "Error fetching active ride")))
  end.

(** [POST /api/rides] *)
Definition post_rides (user : option User.t) (body : option InsertRide.t)
  (now : Z) : M Response :=
  match user with
  | None => ret (sendStatus 401)
  | Some user =>
      match body with
      | None => ret (json 400 (Invalid "Invalid ride data"))
      | Some body =>
          let rideData := with_passengerId (User.id user) body in
          try_catch
            (ride <- createRide rideData now ;;
             ret (json 201 (RideJson ride)))
            (fun _ => ret (json 500 (Message "Error creating ride")))
      end
  end.

(** [PATCH /api/rides/:id/cancel] *)
Definition patch_rides_cancel (user : option User.t) (rideId : option Z)
  (now : Z) : M Response :=
  match user with
  | None => ret (sendStatus 401)
  | Some user =>
      try_catch
        (ride <- getRide_param rideId ;;
         match ride, rideId with
         | Some ride, Some rideId =>
             if not_on_ride user ride
             then ret (json 403 (Message "Not authorized to cancel this ride"))
             else
               cancelledRide <- cancelRide rideId now ;;
               ret (json 200 (RideJson cancelledRide))
         | _, _ => ret (json 404 (Message "Ride not found"))
         end)
        (fun _ => ret (json 500 (Message "Error cancelling ride")))
  end.

(** [PATCH /api/rides/:id/accept] *)
Definition patch_rides_accept (user : option User.t) (rideId : option Z)
  (now : Z) : M Response :=
  match user with
  | None => ret (sendStatus 401)
  | Some user =>
      if negb (is_driver user) then ret (sendStatus 401)
      else
        try_catch
          (ride <- getRide_param rideId ;;
           match ride, rideId with
           | Some ride, Some rideId =>
               if negb (String.eqb (Ride.status ride) "requested")
               then ret (json 400 (Message "Ride is not in requested status"))
               else
                 acceptedRide <- acceptRide rideId (User.id user) now ;;
                 ret (json 200 (RideJson acceptedRide))
           | _, _ => ret (json 404 (Message "Ride not found"))
           end)
          (fun _ => ret (json 500 (Message "Error accepting ride")))
  end.

(** [PATCH /api/rides/:id/decline] *)
Definition patch_rides_decline (user : option User.t) (rideId : option Z)
  (now : Z) : M Response :=
  match user with
  | None => ret (sendStatus 401)
  | Some user =>
      if negb (is_driver user) then ret (sendStatus 401)
      else
        try_catch
          (ride <- getRide_param rideId ;;
           match ride, rideId with
           | Some ride, Some rideId =>
               if negb (String.eqb (Ride.status ride) "requested")
               then ret (json 400 (Message "Ride is not in requested status"))
               else
                 declinedRide <- declineRide rideId now ;;
                 ret (json 200 (RideJson declinedRide))
           | _, _ => ret (json 404 (Message "Ride not found"))
           end)
          (fun _ => ret (json 500 (Message "Error declining ride")))
  end.

(** [PATCH /api/rides/:id/arrived] *)
Definition patch_rides_arrived (user : option User.t) (rideId : option Z)
  : M Response :=
  match user with
  | None => ret (sendStatus 401)
  | Some user =>
      if negb (is_driver user) then ret (sendStatus 401)
      else
        try_catch
          (ride <- getRide_param rideId ;;
           match ride, rideId with
           | Some ride, Some rideId =>
               if negb (String.eqb (Ride.status ride) "accepted")
                  || negb (strict_eq (Ride.driverId ride)
                             (JsVal (User.id user)))
               then ret (json 400 (Message "Cannot mark arrival for this ride"))
               else
                 arrivedRide <- markDriverArrived rideId ;;
                 ret (json 200 (RideJson arrivedRide))
           | _, _ => ret (json 404 (Message "Ride not found"))
           end)
          (fun _ => ret (json 500 (Message "Error marking arrival")))
  end.

(** [PATCH /api/rides/:id/start] *)
Definition patch_rides_start (user : option User.t) (rideId : option Z)
  (now : Z) : M Response :=
  match user with
  | None => ret (sendStatus 401)
  | Some user =>
      if negb (is_driver user) then ret (sendStatus 401)
      else
        try_catch
          (ride <- getRide_param rideId ;;
           match ride, rideId with
           | Some ride, Some rideId =>
               if negb (String.eqb (Ride.status ride) "accepted")
                  || negb (strict_eq (Ride.driverId ride)
                             (JsVal (User.id user)))
               then ret (json 400 (Message "Cannot start this ride"))
               else
                 startedRide <- startRide rideId now ;;
                 ret (json 200 (RideJson startedRide))
           | _, _ => ret (json 404 (Message "Ride not found"))
           end)
          (fun _ => ret (json 500 (Message "Error starting ride")))
  end.

(** [PATCH /api/rides/:id/complete] *)
Definition patch_rides_complete (user : option User.t) (rideId : option Z)
  (now : Z) : M Response :=
  match user with
  | None => ret (sendStatus 401)
  | Some user =>
      if negb (is_driver user) then ret (sendStatus 401)
      else
        try_catch
          (ride <- getRide_param rideId ;;
           match ride, rideId with
           | Some ride, Some rideId =>
               if negb (String.eqb (Ride.status ride) "in_progress")
                  || negb (strict_eq (Ride.driverId ride)
                             (JsVal (User.id user)))
               then ret (json 400 (Message "Cannot complete this ride"))
               else
                 completedRide <- completeRide rideId now ;;
                 ret (json 200 (RideJson completedRide))
           | _, _ => ret (json 404 (Message "Ride not found"))
           end)
          (fun _ => ret (json 500 (Message "Error completing ride")))
  end.

(** [POST /api/ratings] *)
Definition post_ratings (user : option User.t) (body : option InsertRating.t)
  (now : Z) : M Response :=
  match user with
  | None => ret (sendStatus 401)
  | Some user =>
      match body with
      | None => ret (json 400 (Invalid "Invalid rating data"))
      | Some body =>
          let ratingData := with_fromUserId (User.id user) body in
          try_catch
            (ride <- getRide_param (js_number (InsertRating.rideId ratingData)) ;;
             match ride with
             | None => ret (json 404 (Message "Ride not found"))
             | Some ride =>
                 if not_on_ride user ride
                 then ret (json 403
                             (Message "Not authorized to rate this ride"))
                 else
                   let toUserId :=
                     if strict_eq (JsVal (User.id user)) (Ride.passengerId ride)
                     then Ride.driverId ride
                     else Ride.passengerId ride in
                   rating <- createRating (with_toUserId toUserId ratingData)
                               now ;;
                   ret (json 201 (RatingJson rating))
             end)
            (fun _ => ret (json 500 (Message "Error creating rating")))
      end
  end.

(** The requests of the API, with the time that the store reads. *)
Inductive ApiRequest : Type :=
| GetRidesActive
| PostRides (body : option InsertRide.t) (now : Z)
| PatchRidesCancel (rideId : option Z) (now : Z)
| PatchRidesAccept (rideId : option Z) (now : Z)
| PatchRidesDecline (rideId : option Z) (now : Z)
| PatchRidesArrived (rideId : option Z)
| PatchRidesStart (rideId : option Z) (now : Z)
| PatchRidesComplete (rideId : option Z) (now : Z)
| PostRatings (body : option InsertRating.t) (now : Z).

Definition handle (user : option User.t) (req : ApiRequest) : M Response :=
  match req with
  | GetRidesActive => get_rides_active user
  | PostRides body now => post_rides user body now
  | PatchRidesCancel id now => patch_rides_cancel user id now
  | PatchRidesAccept id now => patch_rides_accept user id now
  | PatchRidesDecline id now => patch_rides_decline user id now
  | PatchRidesArrived id => patch_rides_arrived user id
  | PatchRidesStart id now => patch_rides_start user id now
  | PatchRidesComplete id now => patch_rides_complete user id now
  | PostRatings body now => post_ratings user body now
  end.

(** The routes that only a driver may call. *)
Definition driver_route (req : ApiRequest) : bool :=
  match req with
  | PatchRidesAccept _ _ | PatchRidesDecline _ _ | PatchRidesArrived _
  | PatchRidesStart _ _ | PatchRidesComplete _ _ => true
  | _ => false
  end.

(** ** Vocabulary for the rest of the store *)

(** What a call does to the whole store: nothing, or one entry added
    under the next identifier of its map, or one existing entry
    replaced. *)
Inductive store_change (s s' : MemStorage) : Prop :=
| NoChange : s' = s -> store_change s s'
| UserAdded (u : User.t) :
    s' = assign_usersMap (JsMap.set (userIdCounter s) u (usersMap s))
           (assign_userIdCounter (userIdCounter s + 1) s) ->
    store_change s s'
| UserReplaced (id : Z) (u0 u : User.t) :
    JsMap.get id (usersMap s) = Some u0 ->
    s' = assign_usersMap (JsMap.set id u (usersMap s)) s ->
    store_change s s'
| VehicleAdded (v : Vehicle.t) :
    s' = assign_vehiclesMap
           (JsMap.set (vehicleIdCounter s) v (vehiclesMap s))
           (assign_vehicleIdCounter (vehicleIdCounter s + 1) s) ->
    store_change s s'
| VehicleReplaced (id : Z) (v0 v : Vehicle.t) :
    JsMap.get id (vehiclesMap s) = Some v0 ->
    s' = assign_vehiclesMap (JsMap.set id v (vehiclesMap s)) s ->
    store_change s s'
| RideAdded (r : Ride.t) :
    s' = assign_ridesMap (JsMap.set (rideIdCounter s) r (ridesMap s))
           (assign_rideIdCounter (rideIdCounter s + 1) s) ->
    store_change s s'
| RideReplaced (R : Z) (r0 r : Ride.t) :
    JsMap.get R (ridesMap s) = Some r0 ->
    s' = assign_ridesMap (JsMap.set R r (ridesMap s)) s ->
    store_change s s'
| RatingAdded (r : Rating.t) :
    s' = assign_ratingsMap
           (JsMap.set (ratingIdCounter s) r (ratingsMap s))
           (assign_ratingIdCounter (ratingIdCounter s + 1) s) ->
    store_change s s'.

(** The identifiers [1, 2, ..., counter - 1]. *)
Definition ids_upto (counter : Z) : list Z :=
  map Z.of_nat (seq 1 (Z.to_nat (counter - 1))).

(** The keys of a map are the identifiers handed out so far, in order. *)
Definition consecutive {V} (m : JsMap.t V) (counter : Z) : Prop :=
  1 <= counter /\ JsMap.keys m = ids_upto counter.

Record ids_ok (s : MemStorage) : Prop := {
  users_consecutive : consecutive (usersMap s) (userIdCounter s);
  vehicles_consecutive : consecutive (vehiclesMap s) (vehicleIdCounter s);
  rides_consecutive : consecutive (ridesMap s) (rideIdCounter s);
  ratings_consecutive : consecutive (ratingsMap s) (ratingIdCounter s)
}.

(** The statuses from which a transition call other than [acceptRide]
    goes through. *)
Definition required_status (c : Call) : list string :=
  match c with
  | DeclineRide _ _ => ["requested"]
  | MarkDriverArrived _ => ["accepted"]
  | StartRide _ _ => ["accepted"]
  | CompleteRide _ _ => ["in_progress"]
  | CancelRide _ _ => ["requested"; "accepted"; "in_progress"]
  | _ => []
  end.

(** The fields that a ride has in each status. *)
Definition ride_shape (r : Ride.t) : Prop :=
  is_set (Ride.requestedAt r) = true /\
  (Ride.status r = "requested" ->
     is_set (Ride.acceptedAt r) = false /\
     is_set (Ride.startedAt r) = false /\
     is_set (Ride.completedAt r) = false /\
     is_set (Ride.cancelledAt r) = false) /\
  (Ride.status r = "accepted" ->
     is_set (Ride.driverId r) = true /\
     is_set (Ride.acceptedAt r) = true /\
     is_set (Ride.startedAt r) = false /\
     is_set (Ride.completedAt r) = false /\
     is_set (Ride.cancelledAt r) = false) /\
  (Ride.status r = "in_progress" ->
     is_set (Ride.driverId r) = true /\
     is_set (Ride.acceptedAt r) = true /\
     is_set (Ride.startedAt r) = true /\
     is_set (Ride.completedAt r) = false /\
     is_set (Ride.cancelledAt r) = false) /\
  (Ride.status r = "completed" ->
     is_set (Ride.driverId r) = true /\
     is_set (Ride.acceptedAt r) = true /\
     is_set (Ride.startedAt r) = true /\
     is_set (Ride.completedAt r) = true /\
     is_set (Ride.cancelledAt r) = false) /\
  (Ride.status r = "cancelled" ->
     is_set (Ride.cancelledAt r) = true /\
     is_set (Ride.completedAt r) = false /\
     (is_set (Ride.startedAt r) = true ->
      is_set (Ride.acceptedAt r) = true) /\
     (is_set (Ride.acceptedAt r) = true ->
      is_set (Ride.driverId r) = true)).

(** A store with a user "dora", besides the seeded user. *)
Definition two_doras : MemStorage :=
  run [CreateUser (new_user "dora" "driver") 10] (new_MemStorage 0).

(** The user whose session makes a request: user 2, a driver. *)
Definition dora : User.t :=
  {| User.id := 2; User.username := "dora"; User.password := "secret";
     User.fullName := "dora"; User.email := "dora";
     User.phone := JsUndefined; User.profilePicture := JsUndefined;
     User.userType := JsVal "driver"; User.createdAt := JsVal 10;
     User.language := JsUndefined; User.isOnline := JsVal true |}.

(** The seeded user 1, a passenger. *)
Definition test_passenger : User.t :=
  {| User.id := 1; User.username := "test"; User.password := "secret";
     User.fullName := "Test User"; User.email := "test@example.com";
     User.phone := JsUndefined; User.profilePicture := JsUndefined;
     User.userType := JsVal "passenger"; User.createdAt := JsVal 0;
     User.language := JsUndefined; User.isOnline := JsVal false |}.

(** A store in which driver 2 drives the accepted ride 1 of passenger 1,
    and passenger 3 has requested ride 2. *)
Definition busy_driver_store : MemStorage :=
  run [ CreateRide (ride_request (JsVal 1) JsUndefined) 30;
        AcceptRide 1 2 40;
        CreateRide (ride_request (JsVal 3) JsUndefined) 50 ]
      (new_MemStorage 0).

Definition five_stars (rideId : Z) : InsertRating.t :=
  {| InsertRating.rideId := JsVal rideId;
     InsertRating.fromUserId := JsUndefined;
     InsertRating.toUserId := JsUndefined;
     InsertRating.rating := 5;
     InsertRating.comment := JsUndefined |}.

(** Descending order of the creation time of ratings, as the comparator
    reads it. *)
Definition created_time (r : Rating.t) : Z :=
  match Rating.createdAt r with
  | JsVal t => t
  | _ => 0
  end.

Definition created_not_before (a b : Rating.t) : Prop :=
  created_time b <= created_time a.

Definition rating_for (userId : Z) (rating : Rating.t) : bool :=
  strict_eq (Rating.toUserId rating) (JsVal userId).

Definition car_of (driverId : Z) (licensePlate : string) : InsertVehicle.t :=
  {| InsertVehicle.driverId := driverId;
     InsertVehicle.model := "Uno";
     InsertVehicle.year := "2015";
     InsertVehicle.color := "white";
     InsertVehicle.licensePlate := licensePlate;
     InsertVehicle.vehicleType := JsVal "economy" |}.

(** A store in which driver 2 has registered a car. *)
Definition one_car_store : MemStorage :=
  run [CreateVehicle (car_of 2 "ABC-1234")] (new_MemStorage 0).

(** A rating of user 7 with a score outside 1..5. *)
Definition odd_rating : InsertRating.t :=
  {| InsertRating.rideId := JsVal 1;
     InsertRating.fromUserId := JsVal 1;
     InsertRating.toUserId := JsVal 7;
     InsertRating.rating := 11;
     InsertRating.comment := JsUndefined |}.

(** The store after [one_full_ride] and two equal ratings of driver 7. *)
Definition rated_store : MemStorage :=
  run [CreateRating odd_rating 70; CreateRating odd_rating 80]
      completed_store.

(** The requests that the store refuses although the handler has let
    them through: a ride request of a passenger who has an active ride,
    an acceptance by a driver who has one, and the cancellation of a
    ride that is no longer active. *)
Definition store_refuses (user : option User.t) (req : ApiRequest)
  (s : MemStorage) : Prop :=
  match user, req with
  | Some u, PostRides (Some _) _ =>
      exists r,
        In r (rides s) /\
        Ride.passengerId r = JsVal (User.id u) /\
        In (Ride.status r) ["requested"; "accepted"; "in_progress"]
  | Some u, PatchRidesAccept (Some id) _ =>
      is_driver u = true /\
      (exists ride,
          JsMap.get id (ridesMap s) = Some ride /\
          Ride.status ride = "requested") /\
      exists r,
        In r (rides s) /\
        Ride.driverId r = JsVal (User.id u) /\
        In (Ride.status r) ["accepted"; "in_progress"]
  | Some u, PatchRidesCancel (Some id) _ =>
      exists ride,
        JsMap.get id (ridesMap s) = Some ride /\
        (Ride.passengerId ride = JsVal (User.id u) \/
         Ride.driverId ride = JsVal (User.id u)) /\
        ~ In (Ride.status ride) ["requested"; "accepted"; "in_progress"]
  | _, _ => False
  end.

(** The ride that only its driver may mark as arrived, start or
    complete. *)
Definition driver_step (req : ApiRequest) : option Z :=
  match req with
  | PatchRidesArrived (Some id) => Some id
  | PatchRidesStart (Some id) _ => Some id
  | PatchRidesComplete (Some id) _ => Some id
  | _ => None
  end.

(** * Properties *)

Unset Implicit Arguments.

(** ** Maps *)

Section JsMapFacts.
Context {V : Type}.
Implicit Types (m : JsMap.t V) (k : Z) (v : V).

Lemma get_set_same m k v : JsMap.get k (JsMap.set k v m) = Some v.
Proof.
  induction m as [|[k' v'] m IH]; simpl.
  - now rewrite Z.eqb_refl.
  - destruct (k' =? k) eqn:E; simpl.
    + now rewrite Z.eqb_refl.
    + now rewrite E.
Qed.

Lemma get_set_other m k k' v :
  k' <> k -> JsMap.get k' (JsMap.set k v m) = JsMap.get k' m.
Proof.
  intros Hne. induction m as [|[k0 v0] m IH]; simpl.
  - destruct (k =? k') eqn:E; [apply Z.eqb_eq in E; congruence | reflexivity].
  - destruct (k0 =? k) eqn:E; simpl.
    + apply Z.eqb_eq in E. subst k0.
      destruct (k =? k') eqn:E'; [apply Z.eqb_eq in E'; congruence|].
      reflexivity.
    + now rewrite IH.
Qed.

Lemma get_In_values m k v : JsMap.get k m = Some v -> In v (JsMap.values m).
Proof.
  induction m as [|[k' v'] m IH]; simpl; [discriminate|].
  destruct (k' =? k); intros H.
  - injection H as ->. now left.
  - right. now apply IH.
Qed.

Lemma get_In_keys m k v : JsMap.get k m = Some v -> In k (JsMap.keys m).
Proof.
  induction m as [|[k' v'] m IH]; simpl; [discriminate|].
  destruct (k' =? k) eqn:E; intros H.
  - left. now apply Z.eqb_eq.
  - right. now apply IH.
Qed.

Lemma In_keys_get m k : In k (JsMap.keys m) -> exists v, JsMap.get k m = Some v.
Proof.
  induction m as [|[k' v'] m IH]; simpl; [tauto|].
  intros [->|H].
  - rewrite Z.eqb_refl. eauto.
  - destruct (k' =? k); eauto.
Qed.

Lemma In_keys_set m k k' v :
  In k' (JsMap.keys (JsMap.set k v m)) <-> k' = k \/ In k' (JsMap.keys m).
Proof.
  induction m as [|[k0 v0] m IH]; simpl.
  - intuition congruence.
  - destruct (k0 =? k) eqn:E; simpl.
    + apply Z.eqb_eq in E. subst. intuition congruence.
    + rewrite IH. intuition congruence.
Qed.

Lemma NoDup_keys_set m k v :
  NoDup (JsMap.keys m) -> NoDup (JsMap.keys (JsMap.set k v m)).
Proof.
  induction m as [|[k0 v0] m IH]; simpl; intros H.
  - constructor; [simpl; tauto | constructor].
  - inversion H as [|? ? Hnin Hnd]; subst.
    destruct (k0 =? k) eqn:E; simpl.
    + apply Z.eqb_eq in E. subst. now constructor.
    + constructor; [|now apply IH].
      rewrite In_keys_set. intros [->|?]; [|tauto].
      now rewrite Z.eqb_refl in E.
Qed.

Lemma In_values_get m v :
  NoDup (JsMap.keys m) -> In v (JsMap.values m) ->
  exists k, JsMap.get k m = Some v.
Proof.
  induction m as [|[k0 v0] m IH]; simpl; [tauto|].
  intros Hnd [->|Hin]; inversion Hnd as [|? ? Hnin Hnd']; subst.
  - exists k0. now rewrite Z.eqb_refl.
  - destruct (IH Hnd' Hin) as [k Hk]. exists k.
    destruct (k0 =? k) eqn:E; [|assumption].
    apply Z.eqb_eq in E. subst. apply get_In_keys in Hk. tauto.
Qed.
End JsMapFacts.

(** ** The methods, case by case *)

Ltac run_method :=
  unfold createRide, acceptRide, declineRide, markDriverArrived, startRide,
    completeRide, cancelRide, createUser, updateUserStatus, updateUser,
    createVehicle, updateVehicle, createRating, getRide, getUser, getVehicle,
    getPassengerActiveRide, getDriverActiveRide, ridesMap_set, usersMap_set,
    vehiclesMap_set, ratingsMap_set, rideIdCounter_postincr,
    userIdCounter_postincr, vehicleIdCounter_postincr,
    ratingIdCounter_postincr, bind, read, write, ret, throw, rides;
  cbn beta iota.

Lemma createRide_eq rideData now s :
  createRide rideData now s =
  match find (passenger_active_ride (InsertRide.passengerId rideData))
             (rides s) with
  | Some _ => (Throw "Passenger already has an active ride", s)
  | None =>
      let ride := requested_ride rideData (rideIdCounter s) now in
      (Return ride,
       assign_ridesMap (JsMap.set (rideIdCounter s) ride (ridesMap s))
         (assign_rideIdCounter (rideIdCounter s + 1) s))
  end.
Proof. run_method. now destruct (find _ _). Qed.

Lemma acceptRide_eq rideId driverId now s :
  acceptRide rideId driverId now s =
  match JsMap.get rideId (ridesMap s) with
  | None => (Throw "Ride not found", s)
  | Some ride =>
      if negb (String.eqb (Ride.status ride) "requested")
      then (Throw "Ride is not in requested status", s)
      else
        match find (driver_active_ride driverId) (rides s) with
        | Some _ => (Throw "Driver already has an active ride", s)
        | None =>
            let updatedRide := accepted_ride ride driverId now in
            (Return updatedRide,
             assign_ridesMap (JsMap.set rideId updatedRide (ridesMap s)) s)
        end
  end.
Proof.
  run_method. destruct (JsMap.get _ _); [|reflexivity].
  destruct (negb _); [reflexivity|]. now destruct (find _ _).
Qed.

Lemma declineRide_eq rideId now s :
  declineRide rideId now s =
  match JsMap.get rideId (ridesMap s) with
  | None => (Throw "Ride not found", s)
  | Some ride =>
      if negb (String.eqb (Ride.status ride) "requested")
      then (Throw "Ride is not in requested status", s)
      else
        let updatedRide := cancelled_ride ride now in
        (Return updatedRide,
         assign_ridesMap (JsMap.set rideId updatedRide (ridesMap s)) s)
  end.
Proof.
  run_method. destruct (JsMap.get _ _); [|reflexivity].
  now destruct (negb _).
Qed.

Lemma markDriverArrived_eq rideId s :
  markDriverArrived rideId s =
  match JsMap.get rideId (ridesMap s) with
  | None => (Throw "Ride not found", s)
  | Some ride =>
      if negb (String.eqb (Ride.status ride) "accepted")
      then (Throw "Ride is not in accepted status", s)
      else (Return ride, s)
  end.
Proof.
  run_method. destruct (JsMap.get _ _); [|reflexivity].
  now destruct (negb _).
Qed.

Lemma startRide_eq rideId now s :
  startRide rideId now s =
  match JsMap.get rideId (ridesMap s) with
  | None => (Throw "Ride not found", s)
  | Some ride =>
      if negb (String.eqb (Ride.status ride) "accepted")
      then (Throw "Ride is not in accepted status", s)
      else
        let updatedRide := started_ride ride now in
        (Return updatedRide,
         assign_ridesMap (JsMap.set rideId updatedRide (ridesMap s)) s)
  end.
Proof.
  run_method. destruct (JsMap.get _ _); [|reflexivity].
  now destruct (negb _).
Qed.

Lemma completeRide_eq rideId now s :
  completeRide rideId now s =
  match JsMap.get rideId (ridesMap s) with
  | None => (Throw "Ride not found", s)
  | Some ride =>
      if negb (String.eqb (Ride.status ride) "in_progress")
      then (Throw "Ride is not in progress", s)
      else
        let updatedRide := completed_ride ride now in
        (Return updatedRide,
         assign_ridesMap (JsMap.set rideId updatedRide (ridesMap s)) s)
  end.
Proof.
  run_method. destruct (JsMap.get _ _); [|reflexivity].
  now destruct (negb _).
Qed.

Lemma cancelRide_eq rideId now s :
  cancelRide rideId now s =
  match JsMap.get rideId (ridesMap s) with
  | None => (Throw "Ride not found", s)
  | Some ride =>
      if negb (includes ["requested"; "accepted"; "in_progress"]
                 (Ride.status ride))
      then (Throw "Ride cannot be cancelled", s)
      else
        let updatedRide := cancelled_ride ride now in
        (Return updatedRide,
         assign_ridesMap (JsMap.set rideId updatedRide (ridesMap s)) s)
  end.
Proof.
  run_method. destruct (JsMap.get _ _); [|reflexivity].
  now destruct (negb _).
Qed.

Lemma createUser_eq userData now s :
  exists user,
    User.id user = userIdCounter s /\
    User.username user = InsertUser.username userData /\
    createUser userData now s =
    (Return user,
     assign_usersMap (JsMap.set (userIdCounter s) user (usersMap s))
       (assign_userIdCounter (userIdCounter s + 1) s)).
Proof. eexists. split; [|split]; [| |run_method; reflexivity]; reflexivity. Qed.

Lemma updateUser_cases id userData s :
  updateUser id userData s = (Throw "User not found", s) \/
  exists user,
    updateUser id userData s =
    (Return user, assign_usersMap (JsMap.set id user (usersMap s)) s).
Proof.
  run_method. destruct (JsMap.get _ _); [right; eauto | now left].
Qed.

Lemma updateVehicle_cases id vehicleData s :
  updateVehicle id vehicleData s = (Throw "Vehicle not found", s) \/
  exists vehicle,
    updateVehicle id vehicleData s =
    (Return vehicle,
     assign_vehiclesMap (JsMap.set id vehicle (vehiclesMap s)) s).
Proof.
  run_method. destruct (JsMap.get _ _); [right; eauto | now left].
Qed.

(** Status tests on strings. *)
Lemma status_neq_false (a b : string) : negb (String.eqb a b) = false <-> a = b.
Proof.
  rewrite negb_false_iff. apply String.eqb_eq.
Qed.

Lemma includes_iff (l : list string) (st : string) :
  includes l st = true <-> In st l.
Proof.
  unfold includes. rewrite existsb_exists. split.
  - intros (x & Hin & Heq). apply String.eqb_eq in Heq. now subst.
  - intros Hin. exists st. split; [assumption | apply String.eqb_refl].
Qed.

(** ** Every call changes the rides in one of seven ways *)

Lemma snd_bind_ret {A B} (m : M A) (f : A -> B) s :
  snd ((v <- m ;; ret (f v)) s) = snd (m s).
Proof. unfold bind, ret. now destruct (m s) as [[a|e] s']. Qed.

Lemma fst_bind_ret {A B} (m : M A) (f : A -> B) s :
  fst ((v <- m ;; ret (f v)) s) =
  match fst (m s) with
  | Return a => Return (f a)
  | Throw e => Throw e
  end.
Proof. unfold bind, ret. now destruct (m s) as [[a|e] s']. Qed.

Lemma exec_rides_change c s : rides_change s (exec c s).
Proof.
  destruct c; unfold exec, perform; rewrite snd_bind_ret.
  - destruct (createUser_eq userData now s) as (u & _ & _ & ->).
    now apply Unchanged.
  - destruct (updateUser_cases id userData s) as [->|(u & ->)];
      now apply Unchanged.
  - unfold updateUserStatus.
    destruct (updateUser_cases id
      {| PartialUser.id := None; PartialUser.username := None;
         PartialUser.password := None; PartialUser.fullName := None;
         PartialUser.email := None; PartialUser.phone := None;
         PartialUser.profilePicture := None; PartialUser.userType := None;
         PartialUser.createdAt := None; PartialUser.language := None;
         PartialUser.isOnline := Some (JsVal isOnline) |} s)
      as [->|(u & ->)]; now apply Unchanged.
  - run_method. now apply Unchanged.
  - destruct (updateVehicle_cases id vehicleData s) as [->|(u & ->)];
      now apply Unchanged.
  - rewrite createRide_eq.
    destruct (find _ _) eqn:F; [now apply Unchanged|].
    now apply Created with rideData now.
  - rewrite acceptRide_eq.
    destruct (JsMap.get _ _) as [r|] eqn:G; [|now apply Unchanged].
    destruct (negb _) eqn:E; [now apply Unchanged|].
    apply status_neq_false in E.
    destruct (find _ _) eqn:F; [now apply Unchanged|].
    now apply Accepted with rideId driverId now r.
  - rewrite declineRide_eq.
    destruct (JsMap.get _ _) as [r|] eqn:G; [|now apply Unchanged].
    destruct (negb _) eqn:E; [now apply Unchanged|].
    apply status_neq_false in E.
    now apply Declined with rideId now r.
  - rewrite markDriverArrived_eq.
    destruct (JsMap.get _ _) as [r|] eqn:G; [|now apply Unchanged].
    destruct (negb _) eqn:E; now apply Unchanged.
  - rewrite startRide_eq.
    destruct (JsMap.get _ _) as [r|] eqn:G; [|now apply Unchanged].
    destruct (negb _) eqn:E; [now apply Unchanged|].
    apply status_neq_false in E.
    now apply Started with rideId now r.
  - rewrite completeRide_eq.
    destruct (JsMap.get _ _) as [r|] eqn:G; [|now apply Unchanged].
    destruct (negb _) eqn:E; [now apply Unchanged|].
    apply status_neq_false in E.
    now apply Completed with rideId now r.
  - rewrite cancelRide_eq.
    destruct (JsMap.get _ _) as [r|] eqn:G; [|now apply Unchanged].
    destruct (negb _) eqn:E; [now apply Unchanged|].
    apply negb_false_iff, includes_iff in E.
    now apply Cancelled with rideId now r.
  - run_method. now apply Unchanged.
Qed.

(** ** The invariant of the rides *)

Lemma strict_eq_true a b : strict_eq a b = true <-> a = b.
Proof.
  destruct a, b; simpl; try (split; [discriminate | congruence]);
    try tauto.
  rewrite Z.eqb_eq. split; congruence.
Qed.

Lemma get_set_cases {V} (m : JsMap.t V) k k' v v' :
  JsMap.get k' (JsMap.set k v m) = Some v' ->
  (k' = k /\ v' = v) \/ (k' <> k /\ JsMap.get k' m = Some v').
Proof.
  destruct (Z.eq_dec k' k) as [->|Hne].
  - rewrite get_set_same. intros [= ->]. now left.
  - rewrite get_set_other by assumption. now right.
Qed.

Lemma find_none_get {V} (p : V -> bool) (m : JsMap.t V) k v :
  find p (JsMap.values m) = None -> JsMap.get k m = Some v -> p v = false.
Proof.
  intros F G. apply (find_none _ _ F). eapply get_In_values, G.
Qed.

Lemma unique_set {V} (p : V -> bool) (m : JsMap.t V) k v' :
  unique p m ->
  (p v' = true ->
   forall k0 v0, k0 <> k -> JsMap.get k0 m = Some v0 -> p v0 = false) ->
  unique p (JsMap.set k v' m).
Proof.
  intros U Hnew k1 k2 v1 v2 G1 G2 P1 P2.
  apply get_set_cases in G1, G2.
  destruct G1 as [[-> ->]|[N1 G1]], G2 as [[-> ->]|[N2 G2]].
  - reflexivity.
  - rewrite (Hnew P1 _ _ N2 G2) in P2. discriminate.
  - rewrite (Hnew P2 _ _ N1 G1) in P1. discriminate.
  - eapply U; eassumption.
Qed.

Lemma unique_replace {V} (p : V -> bool) (m : JsMap.t V) k v v' :
  unique p m -> JsMap.get k m = Some v -> (p v' = true -> p v = true) ->
  unique p (JsMap.set k v' m).
Proof.
  intros U G Himp. apply unique_set; [assumption|].
  intros P' k0 v0 N G0. destruct (p v0) eqn:P0; [|reflexivity].
  exfalso. apply N. eapply U; eauto.
Qed.

Lemma unique_guarded {V} (p : V -> bool) (m : JsMap.t V) k v' :
  unique p m -> (p v' = true -> find p (JsMap.values m) = None) ->
  unique p (JsMap.set k v' m).
Proof.
  intros U Hg. apply unique_set; [assumption|].
  intros P' k0 v0 _ G0. eapply find_none_get; eauto.
Qed.

Lemma unique_count {V} (p : V -> bool) (m : JsMap.t V) :
  NoDup (JsMap.keys m) -> unique p m ->
  (List.length (filter p (JsMap.values m)) <= 1)%nat.
Proof.
  induction m as [|[k v] m IH]; simpl; intros Hnd U; [lia|].
  inversion Hnd as [|? ? Hnin Hnd']; subst.
  assert (Um : unique p m).
  { intros k1 k2 v1 v2 G1 G2 P1 P2. apply (U k1 k2 v1 v2); simpl; trivial.
    - destruct (k =? k1) eqn:E; [|assumption].
      apply Z.eqb_eq in E. subst. apply get_In_keys in G1. tauto.
    - destruct (k =? k2) eqn:E; [|assumption].
      apply Z.eqb_eq in E. subst. apply get_In_keys in G2. tauto. }
  destruct (p v) eqn:Pv; [|now apply IH].
  assert (E : filter p (JsMap.values m) = []).
  { destruct (filter p (JsMap.values m)) as [|v0 l] eqn:F; [reflexivity|].
    exfalso.
    assert (Hin : In v0 (filter p (JsMap.values m))) by (rewrite F; now left).
    apply filter_In in Hin. destruct Hin as [Hin P0].
    destruct (In_values_get m v0 Hnd' Hin) as [k0 G0].
    assert (k = k0).
    { apply (U k k0 v v0); simpl; trivial.
      - now rewrite Z.eqb_refl.
      - destruct (k =? k0) eqn:E; [|assumption].
        apply Z.eqb_eq in E. subst. apply get_In_keys in G0. tauto. }
    subst. apply get_In_keys in G0. tauto. }
  rewrite E. simpl. lia.
Qed.

Lemma rides_ok_new now : rides_ok (new_MemStorage now).
Proof.
  split; simpl; try discriminate; try (intros ? ? ? ? ?; discriminate).
  constructor.
Qed.

Ltac ride_fields :=
  unfold passenger_active_ride, driver_active_ride, known_status,
    accepted_ride, cancelled_ride, started_ride, completed_ride,
    requested_ride; cbn.

Lemma rides_ok_exec c s : rides_ok s -> rides_ok (exec c s).
Proof.
  intros [Hnd Hlt Hid Hst Hp Hd].
  destruct (exec_rides_change c s)
    as [Em Ec | rd now F Em Ec | R D now r G St F Em Ec | R now r G St Em Ec
        | R now r G St Em Ec | R now r G St Em Ec | R now r G St Em Ec];
    split; rewrite ?Em, ?Ec; trivial;
    try (now apply NoDup_keys_set);
    try (intros R0 r0 G0; apply get_set_cases in G0;
         destruct G0 as [[-> ->]|[N0 G0]];
         [ first [ reflexivity | lia | (apply Hlt in G; lia)
                 | (apply Hid in G; exact G) ]
         | first [ (apply Hlt in G0; lia) | eauto ] ]).
  - (* created: passengers *)
    intros P. apply unique_guarded; [apply Hp|].
    ride_fields. rewrite andb_true_r. intros E.
    apply strict_eq_true in E. now subst.
  - (* created: drivers *)
    intros D. apply unique_guarded; [apply Hd|].
    ride_fields. rewrite andb_false_r. discriminate.
  - (* accepted: passengers *)
    intros P. eapply unique_replace; [apply Hp | exact G |].
    ride_fields. rewrite St. now cbn.
  - (* accepted: drivers *)
    intros D'. apply unique_guarded; [apply Hd|].
    ride_fields. rewrite andb_true_r, Z.eqb_eq. now intros ->.
  - intros P. eapply unique_replace; [apply Hp | exact G |].
    ride_fields. rewrite andb_false_r. discriminate.
  - intros D. eapply unique_replace; [apply Hd | exact G |].
    ride_fields. rewrite andb_false_r. discriminate.
  - intros P. eapply unique_replace; [apply Hp | exact G |].
    ride_fields. rewrite St. now cbn.
  - intros D. eapply unique_replace; [apply Hd | exact G |].
    ride_fields. rewrite St. now cbn.
  - intros P. eapply unique_replace; [apply Hp | exact G |].
    ride_fields. rewrite andb_false_r. discriminate.
  - intros D. eapply unique_replace; [apply Hd | exact G |].
    ride_fields. rewrite andb_false_r. discriminate.
  - intros P. eapply unique_replace; [apply Hp | exact G |].
    ride_fields. rewrite andb_false_r. discriminate.
  - intros D. eapply unique_replace; [apply Hd | exact G |].
    ride_fields. rewrite andb_false_r. discriminate.
Qed.

Lemma run_snoc cs c s : run (cs ++ [c]) s = exec c (run cs s).
Proof. unfold run. now rewrite fold_left_app. Qed.

Lemma run_app cs1 cs2 s : run (cs1 ++ cs2) s = run cs2 (run cs1 s).
Proof. unfold run. now rewrite fold_left_app. Qed.

Lemma rides_ok_run cs s : rides_ok s -> rides_ok (run cs s).
Proof.
  revert s. induction cs as [|c cs IH]; intros s H; [assumption|].
  apply IH. now apply rides_ok_exec.
Qed.

Lemma rides_ok_reachable s : reachable s -> rides_ok s.
Proof.
  intros (now & cs & ->). apply rides_ok_run, rides_ok_new.
Qed.

(** ** One active ride per participant *)

(** C1, as stated, fails: a user may request a ride as a passenger and
    accept another ride as a driver.  After [driver_rides_and_drives] user
    2 is the passenger of the requested ride 1 and the driver of the
    accepted ride 2, so two of the user's rides are in a non-terminal
    status. *)
Lemma one_active_ride_per_user_fails :
  reachable (run driver_rides_and_drives (new_MemStorage 0)) /\
  ~ (List.length
       (filter (user_active_ride 2)
          (rides (run driver_rides_and_drives (new_MemStorage 0)))) <= 1)%nat.
Proof.
  split.
  - now exists 0, driver_rides_and_drives.
  - vm_compute. lia.
Qed.

(** C1, amended: in every reachable store and for every user [U], at most
    one ride with [U] as passenger has a status among requested, accepted
    and in_progress, and at most one ride with [U] as driver has a status
    among accepted and in_progress. *)
Theorem one_active_ride_per_role :
  forall s U,
    reachable s ->
    (List.length (filter (passenger_active_ride (JsVal U)) (rides s)) <= 1)%nat
    /\
    (List.length (filter (driver_active_ride U) (rides s)) <= 1)%nat.
Proof.
  intros s U Hs. apply rides_ok_reachable in Hs.
  destruct Hs as [Hnd _ _ _ Hp Hd].
  split; apply unique_count; auto.
Qed.

(** The store after [driver_rides_and_drives]: user 2 has one active ride
    in each role. *)
Lemma one_active_ride_per_role_witness :
  reachable (run driver_rides_and_drives (new_MemStorage 0)) /\
  (List.length
     (filter (passenger_active_ride (JsVal 2%Z))
        (rides (run driver_rides_and_drives (new_MemStorage 0)))) <= 1)%nat /\
  (List.length
     (filter (driver_active_ride 2)
        (rides (run driver_rides_and_drives (new_MemStorage 0)))) <= 1)%nat.
Proof.
  assert (H : reachable (run driver_rides_and_drives (new_MemStorage 0))).
  { exists 0, driver_rides_and_drives. reflexivity. }
  split; [exact H|].
  exact (one_active_ride_per_role _ 2 H).
Defined.

(** ** Statuses and timestamps along the history of a ride *)

Lemma get_set_present {V} (m : JsMap.t V) k k' v v' :
  JsMap.get k' m = Some v' -> exists v'', JsMap.get k' (JsMap.set k v m) = Some v''.
Proof.
  intros G. destruct (Z.eq_dec k' k) as [->|N].
  - rewrite get_set_same. eauto.
  - rewrite get_set_other by assumption. eauto.
Qed.

Lemma present_exec c s R r :
  JsMap.get R (ridesMap s) = Some r ->
  exists r', JsMap.get R (ridesMap (exec c s)) = Some r'.
Proof.
  intros G.
  destruct (exec_rides_change c s)
    as [Em Ec | rd now F Em Ec | R0 D now r0 G0 St F Em Ec
        | R0 now r0 G0 St Em Ec | R0 now r0 G0 St Em Ec
        | R0 now r0 G0 St Em Ec | R0 now r0 G0 St Em Ec];
    rewrite Em; eauto using get_set_present.
Qed.

Lemma present_run cs s R r :
  JsMap.get R (ridesMap s) = Some r ->
  exists r', JsMap.get R (ridesMap (run cs s)) = Some r'.
Proof.
  revert s r. induction cs as [|c cs IH]; intros s r G; [eauto|].
  destruct (present_exec c s R r G) as [r' G']. exact (IH _ _ G').
Qed.

Lemma reached_present now0 cs R st :
  reached now0 cs R st ->
  exists r, JsMap.get R (ridesMap (run cs (new_MemStorage now0))) = Some r.
Proof.
  intros (cs1 & cs2 & r & -> & G & _). rewrite run_app.
  eapply present_run, G.
Qed.

Lemma reached_now now0 cs R r :
  JsMap.get R (ridesMap (run cs (new_MemStorage now0))) = Some r ->
  reached now0 cs R (Ride.status r).
Proof.
  intros G. exists cs, [], r. now rewrite app_nil_r.
Qed.

Lemma reached_snoc now0 cs c R r' st :
  JsMap.get R (ridesMap (run (cs ++ [c]) (new_MemStorage now0))) = Some r' ->
  reached now0 (cs ++ [c]) R st <->
  reached now0 cs R st \/ Ride.status r' = st.
Proof.
  intros G'. split.
  - intros (cs1 & cs2 & r & E & G & St).
    destruct cs2 as [|c2 cs2'].
    + rewrite app_nil_r in E. subst cs1. right. congruence.
    + destruct (@exists_last _ (c2 :: cs2')) as (l & a & El); [discriminate|].
      rewrite El, app_assoc in E. apply app_inj_tail in E.
      destruct E as [E _]. left. now exists cs1, l, r.
  - intros [(cs1 & cs2 & r & E & G & St) | St].
    + exists cs1, (cs2 ++ [c]), r. subst cs. now rewrite app_assoc.
    + exists (cs ++ [c]), [], r'. now rewrite app_nil_r.
Qed.

Lemma stamps_same (seen seen' : string -> Prop) r :
  (forall st, seen' st <-> seen st \/ Ride.status r = st) ->
  seen (Ride.status r) ->
  stamps seen r -> stamps seen' r.
Proof.
  intros E Hs (H1 & H2 & H3 & H4 & H5 & H6 & H7 & H8).
  assert (E' : forall st, seen' st <-> seen st).
  { intros st. rewrite E. split; [intros [?| <-]; assumption | tauto]. }
  unfold stamps. rewrite !E'. tauto.
Qed.

Ltac stamp_cases :=
  unfold stamps, is_set, is_nullish, accepted_ride, cancelled_ride,
    started_ride, completed_ride, requested_ride in *;
  cbn in *;
  intuition (try discriminate; try congruence; auto).

Lemma stamps_run now0 cs R r :
  JsMap.get R (ridesMap (run cs (new_MemStorage now0))) = Some r ->
  stamps (reached now0 cs R) r.
Proof.
  revert R r. induction cs as [|c cs IH] using rev_ind; intros R r G.
  - discriminate.
  - pose proof (reached_snoc now0 cs c R r "requested" G) as Q1.
    pose proof (reached_snoc now0 cs c R r "accepted" G) as Q2.
    pose proof (reached_snoc now0 cs c R r "in_progress" G) as Q3.
    pose proof (reached_snoc now0 cs c R r "completed" G) as Q4.
    pose proof (reached_snoc now0 cs c R r "cancelled" G) as Q5.
    assert (Same : forall r0,
      JsMap.get R (ridesMap (run cs (new_MemStorage now0))) = Some r0 ->
      r = r0 -> stamps (reached now0 (cs ++ [c]) R) r).
    { intros r0 G0 ->. apply stamps_same with (reached now0 cs R).
      - intros st. now apply reached_snoc.
      - now apply reached_now.
      - now apply IH. }
    rewrite run_snoc in G.
    set (s := run cs (new_MemStorage now0)) in *.
    assert (Hok : rides_ok s) by apply rides_ok_run, rides_ok_new.
    destruct (exec_rides_change c s)
      as [Em Ec | rd now F Em Ec | R0 D now r0 G0 St F Em Ec
          | R0 now r0 G0 St Em Ec | R0 now r0 G0 St Em Ec
          | R0 now r0 G0 St Em Ec | R0 now r0 G0 St Em Ec];
      rewrite Em in G;
      try (now apply Same with r);
      (apply get_set_cases in G; destruct G as [[-> ->]|[N G]];
       [|now apply Same with r]).
    + (* created *)
      assert (Fresh : forall st, ~ reached now0 cs (rideIdCounter s) st).
      { intros st H. apply reached_present in H. destruct H as [r1 G1].
        apply (keys_below_counter Hok) in G1. lia. }
      pose proof (Fresh "requested"). pose proof (Fresh "accepted").
      pose proof (Fresh "in_progress"). pose proof (Fresh "completed").
      pose proof (Fresh "cancelled"). stamp_cases.
    + pose proof (IH _ _ G0) as H0. pose proof (reached_now now0 cs R0 r0 G0) as Hn.
      rewrite St in Hn. stamp_cases.
    + pose proof (IH _ _ G0) as H0. pose proof (reached_now now0 cs R0 r0 G0) as Hn.
      rewrite St in Hn. stamp_cases.
    + pose proof (IH _ _ G0) as H0. pose proof (reached_now now0 cs R0 r0 G0) as Hn.
      rewrite St in Hn. stamp_cases.
    + pose proof (IH _ _ G0) as H0. pose proof (reached_now now0 cs R0 r0 G0) as Hn.
      rewrite St in Hn. stamp_cases.
    + pose proof (IH _ _ G0) as H0. pose proof (reached_now now0 cs R0 r0 G0) as Hn.
      stamp_cases.
Qed.

(** C2: a ride of a reachable store has one of the five statuses, and each
    of its timestamps is set exactly when the ride has had the
    corresponding status after some call of its history; so [acceptedAt]
    is set exactly when the ride has ever been accepted, in progress or
    completed. *)
Theorem status_and_timestamps_follow_history :
  forall now0 cs R r,
    JsMap.get R (ridesMap (run cs (new_MemStorage now0))) = Some r ->
    In (Ride.status r)
       ["requested"; "accepted"; "in_progress"; "completed"; "cancelled"] /\
    (is_set (Ride.requestedAt r) = true <-> reached now0 cs R "requested") /\
    (is_set (Ride.acceptedAt r) = true <-> reached now0 cs R "accepted") /\
    (is_set (Ride.startedAt r) = true <-> reached now0 cs R "in_progress") /\
    (is_set (Ride.completedAt r) = true <-> reached now0 cs R "completed") /\
    (is_set (Ride.cancelledAt r) = true <-> reached now0 cs R "cancelled") /\
    (is_set (Ride.acceptedAt r) = true <->
       reached now0 cs R "accepted" \/ reached now0 cs R "in_progress" \/
       reached now0 cs R "completed") /\
    (is_set (Ride.startedAt r) = true <->
       reached now0 cs R "in_progress" \/ reached now0 cs R "completed").
Proof.
  intros now0 cs R r G. split.
  - apply includes_iff.
    apply (status_known (rides_ok_run cs _ (rides_ok_new now0)) _ G).
  - destruct (stamps_run _ _ _ _ G) as (H1 & H2 & H3 & H4 & H5 & H6 & H7 & H8).
    tauto.
Qed.

(** The completed ride of [one_full_ride]: accepted on the way, never
    cancelled. *)
Lemma status_and_timestamps_follow_history_witness :
  exists r,
    JsMap.get 1 (ridesMap (run one_full_ride (new_MemStorage 0))) = Some r /\
    Ride.status r = "completed" /\
    (is_set (Ride.acceptedAt r) = true <->
     reached 0 one_full_ride 1 "accepted") /\
    (is_set (Ride.cancelledAt r) = true <->
     reached 0 one_full_ride 1 "cancelled").
Proof.
  eexists. split; [reflexivity|]. split; [reflexivity|].
  pose proof (status_and_timestamps_follow_history 0 one_full_ride 1 _
                eq_refl) as H.
  split; apply H.
Defined.

(** ** Accepting a ride *)

Lemma driver_active_ride_iff D r :
  driver_active_ride D r = true <->
  Ride.driverId r = JsVal D /\
  In (Ride.status r) ["accepted"; "in_progress"].
Proof.
  unfold driver_active_ride.
  now rewrite andb_true_iff, strict_eq_true, includes_iff.
Qed.

Lemma passenger_active_ride_iff P r :
  passenger_active_ride P r = true <->
  Ride.passengerId r = P /\
  In (Ride.status r) ["requested"; "accepted"; "in_progress"].
Proof.
  unfold passenger_active_ride.
  now rewrite andb_true_iff, strict_eq_true, includes_iff.
Qed.

Lemma find_none_iff {A} (p : A -> bool) (l : list A) :
  find p l = None <-> forall x, In x l -> p x = false.
Proof.
  split; [apply find_none|].
  intros H. destruct (find p l) as [x|] eqn:F; [|reflexivity].
  apply find_some in F. destruct F as [Hin Hp].
  rewrite (H _ Hin) in Hp. discriminate.
Qed.

Lemma not_requested_exec c s R r :
  rides_ok s ->
  JsMap.get R (ridesMap s) = Some r -> Ride.status r <> "requested" ->
  exists r', JsMap.get R (ridesMap (exec c s)) = Some r' /\
             Ride.status r' <> "requested".
Proof.
  intros Hok G Hst.
  destruct (exec_rides_change c s)
    as [Em Ec | rd now F Em Ec | R0 D now r0 G0 St F Em Ec
        | R0 now r0 G0 St Em Ec | R0 now r0 G0 St Em Ec
        | R0 now r0 G0 St Em Ec | R0 now r0 G0 St Em Ec];
    rewrite Em; eauto.
  - rewrite get_set_other; eauto.
    apply (keys_below_counter Hok) in G. lia.
  - destruct (Z.eq_dec R R0) as [->|N];
      [rewrite get_set_same | rewrite get_set_other by assumption]; eauto.
    eexists; split; [reflexivity | discriminate].
  - destruct (Z.eq_dec R R0) as [->|N];
      [rewrite get_set_same | rewrite get_set_other by assumption]; eauto.
    eexists; split; [reflexivity | discriminate].
  - destruct (Z.eq_dec R R0) as [->|N];
      [rewrite get_set_same | rewrite get_set_other by assumption]; eauto.
    eexists; split; [reflexivity | discriminate].
  - destruct (Z.eq_dec R R0) as [->|N];
      [rewrite get_set_same | rewrite get_set_other by assumption]; eauto.
    eexists; split; [reflexivity | discriminate].
  - destruct (Z.eq_dec R R0) as [->|N];
      [rewrite get_set_same | rewrite get_set_other by assumption]; eauto.
    eexists; split; [reflexivity | discriminate].
Qed.

Lemma not_requested_run cs s R r :
  rides_ok s ->
  JsMap.get R (ridesMap s) = Some r -> Ride.status r <> "requested" ->
  exists r', JsMap.get R (ridesMap (run cs s)) = Some r' /\
             Ride.status r' <> "requested".
Proof.
  revert s r. induction cs as [|c cs IH]; intros s r Hok G Hst; [eauto|].
  destruct (not_requested_exec c _ _ _ Hok G Hst) as (r' & G' & Hst').
  exact (IH _ _ (rides_ok_exec c _ Hok) G' Hst').
Qed.

Lemma acceptRide_not_requested R D now s r :
  JsMap.get R (ridesMap s) = Some r -> Ride.status r <> "requested" ->
  acceptRide R D now s = (Throw "Ride is not in requested status", s).
Proof.
  intros G Hst. rewrite acceptRide_eq, G.
  destruct (negb _) eqn:E; [reflexivity|].
  apply status_neq_false in E. contradiction.
Qed.

(** C3: [acceptRide(R, D)] returns exactly when the ride exists, is
    requested and no ride of the store has [D] as driver with status
    accepted or in_progress.  The ride it returns is the one then stored
    under [R], with [driverId = D], [status = accepted] and
    [acceptedAt = now].  After it has returned, accepting [R] again, at
    once or after any further calls on a reachable store, throws
    "Ride is not in requested status", an InvalidTransition. *)
Theorem acceptRide_contract :
  forall s R D now,
    ((exists r', fst (acceptRide R D now s) = Return r') <->
     (exists r,
         JsMap.get R (ridesMap s) = Some r /\
         Ride.status r = "requested" /\
         forall r0, In r0 (rides s) ->
           ~ (Ride.driverId r0 = JsVal D /\
              In (Ride.status r0) ["accepted"; "in_progress"]))) /\
    (forall r',
        fst (acceptRide R D now s) = Return r' ->
        JsMap.get R (ridesMap (snd (acceptRide R D now s))) = Some r' /\
        Ride.driverId r' = JsVal D /\
        Ride.status r' = "accepted" /\
        Ride.acceptedAt r' = JsVal now /\
        (forall D' now',
            acceptRide R D' now' (snd (acceptRide R D now s)) =
            (Throw "Ride is not in requested status",
             snd (acceptRide R D now s))) /\
        (reachable s ->
         forall cs D' now',
            acceptRide R D' now' (run cs (snd (acceptRide R D now s))) =
            (Throw "Ride is not in requested status",
             run cs (snd (acceptRide R D now s))))) /\
    failure_of "Ride is not in requested status" = Some InvalidTransition.
Proof.
  intros s R D now. rewrite acceptRide_eq. split; [|split; [|reflexivity]].
  - destruct (JsMap.get R (ridesMap s)) as [r|] eqn:G.
    + destruct (negb _) eqn:E.
      * split; [intros [r' H]; discriminate|].
        intros (r0 & [= <-] & St & _). apply status_neq_false in St.
        congruence.
      * apply status_neq_false in E.
        destruct (find _ _) eqn:F.
        -- split; [intros [r' H]; discriminate|].
           intros (r0 & _ & _ & H). apply find_some in F.
           destruct F as [Hin Hp]. apply driver_active_ride_iff in Hp.
           exfalso. eapply H; eauto.
        -- split; [|simpl; eauto]. intros _. exists r.
           split; [reflexivity|]. split; [assumption|].
           intros r0 Hin Hp. apply driver_active_ride_iff in Hp.
           rewrite (find_none _ _ F _ Hin) in Hp. discriminate.
    + split; [intros [r' H]; discriminate|].
      intros (r0 & H & _). discriminate.
  - intros r'. destruct (JsMap.get R (ridesMap s)) as [r|] eqn:G;
      [|discriminate].
    destruct (negb _) eqn:E; [discriminate|].
    destruct (find _ _) eqn:F; [discriminate|].
    cbn [fst snd]. intros [= <-].
    assert (G' : JsMap.get R
                   (ridesMap (assign_ridesMap
                      (JsMap.set R (accepted_ride r D now) (ridesMap s)) s))
                 = Some (accepted_ride r D now))
      by apply get_set_same.
    repeat split; trivial.
    + intros D' now'. eapply acceptRide_not_requested; [exact G'|].
      discriminate.
    + intros Hs cs D' now'.
      assert (Hok : rides_ok (exec (AcceptRide R D now) s))
        by apply rides_ok_exec, rides_ok_reachable, Hs.
      unfold exec, perform in Hok. rewrite snd_bind_ret in Hok.
      rewrite acceptRide_eq, G, E, F in Hok. cbn [snd] in Hok.
      destruct (not_requested_run cs _ R _ Hok G') as (r2 & G2 & St2);
        [discriminate|].
      eapply acceptRide_not_requested; eassumption.
Qed.

(** Driver 7 accepts the requested ride 1; driver 8 then cannot. *)
Lemma acceptRide_contract_witness :
  (exists r', fst (acceptRide 1 7 40 requested_store) = Return r') /\
  exists r',
    fst (acceptRide 1 7 40 requested_store) = Return r' /\
    Ride.driverId r' = JsVal 7 /\
    Ride.status r' = "accepted" /\
    Ride.acceptedAt r' = JsVal 40 /\
    acceptRide 1 8 50 (snd (acceptRide 1 7 40 requested_store)) =
    (Throw "Ride is not in requested status",
     snd (acceptRide 1 7 40 requested_store)).
Proof.
  destruct (acceptRide_contract requested_store 1 7 40) as (Hiff & Hok & _).
  split.
  - apply Hiff. eexists. split; [reflexivity|]. split; [reflexivity|].
    intros r0 [<-|[]] [_ [H|[H|[]]]]; discriminate.
  - eexists. split; [reflexivity|].
    destruct (Hok _ eq_refl) as (_ & Hd & Hs & Ha & H2 & _). auto.
Defined.

(** ** Failures and terminal rides *)

Lemma bind_ret_throw {A B} (m : M A) (f : A -> B) s msg s' :
  (v <- m ;; ret (f v)) s = (Throw msg, s') <-> m s = (Throw msg, s').
Proof.
  unfold bind, ret. destruct (m s) as [[a|e] s0]; split; congruence.
Qed.

Lemma bind_ret_return {A B} (m : M A) (f : A -> B) s b s' :
  (v <- m ;; ret (f v)) s = (Return b, s') <->
  exists a, m s = (Return a, s') /\ b = f a.
Proof.
  unfold bind, ret. destruct (m s) as [[a|e] s0]; split.
  - intros [= <- <-]. eauto.
  - intros (a' & [= <- <-] & ->). reflexivity.
  - discriminate.
  - intros (a' & [=] & _).
Qed.

Ltac thrown :=
  repeat match goal with
    | |- context [match ?x with _ => _ end] => destruct x eqn:?
    end;
  intros [= <- <-]; (split; [reflexivity | vm_compute; eauto 6]).

(** C5: a call that throws leaves the store as it was, and what it throws
    is one of the failures that the interface declares for it.  This holds
    for [createRide], [acceptRide], [declineRide], [markDriverArrived],
    [startRide], [completeRide] and [cancelRide], and for the other calls
    as well. *)
Theorem failed_call_changes_nothing :
  forall c s msg s',
    perform c s = (Throw msg, s') ->
    s' = s /\
    exists k, failure_of msg = Some k /\ In k (declared_failures c).
Proof.
  intros c s msg s' H. destruct c; unfold perform in H;
    apply bind_ret_throw in H; revert H.
  - destruct (createUser_eq userData now s) as (u & _ & _ & ->). discriminate.
  - destruct (updateUser_cases id userData s) as [->|(u & ->)];
      [thrown | discriminate].
  - unfold updateUserStatus.
    match goal with
    | |- updateUser ?i ?d s = _ -> _ =>
        destruct (updateUser_cases i d s) as [->|(u & ->)];
        [thrown | discriminate]
    end.
  - run_method. discriminate.
  - destruct (updateVehicle_cases id vehicleData s) as [->|(u & ->)];
      [thrown | discriminate].
  - rewrite createRide_eq. destruct (find _ _); [thrown | discriminate].
  - rewrite acceptRide_eq.
    destruct (JsMap.get _ _); [|thrown].
    destruct (negb _); [thrown|].
    destruct (find _ _); [thrown | discriminate].
  - rewrite declineRide_eq.
    destruct (JsMap.get _ _); [|thrown].
    destruct (negb _); [thrown | discriminate].
  - rewrite markDriverArrived_eq.
    destruct (JsMap.get _ _); [|thrown].
    destruct (negb _); [thrown | discriminate].
  - rewrite startRide_eq.
    destruct (JsMap.get _ _); [|thrown].
    destruct (negb _); [thrown | discriminate].
  - rewrite completeRide_eq.
    destruct (JsMap.get _ _); [|thrown].
    destruct (negb _); [thrown | discriminate].
  - rewrite cancelRide_eq.
    destruct (JsMap.get _ _); [|thrown].
    destruct (negb _); [thrown | discriminate].
  - run_method. discriminate.
Qed.

(** Passenger 1 requests a second ride while the first is still requested. *)
Lemma failed_call_changes_nothing_witness :
  perform (CreateRide (ride_request (JsVal 1) JsUndefined) 70)
    requested_store =
  (Throw "Passenger already has an active ride", requested_store) /\
  requested_store = requested_store /\
  exists k,
    failure_of "Passenger already has an active ride" = Some k /\
    In k [AlreadyActive].
Proof.
  split; [reflexivity|].
  exact (failed_call_changes_nothing
           (CreateRide (ride_request (JsVal 1) JsUndefined) 70)
           requested_store "Passenger already has an active ride"
           requested_store eq_refl).
Defined.

Lemma terminal_exec c s R r :
  rides_ok s ->
  JsMap.get R (ridesMap s) = Some r -> terminal (Ride.status r) ->
  JsMap.get R (ridesMap (exec c s)) = Some r.
Proof.
  intros Hok G T.
  destruct (exec_rides_change c s)
    as [Em Ec | rd now F Em Ec | R0 D now r0 G0 St F Em Ec
        | R0 now r0 G0 St Em Ec | R0 now r0 G0 St Em Ec
        | R0 now r0 G0 St Em Ec | R0 now r0 G0 St Em Ec];
    rewrite Em; trivial.
  - rewrite get_set_other; trivial.
    apply (keys_below_counter Hok) in G. lia.
  - destruct (Z.eq_dec R R0) as [->|N]; [|now rewrite get_set_other].
    rewrite G in G0. injection G0 as <-. destruct T as [T|T];
      rewrite T in St; discriminate.
  - destruct (Z.eq_dec R R0) as [->|N]; [|now rewrite get_set_other].
    rewrite G in G0. injection G0 as <-. destruct T as [T|T];
      rewrite T in St; discriminate.
  - destruct (Z.eq_dec R R0) as [->|N]; [|now rewrite get_set_other].
    rewrite G in G0. injection G0 as <-. destruct T as [T|T];
      rewrite T in St; discriminate.
  - destruct (Z.eq_dec R R0) as [->|N]; [|now rewrite get_set_other].
    rewrite G in G0. injection G0 as <-. destruct T as [T|T];
      rewrite T in St; discriminate.
  - destruct (Z.eq_dec R R0) as [->|N]; [|now rewrite get_set_other].
    rewrite G in G0. injection G0 as <-. destruct T as [T|T];
      rewrite T in St; simpl in St; intuition discriminate.
Qed.

Lemma terminal_run cs s R r :
  rides_ok s ->
  JsMap.get R (ridesMap s) = Some r -> terminal (Ride.status r) ->
  JsMap.get R (ridesMap (run cs s)) = Some r.
Proof.
  revert s. induction cs as [|c cs IH]; intros s Hok G T; [assumption|].
  apply IH; [now apply rides_ok_exec | now apply terminal_exec | assumption].
Qed.

(** C4: a ride of a reachable store whose status is completed or cancelled
    is final.  Every transition call on it ([acceptRide], [declineRide],
    [markDriverArrived], [startRide], [completeRide], [cancelRide]) throws
    an InvalidTransition and leaves the store as it was, and after any
    further calls the store still holds the same ride, so with the same
    status. *)
Theorem terminal_ride_is_final :
  forall s R r,
    reachable s ->
    JsMap.get R (ridesMap s) = Some r ->
    terminal (Ride.status r) ->
    (forall c,
        transition_target c = Some R ->
        exists msg,
          perform c s = (Throw msg, s) /\
          failure_of msg = Some InvalidTransition) /\
    (forall cs, JsMap.get R (ridesMap (run cs s)) = Some r).
Proof.
  intros s R r Hs G T. split.
  - intros c Hc.
    assert (N1 : negb (String.eqb (Ride.status r) "requested") = true)
      by (destruct T as [-> | ->]; reflexivity).
    assert (N2 : negb (String.eqb (Ride.status r) "accepted") = true)
      by (destruct T as [-> | ->]; reflexivity).
    assert (N3 : negb (String.eqb (Ride.status r) "in_progress") = true)
      by (destruct T as [-> | ->]; reflexivity).
    assert (N4 : negb (includes ["requested"; "accepted"; "in_progress"]
                         (Ride.status r)) = true)
      by (destruct T as [-> | ->]; reflexivity).
    destruct c; try discriminate; injection Hc as ->;
      eexists; unfold perform; rewrite bind_ret_throw;
      rewrite ?acceptRide_eq, ?declineRide_eq, ?markDriverArrived_eq,
        ?startRide_eq, ?completeRide_eq, ?cancelRide_eq, G,
        ?N1, ?N2, ?N3, ?N4; split; reflexivity.
  - intros cs. apply terminal_run; trivial. now apply rides_ok_reachable.
Qed.

(** The completed ride of [one_full_ride] can be neither cancelled nor
    accepted again. *)
Lemma terminal_ride_is_final_witness :
  exists r,
    reachable completed_store /\
    JsMap.get 1 (ridesMap completed_store) = Some r /\
    terminal (Ride.status r) /\
    (exists msg,
        perform (CancelRide 1 70) completed_store =
        (Throw msg, completed_store) /\
        failure_of msg = Some InvalidTransition) /\
    JsMap.get 1 (ridesMap (run [CancelRide 1 70; AcceptRide 1 9 80]
                             completed_store)) = Some r.
Proof.
  eexists.
  assert (Hs : reachable completed_store)
    by (exists 0, one_full_ride; reflexivity).
  split; [exact Hs|]. split; [reflexivity|]. split; [left; reflexivity|].
  destruct (terminal_ride_is_final completed_store 1 _ Hs eq_refl
              (or_introl eq_refl)) as [Hfail Hlater].
  split; [exact (Hfail (CancelRide 1 70) eq_refl) | apply Hlater].
Defined.

(** ** The arrival notification *)

(** C6: [markDriverArrived(R)] never changes the store.  It throws
    "Ride not found" (NotFound) when [R] is absent and
    "Ride is not in accepted status" (InvalidTransition) when the ride is
    not accepted; when the ride is accepted it returns the stored ride
    itself, with every field as it was. *)
Theorem markDriverArrived_changes_nothing :
  forall s R,
    snd (markDriverArrived R s) = s /\
    fst (markDriverArrived R s) =
      match JsMap.get R (ridesMap s) with
      | None => Throw "Ride not found"
      | Some ride =>
          if String.eqb (Ride.status ride) "accepted"
          then Return ride
          else Throw "Ride is not in accepted status"
      end /\
    failure_of "Ride not found" = Some NotFound /\
    failure_of "Ride is not in accepted status" = Some InvalidTransition.
Proof.
  intros s R. rewrite markDriverArrived_eq.
  destruct (JsMap.get R (ridesMap s)) as [r|]; [|now repeat split].
  destruct (String.eqb (Ride.status r) "accepted"); now repeat split.
Qed.

(** ** What a transition leaves alone *)

Lemma only_ride_changed_set R r' s :
  only_ride_changed R s (assign_ridesMap (JsMap.set R r' (ridesMap s)) s).
Proof.
  split; [|now repeat split].
  intros R' N. cbn. now apply get_set_other.
Qed.

Lemma only_ride_changed_refl R s : only_ride_changed R s s.
Proof. now repeat split. Qed.

Ltac framed r :=
  intros [= <- <-]; exists r; split; [reflexivity|];
  split; [first [apply get_set_same | assumption]|];
  split; [now repeat split|];
  split; [now repeat split|];
  split; [now repeat split|];
  first [apply only_ride_changed_set | apply only_ride_changed_refl].

(** C9: a transition call that returns a ride [r'] found a ride [r] under
    its identifier and stored [r'] in its place.  [r'] differs from [r]
    at most in the status, in the timestamp of the transition and, for
    [acceptRide], in the driver: the identifier, the passenger, the
    addresses and coordinates, distance, duration, fare, vehicle type,
    payment method, the requested time and the other timestamps are those
    of [r].  The other rides and the rest of the store are unchanged. *)
Theorem transition_frame :
  forall c R s r' s',
    transition_target c = Some R ->
    perform c s = (Return (RideValue r'), s') ->
    exists r,
      JsMap.get R (ridesMap s) = Some r /\
      JsMap.get R (ridesMap s') = Some r' /\
      same_request r r' /\
      untouched_by c r r' /\
      written_by c r' /\
      only_ride_changed R s s'.
Proof.
  intros c R s r' s' Hc H.
  destruct c; try discriminate; injection Hc as ->;
    unfold perform in H; apply bind_ret_return in H;
    destruct H as (a & H & [= <-]); revert H.
  - rewrite acceptRide_eq.
    destruct (JsMap.get _ _) as [r|] eqn:G; [|discriminate].
    destruct (negb _); [discriminate|].
    destruct (find _ _); [discriminate|]. framed r.
  - rewrite declineRide_eq.
    destruct (JsMap.get _ _) as [r|] eqn:G; [|discriminate].
    destruct (negb _); [discriminate|]. framed r.
  - rewrite markDriverArrived_eq.
    destruct (JsMap.get _ _) as [r|] eqn:G; [|discriminate].
    destruct (negb _); [discriminate|]. framed r.
  - rewrite startRide_eq.
    destruct (JsMap.get _ _) as [r|] eqn:G; [|discriminate].
    destruct (negb _); [discriminate|]. framed r.
  - rewrite completeRide_eq.
    destruct (JsMap.get _ _) as [r|] eqn:G; [|discriminate].
    destruct (negb _); [discriminate|]. framed r.
  - rewrite cancelRide_eq.
    destruct (JsMap.get _ _) as [r|] eqn:G; [|discriminate].
    destruct (negb _); [discriminate|]. framed r.
Qed.

(** Accepting the requested ride 1 of [requested_store]. *)
Lemma transition_frame_witness :
  exists r r' s',
    perform (AcceptRide 1 7 40) requested_store = (Return (RideValue r'), s')
    /\
    JsMap.get 1 (ridesMap requested_store) = Some r /\
    JsMap.get 1 (ridesMap s') = Some r' /\
    same_request r r' /\
    untouched_by (AcceptRide 1 7 40) r r' /\
    written_by (AcceptRide 1 7 40) r' /\
    only_ride_changed 1 requested_store s'.
Proof.
  destruct (transition_frame (AcceptRide 1 7 40) 1 requested_store _ _
              eq_refl eq_refl) as (r & G & H).
  exists r. do 2 eexists. split; [reflexivity|]. split; assumption.
Defined.

(** ** Creating a ride and reading it back *)

(** C7, as stated, fails: the ride data may name a driver, and
    [createRide] stores it.  On a new store, the request of passenger 1
    with [driverId = 7] is stored as a requested ride whose driver is 7. *)
Lemma roundtrip_as_stated_fails :
  ~ roundtrip_as_stated (new_MemStorage 0)
      (ride_request (JsVal 1) (JsVal 7)) 30 1.
Proof.
  intros H.
  destruct (H eq_refl) as (ride & s' & Hc & ride' & Hg & _ & _ & Hn).
  - intros r0 [].
  - vm_compute in Hc. injection Hc as <- <-.
    vm_compute in Hg. injection Hg as <-.
    discriminate Hn.
Qed.

(** C7, amended: when passenger [P] has no ride with status requested,
    accepted or in_progress, [createRide] with [passengerId = P] returns a
    ride, and [getRide] of its identifier then returns that ride, with
    status requested, passenger [P] and the [driverId] of the ride data;
    the driver is absent when the ride data names none. *)
Theorem createRide_getRide_roundtrip :
  forall s rideData now P,
    InsertRide.passengerId rideData = JsVal P ->
    (forall r0, In r0 (rides s) ->
       ~ (Ride.passengerId r0 = JsVal P /\
          In (Ride.status r0) ["requested"; "accepted"; "in_progress"])) ->
    exists ride s',
      createRide rideData now s = (Return ride, s') /\
      getRide (Ride.id ride) s' = (Return (Some ride), s') /\
      Ride.status ride = "requested" /\
      Ride.passengerId ride = JsVal P /\
      Ride.driverId ride = InsertRide.driverId rideData /\
      (is_nullish (InsertRide.driverId rideData) = true ->
       is_nullish (Ride.driverId ride) = true).
Proof.
  intros s rideData now P HP Hfree. rewrite createRide_eq.
  assert (F : find (passenger_active_ride (InsertRide.passengerId rideData))
                (rides s) = None).
  { apply find_none_iff. intros r0 Hin.
    destruct (passenger_active_ride _ r0) eqn:E; [|reflexivity].
    apply passenger_active_ride_iff in E. rewrite HP in E.
    exfalso. eapply Hfree; eauto. }
  rewrite F. do 2 eexists. split; [reflexivity|].
  split; [|now repeat split].
  unfold getRide, read. cbn. now rewrite get_set_same.
Qed.

(** The first request of passenger 1, naming no driver, on a new store. *)
Lemma createRide_getRide_roundtrip_witness :
  exists ride s',
    createRide (ride_request (JsVal 1) JsUndefined) 30 (new_MemStorage 0) =
    (Return ride, s') /\
    getRide (Ride.id ride) s' = (Return (Some ride), s') /\
    Ride.status ride = "requested" /\
    Ride.passengerId ride = JsVal 1 /\
    is_nullish (Ride.driverId ride) = true.
Proof.
  destruct (createRide_getRide_roundtrip (new_MemStorage 0)
              (ride_request (JsVal 1) JsUndefined) 30 1 eq_refl)
    as (ride & s' & Hc & Hg & Hs & Hp & Hd & Hn).
  - intros r0 [].
  - exists ride, s'. repeat split; trivial. apply Hn. reflexivity.
Defined.

(** ** The ride history of a user *)

Section SortFacts.
Context {A : Type}.
Variable key : A -> Z.
Variable cmp : A -> A -> Z.

(** The comparator orders by descending key, as [most_recent_first] does. *)
Hypothesis cmp_key : forall a b, cmp a b = key b - key a.

Lemma sort_insert_perm x l : Permutation (sort_insert cmp x l) (x :: l).
Proof.
  induction l as [|y l IH]; simpl; [reflexivity|].
  destruct (0 <? cmp x y); [|reflexivity].
  rewrite IH. apply perm_swap.
Qed.

Lemma js_sort_perm l : Permutation (js_sort cmp l) l.
Proof.
  induction l as [|x l IH]; simpl; [reflexivity|].
  rewrite sort_insert_perm. now constructor.
Qed.

Lemma sort_insert_sorted x l :
  StronglySorted (fun a b => key b <= key a) l ->
  StronglySorted (fun a b => key b <= key a) (sort_insert cmp x l).
Proof.
  induction 1 as [|y l Hs IH Hy]; simpl.
  - repeat constructor.
  - destruct (0 <? cmp x y) eqn:E; rewrite cmp_key in E.
    + apply Z.ltb_lt in E. constructor; [assumption|].
      apply (Permutation_Forall (Permutation_sym (sort_insert_perm x l))).
      constructor; [lia | assumption].
    + apply Z.ltb_ge in E. constructor; [now constructor|].
      constructor; [lia|].
      eapply Forall_impl; [|exact Hy].
      intros z Hz. cbn beta in *. lia.
Qed.

Lemma js_sort_sorted l :
  StronglySorted (fun a b => key b <= key a) (js_sort cmp l).
Proof.
  induction l as [|x l IH]; simpl; [constructor|].
  now apply sort_insert_sorted.
Qed.

(** Stability: a list that is already in order is returned as it is. *)
Lemma js_sort_sorted_id l :
  StronglySorted (fun a b => key b <= key a) l -> js_sort cmp l = l.
Proof.
  induction 1 as [|x l Hs IH Hx]; simpl; [reflexivity|].
  rewrite IH. destruct l as [|y l]; [reflexivity|]. simpl.
  inversion Hx as [|? ? Hxy _]; subst.
  rewrite cmp_key. destruct (0 <? key y - key x) eqn:E; [|reflexivity].
  apply Z.ltb_lt in E. lia.
Qed.
End SortFacts.

Lemma slice0_firstn {A} (l : list A) (e : Z) :
  0 <= e -> slice0 l e = firstn (Z.to_nat e) l.
Proof.
  intros He. unfold slice0.
  destruct (e <? 0) eqn:E; [apply Z.ltb_lt in E; lia|].
  destruct (Z.le_gt_cases e (Z.of_nat (List.length l))) as [Hle|Hgt].
  - now rewrite Z.min_l.
  - rewrite Z.min_r by lia. rewrite Nat2Z.id.
    rewrite firstn_all. symmetry. apply firstn_all2. lia.
Qed.

Lemma user_ride_iff U r :
  user_ride U r = true <->
  Ride.passengerId r = JsVal U \/ Ride.driverId r = JsVal U.
Proof.
  unfold user_ride. now rewrite orb_true_iff, !strict_eq_true.
Qed.

Lemma getTime_or_0_value (date : JsOpt Z) :
  getTime_or_0 date = match date with JsVal t => t | _ => 0 end.
Proof.
  destruct date as [| |t]; try reflexivity. simpl.
  destruct (t =? 0) eqn:E; [|reflexivity]. apply Z.eqb_eq in E. now subst.
Qed.

Lemma most_recent_first_times a b :
  most_recent_first a b = requested_time b - requested_time a.
Proof.
  unfold most_recent_first, requested_time. cbv zeta.
  now rewrite !getTime_or_0_value.
Qed.

Lemma slice0_negative {A} (l : list A) (e : Z) :
  e < 0 -> slice0 l e = firstn (List.length l - Z.to_nat (- e)) l.
Proof.
  intros He. unfold slice0.
  destruct (e <? 0) eqn:E; [|apply Z.ltb_ge in E; lia].
  f_equal. lia.
Qed.

(** C8, as stated, fails for a negative limit.  In [three_rides_store]
    user 2 has the rides 1, 2 and 3, requested at 50, 30 and 40; with
    limit -1, [getUserRides] returns the rides 1 and 3, which are not
    the first -1 rides of any list. *)
Lemma history_as_stated_fails :
  reachable three_rides_store /\
  (exists result,
      getUserRides 2 (Some (-1)) three_rides_store =
        (Return result, three_rides_store) /\
      map Ride.id result = [1; 3]) /\
  ~ history_as_stated three_rides_store 2 (Some (-1)).
Proof.
  split; [eexists 0, _; reflexivity|]. split.
  - eexists. split; [vm_compute; reflexivity | reflexivity].
  - intros (sorted & H & _). vm_compute in H. discriminate H.
Qed.

(** C8, amended: [getUserRides(U, L)] leaves the store as it is.  The
    rides of the store with [U] as passenger or driver, each as often as
    the store holds it, in descending order of their requested time
    (taken as 0 for a ride without one), make up a list of which the
    result is the first [L] elements when [L], 10 if the argument is
    left out, is not negative.  When [L] is negative the result is that
    list without its last [-L] elements. *)
Theorem getUserRides_history :
  forall s U,
    exists sorted,
      Permutation sorted (filter (user_ride U) (rides s)) /\
      (forall ride,
          In ride sorted <->
          In ride (rides s) /\
          (Ride.passengerId ride = JsVal U \/ Ride.driverId ride = JsVal U))
      /\
      StronglySorted requested_not_before sorted /\
      forall limit,
        (0 <= limit_or_default limit ->
         getUserRides U limit s =
           (Return (firstn (Z.to_nat (limit_or_default limit)) sorted), s)) /\
        (limit_or_default limit < 0 ->
         getUserRides U limit s =
           (Return
              (firstn (List.length sorted
                       - Z.to_nat (- limit_or_default limit)) sorted), s)).
Proof.
  intros s U.
  exists (js_sort most_recent_first (filter (user_ride U) (rides s))).
  pose proof (js_sort_perm most_recent_first
                (filter (user_ride U) (rides s))) as HP.
  split; [exact HP|]. split; [|split].
  - intros ride. rewrite <- user_ride_iff, <- filter_In.
    split; apply Permutation_in; [exact HP | now apply Permutation_sym].
  - apply (js_sort_sorted requested_time most_recent_first).
    apply most_recent_first_times.
  - intros limit. unfold getUserRides, read, limit_or_default. split.
    + intros Hl. f_equal. f_equal. now apply slice0_firstn.
    + intros Hl. f_equal. f_equal. now apply slice0_negative.
Qed.

(** The three rides of user 2 in [three_rides_store] come back as 1, 3,
    2, by their requested times 50, 40, 30; with limit 2 the rides 1 and
    3, and with limit -1 all but the last. *)
Lemma getUserRides_history_witness :
  exists sorted,
    map Ride.id sorted = [1; 3; 2] /\
    map Ride.requestedAt sorted = [JsVal 50; JsVal 40; JsVal 30] /\
    getUserRides 2 None three_rides_store =
      (Return sorted, three_rides_store) /\
    getUserRides 2 (Some 2) three_rides_store =
      (Return (firstn 2 sorted), three_rides_store) /\
    getUserRides 2 (Some (-1)) three_rides_store =
      (Return (firstn 2 sorted), three_rides_store).
Proof.
  destruct (getUserRides_history three_rides_store 2)
    as (sorted & Hp & _ & _ & Hl).
  assert (Hn : List.length sorted = 3%nat).
  { rewrite (Permutation_length Hp). vm_compute. reflexivity. }
  destruct (Hl None) as [H10 _].
  destruct (Hl (Some 2)) as [H2 _].
  destruct (Hl (Some (-1))) as [_ Hm].
  specialize (H10 ltac:(simpl; lia)).
  specialize (H2 ltac:(simpl; lia)).
  specialize (Hm ltac:(simpl; lia)).
  cbn [limit_or_default] in H10, H2, Hm.
  rewrite firstn_all2 in H10 by (rewrite Hn; simpl; lia).
  rewrite Hn in Hm.
  assert (E : exists l,
            getUserRides 2 None three_rides_store =
              (Return l, three_rides_store) /\
            map Ride.id l = [1; 3; 2] /\
            map Ride.requestedAt l = [JsVal 50; JsVal 40; JsVal 30])
    by (eexists; split; [vm_compute; reflexivity | split; reflexivity]).
  destruct E as (l & El & Hid & Ht).
  rewrite El in H10. injection H10 as ->.
  exists sorted. repeat split; assumption.
Defined.

(** ** The seeded user and the user identifiers *)

Lemma userIdCounter_exec c s :
  userIdCounter (exec c s) = userIdCounter s + user_creations [c].
Proof.
  destruct c; unfold exec, perform; rewrite snd_bind_ret; cbn [user_creations].
  - destruct (createUser_eq userData now s) as (u & _ & _ & ->). cbn. lia.
  - destruct (updateUser_cases id userData s) as [->|(u & ->)]; cbn; lia.
  - unfold updateUserStatus.
    match goal with
    | |- context [updateUser ?i ?d s] =>
        destruct (updateUser_cases i d s) as [->|(u & ->)]; cbn; lia
    end.
  - run_method. cbn. lia.
  - destruct (updateVehicle_cases id vehicleData s) as [->|(u & ->)];
      cbn; lia.
  - rewrite createRide_eq. destruct (find _ _); cbn; lia.
  - rewrite acceptRide_eq. destruct (JsMap.get _ _); [|cbn; lia].
    destruct (negb _); [cbn; lia|]. destruct (find _ _); cbn; lia.
  - rewrite declineRide_eq. destruct (JsMap.get _ _); [|cbn; lia].
    destruct (negb _); cbn; lia.
  - rewrite markDriverArrived_eq. destruct (JsMap.get _ _); [|cbn; lia].
    destruct (negb _); cbn; lia.
  - rewrite startRide_eq. destruct (JsMap.get _ _); [|cbn; lia].
    destruct (negb _); cbn; lia.
  - rewrite completeRide_eq. destruct (JsMap.get _ _); [|cbn; lia].
    destruct (negb _); cbn; lia.
  - rewrite cancelRide_eq. destruct (JsMap.get _ _); [|cbn; lia].
    destruct (negb _); cbn; lia.
  - run_method. cbn. lia.
Qed.

Lemma userIdCounter_run cs s :
  userIdCounter (run cs s) = userIdCounter s + user_creations cs.
Proof.
  revert s. induction cs as [|c cs IH]; intros s; [cbn; lia|].
  change (run (c :: cs) s) with (run cs (exec c s)).
  rewrite IH, userIdCounter_exec.
  change (c :: cs) with ([c] ++ cs).
  assert (E : forall a b, user_creations (a ++ b)
                          = user_creations a + user_creations b).
  { induction a as [|x a IHa]; intros b; [reflexivity|].
    destruct x; cbn [app user_creations]; rewrite IHa; lia. }
  rewrite E. lia.
Qed.

(** C10: a new store is not empty.  It holds the user "test" under
    identifier 1, which [getUserByUsername("test")] returns.  The user
    that [createUser] returns after any calls [cs] on a new store has
    identifier 2 plus the number of [createUser] calls in [cs]: 2 for the
    first user created after the constructor, and one more for each
    creation. *)
Theorem seeded_user_and_next_ids :
  forall now,
    (exists user,
        getUserByUsername "test" (new_MemStorage now) =
          (Return (Some user), new_MemStorage now) /\
        User.id user = 1 /\
        User.username user = "test" /\
        JsMap.get 1 (usersMap (new_MemStorage now)) = Some user) /\
    (forall cs userData now', exists user s',
        createUser userData now' (run cs (new_MemStorage now)) =
          (Return user, s') /\
        User.id user = 2 + user_creations cs /\
        userIdCounter s' = User.id user + 1 /\
        JsMap.get (User.id user) (usersMap s') = Some user).
Proof.
  intros now. split.
  - eexists. repeat split.
  - intros cs userData now'.
    destruct (createUser_eq userData now' (run cs (new_MemStorage now)))
      as (u & Hid & _ & ->).
    exists u. eexists. split; [reflexivity|].
    rewrite Hid, userIdCounter_run. cbn.
    repeat split; try lia. apply get_set_same.
Qed.

(** * The rest of the store *)

(** ** More on maps *)

Lemma keys_set_present {V} (m : JsMap.t V) k v v0 :
  JsMap.get k m = Some v0 -> JsMap.keys (JsMap.set k v m) = JsMap.keys m.
Proof.
  induction m as [|[k' v'] m IH]; simpl; [discriminate|].
  destruct (k' =? k) eqn:E; simpl; intros H.
  - apply Z.eqb_eq in E. now subst.
  - now rewrite IH.
Qed.

Lemma set_absent {V} (m : JsMap.t V) k v :
  ~ In k (JsMap.keys m) -> JsMap.set k v m = m ++ [(k, v)].
Proof.
  induction m as [|[k' v'] m IH]; simpl; intros H; [reflexivity|].
  destruct (k' =? k) eqn:E.
  - apply Z.eqb_eq in E. tauto.
  - rewrite IH; tauto.
Qed.

Lemma set_set_same {V} (m : JsMap.t V) k v v' :
  JsMap.set k v (JsMap.set k v' m) = JsMap.set k v m.
Proof.
  induction m as [|[k0 v0] m IH]; simpl.
  - now rewrite Z.eqb_refl.
  - destruct (k0 =? k) eqn:E; simpl.
    + now rewrite Z.eqb_refl.
    + now rewrite E, IH.
Qed.

Lemma In_values_set {V} (m : JsMap.t V) k v x :
  In x (JsMap.values (JsMap.set k v m)) -> x = v \/ In x (JsMap.values m).
Proof.
  induction m as [|[k0 v0] m IH]; simpl.
  - intros [<-|[]]. now left.
  - destruct (k0 =? k); simpl.
    + intros [<-|H]; auto.
    + intros [<-|H]; auto. destruct (IH H); auto.
Qed.

Lemma find_app_last {A} (p : A -> bool) (l : list A) (x : A) :
  find p (l ++ [x]) =
  match find p l with
  | Some y => Some y
  | None => if p x then Some x else None
  end.
Proof.
  induction l as [|y l IH]; simpl; [reflexivity|].
  now destruct (p y).
Qed.

Lemma values_app {V} (m1 m2 : JsMap.t V) :
  JsMap.values (m1 ++ m2) = JsMap.values m1 ++ JsMap.values m2.
Proof. apply map_app. Qed.

Lemma In_ids_upto counter k :
  In k (ids_upto counter) <-> 1 <= k < counter.
Proof.
  unfold ids_upto. rewrite in_map_iff. split.
  - intros (n & <- & Hn). apply in_seq in Hn. lia.
  - intros Hk. exists (Z.to_nat k). split; [lia|]. apply in_seq. lia.
Qed.

Lemma ids_upto_succ counter :
  1 <= counter -> ids_upto (counter + 1) = ids_upto counter ++ [counter].
Proof.
  intros H. unfold ids_upto.
  replace (Z.to_nat (counter + 1 - 1)) with (S (Z.to_nat (counter - 1)))
    by lia.
  rewrite seq_S, map_app. simpl. f_equal. f_equal. lia.
Qed.

Lemma consecutive_fresh {V} (m : JsMap.t V) counter :
  consecutive m counter -> ~ In counter (JsMap.keys m).
Proof.
  intros [H1 H2]. rewrite H2, In_ids_upto. lia.
Qed.

Lemma consecutive_add {V} (m : JsMap.t V) counter v :
  consecutive m counter ->
  consecutive (JsMap.set counter v m) (counter + 1).
Proof.
  intros H. pose proof (consecutive_fresh _ _ H) as F.
  destruct H as [H1 H2]. split; [lia|].
  rewrite set_absent by assumption.
  unfold JsMap.keys in *. rewrite map_app, H2. simpl.
  now rewrite ids_upto_succ.
Qed.

Lemma consecutive_replace {V} (m : JsMap.t V) counter k v v0 :
  JsMap.get k m = Some v0 ->
  consecutive m counter -> consecutive (JsMap.set k v m) counter.
Proof.
  intros G [H1 H2]. split; [assumption|].
  now rewrite (keys_set_present _ _ _ _ G).
Qed.

Lemma consecutive_get {V} (m : JsMap.t V) counter k :
  consecutive m counter ->
  (exists v, JsMap.get k m = Some v) <-> 1 <= k < counter.
Proof.
  intros [H1 H2]. rewrite <- In_ids_upto, <- H2. split.
  - intros [v G]. eapply get_In_keys, G.
  - apply In_keys_get.
Qed.

(** ** Every call changes the store in one of eight ways *)

Lemma updateUser_found id userData s u0 :
  JsMap.get id (usersMap s) = Some u0 ->
  exists u,
    updateUser id userData s =
      (Return u, assign_usersMap (JsMap.set id u (usersMap s)) s) /\
    User.id u = spread (PartialUser.id userData) (User.id u0) /\
    User.username u =
      spread (PartialUser.username userData) (User.username u0) /\
    User.password u =
      spread (PartialUser.password userData) (User.password u0) /\
    User.fullName u =
      spread (PartialUser.fullName userData) (User.fullName u0) /\
    User.email u = spread (PartialUser.email userData) (User.email u0) /\
    User.phone u = spread (PartialUser.phone userData) (User.phone u0) /\
    User.profilePicture u =
      spread (PartialUser.profilePicture userData) (User.profilePicture u0) /\
    User.userType u =
      spread (PartialUser.userType userData) (User.userType u0) /\
    User.createdAt u =
      spread (PartialUser.createdAt userData) (User.createdAt u0) /\
    User.language u =
      spread (PartialUser.language userData) (User.language u0) /\
    User.isOnline u =
      spread (PartialUser.isOnline userData) (User.isOnline u0).
Proof.
  intros G. run_method. rewrite G. eexists. split; [reflexivity|].
  now repeat split.
Qed.

Lemma updateUser_missing id userData s :
  JsMap.get id (usersMap s) = None ->
  updateUser id userData s = (Throw "User not found", s).
Proof. intros G. run_method. now rewrite G. Qed.

Lemma updateVehicle_found id vehicleData s v0 :
  JsMap.get id (vehiclesMap s) = Some v0 ->
  exists v,
    updateVehicle id vehicleData s =
      (Return v, assign_vehiclesMap (JsMap.set id v (vehiclesMap s)) s) /\
    Vehicle.driverId v =
      spread (PartialVehicle.driverId vehicleData) (Vehicle.driverId v0).
Proof.
  intros G. run_method. rewrite G. eexists. split; reflexivity.
Qed.

Lemma updateVehicle_missing id vehicleData s :
  JsMap.get id (vehiclesMap s) = None ->
  updateVehicle id vehicleData s = (Throw "Vehicle not found", s).
Proof. intros G. run_method. now rewrite G. Qed.

Lemma exec_store_change c s : store_change s (exec c s).
Proof.
  destruct c; unfold exec, perform; rewrite snd_bind_ret.
  - destruct (createUser_eq userData now s) as (u & _ & _ & ->).
    now apply UserAdded with u.
  - destruct (JsMap.get id (usersMap s)) as [u0|] eqn:G.
    + destruct (updateUser_found id userData s u0 G) as (u & -> & _).
      now apply UserReplaced with id u0 u.
    + rewrite updateUser_missing by assumption. now apply NoChange.
  - unfold updateUserStatus.
    destruct (JsMap.get id (usersMap s)) as [u0|] eqn:G.
    + match goal with
      | |- context [updateUser id ?d s] =>
          destruct (updateUser_found id d s u0 G) as (u & -> & _)
      end.
      now apply UserReplaced with id u0 u.
    + rewrite updateUser_missing by assumption. now apply NoChange.
  - run_method. eapply VehicleAdded. reflexivity.
  - destruct (JsMap.get id (vehiclesMap s)) as [v0|] eqn:G.
    + destruct (updateVehicle_found id vehicleData s v0 G) as (v & -> & _).
      now apply VehicleReplaced with id v0 v.
    + rewrite updateVehicle_missing by assumption. now apply NoChange.
  - rewrite createRide_eq. destruct (find _ _); [now apply NoChange|].
    eapply RideAdded. reflexivity.
  - rewrite acceptRide_eq.
    destruct (JsMap.get _ _) as [r|] eqn:G; [|now apply NoChange].
    destruct (negb _); [now apply NoChange|].
    destruct (find _ _); [now apply NoChange|].
    eapply RideReplaced; [exact G | reflexivity].
  - rewrite declineRide_eq.
    destruct (JsMap.get _ _) as [r|] eqn:G; [|now apply NoChange].
    destruct (negb _); [now apply NoChange|].
    eapply RideReplaced; [exact G | reflexivity].
  - rewrite markDriverArrived_eq.
    destruct (JsMap.get _ _) as [r|] eqn:G; [|now apply NoChange].
    destruct (negb _); now apply NoChange.
  - rewrite startRide_eq.
    destruct (JsMap.get _ _) as [r|] eqn:G; [|now apply NoChange].
    destruct (negb _); [now apply NoChange|].
    eapply RideReplaced; [exact G | reflexivity].
  - rewrite completeRide_eq.
    destruct (JsMap.get _ _) as [r|] eqn:G; [|now apply NoChange].
    destruct (negb _); [now apply NoChange|].
    eapply RideReplaced; [exact G | reflexivity].
  - rewrite cancelRide_eq.
    destruct (JsMap.get _ _) as [r|] eqn:G; [|now apply NoChange].
    destruct (negb _); [now apply NoChange|].
    eapply RideReplaced; [exact G | reflexivity].
  - run_method. eapply RatingAdded. reflexivity.
Qed.

Lemma ids_ok_new now : ids_ok (new_MemStorage now).
Proof. split; split; cbn; try lia; reflexivity. Qed.

Lemma ids_ok_exec c s : ids_ok s -> ids_ok (exec c s).
Proof.
  intros [Hu Hv Hr Ht].
  destruct (exec_store_change c s)
    as [-> | u -> | id u0 u G -> | v -> | id v0 v G -> | r ->
        | R r0 r G -> | r ->];
    split; cbn; trivial;
    first [ now apply consecutive_add
          | eapply consecutive_replace; eassumption ].
Qed.

Lemma ids_ok_run cs s : ids_ok s -> ids_ok (run cs s).
Proof.
  revert s. induction cs as [|c cs IH]; intros s H; [assumption|].
  apply IH. now apply ids_ok_exec.
Qed.

Lemma ids_ok_reachable s : reachable s -> ids_ok s.
Proof. intros (now & cs & ->). apply ids_ok_run, ids_ok_new. Qed.

(** X1: in a reachable store the keys of each of the four maps are the
    identifiers 1, 2, ... up to the counter of the map, in this order:
    no identifier is skipped, not even by a call that throws, and none
    is used twice.  So a user, vehicle, ride or rating is stored under
    [k] exactly when [k] is at least 1 and below the counter. *)
Theorem identifiers_are_consecutive :
  forall s,
    reachable s ->
    JsMap.keys (usersMap s) = ids_upto (userIdCounter s) /\
    JsMap.keys (vehiclesMap s) = ids_upto (vehicleIdCounter s) /\
    JsMap.keys (ridesMap s) = ids_upto (rideIdCounter s) /\
    JsMap.keys (ratingsMap s) = ids_upto (ratingIdCounter s) /\
    (forall k, (exists u, JsMap.get k (usersMap s) = Some u) <->
               1 <= k < userIdCounter s) /\
    (forall k, (exists v, JsMap.get k (vehiclesMap s) = Some v) <->
               1 <= k < vehicleIdCounter s) /\
    (forall k, (exists r, JsMap.get k (ridesMap s) = Some r) <->
               1 <= k < rideIdCounter s) /\
    (forall k, (exists r, JsMap.get k (ratingsMap s) = Some r) <->
               1 <= k < ratingIdCounter s).
Proof.
  intros s Hs. destruct (ids_ok_reachable s Hs) as [Hu Hv Hr Ht].
  repeat split; try apply Hu; try apply Hv; try apply Hr; try apply Ht;
    first [ now apply (consecutive_get _ _ _ Hu)
          | now apply (consecutive_get _ _ _ Hv)
          | now apply (consecutive_get _ _ _ Hr)
          | now apply (consecutive_get _ _ _ Ht) ].
Qed.

(** After [driver_rides_and_drives] the store holds users 1, 2, 3 and
    rides 1, 2. *)
Lemma identifiers_are_consecutive_witness :
  reachable (run driver_rides_and_drives (new_MemStorage 0)) /\
  JsMap.keys (usersMap (run driver_rides_and_drives (new_MemStorage 0))) =
    [1; 2; 3] /\
  JsMap.keys (ridesMap (run driver_rides_and_drives (new_MemStorage 0))) =
    [1; 2].
Proof.
  assert (H : reachable (run driver_rides_and_drives (new_MemStorage 0)))
    by (exists 0, driver_rides_and_drives; reflexivity).
  split; [exact H|].
  destruct (identifiers_are_consecutive _ H) as (Hu & _ & Hr & _).
  split; [exact Hu | exact Hr].
Defined.

(** ** Users *)

Lemma values_set_fresh {V} (m : JsMap.t V) counter v :
  consecutive m counter ->
  JsMap.values (JsMap.set counter v m) = JsMap.values m ++ [v].
Proof.
  intros H. rewrite set_absent by (eapply consecutive_fresh; eassumption).
  now rewrite values_app.
Qed.

Ltac store_fields :=
  cbn [usersMap vehiclesMap ridesMap ratingsMap userIdCounter
       vehicleIdCounter rideIdCounter ratingIdCounter assign_usersMap
       assign_vehiclesMap assign_ridesMap assign_ratingsMap
       assign_userIdCounter assign_vehicleIdCounter assign_rideIdCounter
       assign_ratingIdCounter fst snd].

(** X2: on a reachable store [createUser] never throws, whatever the
    user name and e-mail: the new user is stored under the next
    identifier and [getUser] returns it.  The users stored before are
    untouched, and a user name that was already taken keeps resolving to
    its older user; only a name that no user had resolves to the new
    one. *)
Theorem createUser_keeps_older_users :
  forall s userData now,
    reachable s ->
    exists user s',
      createUser userData now s = (Return user, s') /\
      User.id user = userIdCounter s /\
      getUser (User.id user) s' = (Return (Some user), s') /\
      (forall k, k <> User.id user ->
         getUser k s' = (Return (JsMap.get k (usersMap s)), s')) /\
      (forall name older,
         getUserByUsername name s = (Return (Some older), s) ->
         getUserByUsername name s' = (Return (Some older), s')) /\
      (getUserByUsername (InsertUser.username userData) s = (Return None, s)
       -> getUserByUsername (InsertUser.username userData) s' =
          (Return (Some user), s')).
Proof.
  intros s userData now Hs.
  pose proof (users_consecutive (ids_ok_reachable s Hs)) as Hc.
  destruct (createUser_eq userData now s) as (u & Hid & Hname & E).
  exists u. eexists. split; [exact E|]. split; [exact Hid|].
  unfold getUser, getUserByUsername, read. store_fields. rewrite Hid.
  rewrite values_set_fresh by assumption. rewrite get_set_same.
  split; [reflexivity|]. split; [|split].
  - intros k N. now rewrite get_set_other.
  - intros name older [= F]. now rewrite find_app_last, F.
  - intros [= F]. rewrite find_app_last, F, Hname, String.eqb_refl.
    reflexivity.
Qed.

(** A second "dora": the name keeps resolving to user 2. *)
Lemma createUser_keeps_older_users_witness :
  exists older user s',
    reachable two_doras /\
    getUserByUsername "dora" two_doras = (Return (Some older), two_doras) /\
    createUser (new_user "dora" "passenger") 20 two_doras = (Return user, s')
    /\
    User.id older = 2 /\ User.id user = 3 /\
    getUserByUsername "dora" s' = (Return (Some older), s').
Proof.
  assert (H : reachable two_doras)
    by (exists 0, [CreateUser (new_user "dora" "driver") 10]; reflexivity).
  destruct (createUser_keeps_older_users two_doras
              (new_user "dora" "passenger") 20 H)
    as (user & s' & Hc & Hid & _ & _ & Hold & _).
  eexists. exists user, s'. split; [exact H|].
  split; [reflexivity|]. split; [exact Hc|]. split; [reflexivity|].
  split; [exact Hid|]. apply Hold. reflexivity.
Defined.

(** X3: [updateUserStatus(id, isOnline)] throws "User not found" and
    leaves the store as it is when no user is stored under [id].
    Otherwise it stores under [id], and returns, the user with [isOnline]
    replaced and every other field as before; the other users, the keys
    and the counters are untouched, and making the same call again
    changes nothing more. *)
Theorem updateUserStatus_changes_only_isOnline :
  forall s id isOnline,
    match JsMap.get id (usersMap s) with
    | None => updateUserStatus id isOnline s = (Throw "User not found", s)
    | Some u0 =>
        exists u s',
          updateUserStatus id isOnline s = (Return u, s') /\
          getUser id s' = (Return (Some u), s') /\
          User.isOnline u = JsVal isOnline /\
          User.id u = User.id u0 /\
          User.username u = User.username u0 /\
          User.password u = User.password u0 /\
          User.fullName u = User.fullName u0 /\
          User.email u = User.email u0 /\
          User.phone u = User.phone u0 /\
          User.profilePicture u = User.profilePicture u0 /\
          User.userType u = User.userType u0 /\
          User.createdAt u = User.createdAt u0 /\
          User.language u = User.language u0 /\
          (forall k, k <> id ->
             JsMap.get k (usersMap s') = JsMap.get k (usersMap s)) /\
          JsMap.keys (usersMap s') = JsMap.keys (usersMap s) /\
          userIdCounter s' = userIdCounter s /\
          ridesMap s' = ridesMap s /\
          updateUserStatus id isOnline s' = (Return u, s')
    end.
Proof.
  intros s id isOnline.
  destruct (JsMap.get id (usersMap s)) as [u0|] eqn:G.
  - run_method. rewrite G. do 2 eexists. split; [reflexivity|].
    cbn. rewrite get_set_same.
    repeat split.
    + intros k N. now apply get_set_other.
    + eapply keys_set_present, G.
    + cbn. now rewrite set_set_same.
  - unfold updateUserStatus. now apply updateUser_missing.
Qed.

(** ** Vehicles *)

(** X4: on a reachable store [createVehicle] never throws and does not
    check whether the driver already has a vehicle.  The new vehicle is
    stored under the next identifier, where [getVehicle] finds it, but
    [getVehicleByDriver] keeps returning the vehicle it returned before;
    it returns the new vehicle only for a driver that had none.  What
    [getVehicleByDriver(D)] returns is a stored vehicle of driver [D]. *)
Theorem createVehicle_keeps_first_vehicle :
  forall s vehicleData,
    reachable s ->
    exists vehicle s',
      createVehicle vehicleData s = (Return vehicle, s') /\
      Vehicle.id vehicle = vehicleIdCounter s /\
      Vehicle.driverId vehicle = InsertVehicle.driverId vehicleData /\
      getVehicle (Vehicle.id vehicle) s' = (Return (Some vehicle), s') /\
      (forall D older,
         getVehicleByDriver D s = (Return (Some older), s) ->
         Vehicle.driverId older = D /\
         In older (JsMap.values (vehiclesMap s)) /\
         getVehicleByDriver D s' = (Return (Some older), s')) /\
      (getVehicleByDriver (InsertVehicle.driverId vehicleData) s =
         (Return None, s) ->
       getVehicleByDriver (InsertVehicle.driverId vehicleData) s' =
         (Return (Some vehicle), s')).
Proof.
  intros s vehicleData Hs.
  pose proof (vehicles_consecutive (ids_ok_reachable s Hs)) as Hc.
  run_method. do 2 eexists. split; [reflexivity|].
  unfold getVehicleByDriver, read. store_fields. cbn [Vehicle.id Vehicle.driverId].
  rewrite values_set_fresh by assumption. rewrite get_set_same.
  repeat split.
  - injection H as F. apply find_some in F. now apply Z.eqb_eq.
  - injection H as F. now apply find_some in F.
  - injection H as F. now rewrite find_app_last, F.
  - intros [= F]. now rewrite find_app_last, F, Z.eqb_refl.
Qed.

(** ** Rides: the guards and the queries *)

Lemma find_some_exists {A} (p : A -> bool) (l : list A) x :
  In x l -> p x = true -> exists y, find p l = Some y.
Proof.
  intros Hin Hp. destruct (find p l) as [y|] eqn:F; [eauto|].
  rewrite (find_none _ _ F _ Hin) in Hp. discriminate.
Qed.

Lemma find_unique {V} (p : V -> bool) (m : JsMap.t V) k v :
  NoDup (JsMap.keys m) -> unique p m ->
  JsMap.get k m = Some v -> p v = true ->
  find p (JsMap.values m) = Some v.
Proof.
  intros Hnd U G Hp.
  destruct (find_some_exists p (JsMap.values m) v) as [y F];
    [eapply get_In_values, G | assumption |].
  rewrite F. f_equal. apply find_some in F. destruct F as [Hin Hy].
  destruct (In_values_get m y Hnd Hin) as [k' G'].
  assert (k' = k) by (eapply U; eauto). subst. congruence.
Qed.

Lemma In_values_set_other {V} (m : JsMap.t V) k v x :
  NoDup (JsMap.keys m) ->
  In x (JsMap.values (JsMap.set k v m)) ->
  x = v \/ exists k', k' <> k /\ JsMap.get k' m = Some x.
Proof.
  intros Hnd Hin.
  destruct (In_values_get (JsMap.set k v m) x) as [k' G];
    [now apply NoDup_keys_set | assumption |].
  apply get_set_cases in G. destruct G as [[_ ->]|[N G]]; eauto.
Qed.

Lemma find_none_after_set {V} (p : V -> bool) (m : JsMap.t V) k v v' :
  NoDup (JsMap.keys m) -> unique p m ->
  JsMap.get k m = Some v -> p v = true -> p v' = false ->
  find p (JsMap.values (JsMap.set k v' m)) = None.
Proof.
  intros Hnd U G Hp Hp'. apply find_none_iff. intros x Hin.
  apply In_values_set_other in Hin; [|assumption].
  destruct Hin as [->|(k' & N & G')]; [assumption|].
  destruct (p x) eqn:Px; [|reflexivity].
  exfalso. apply N. eapply U; eauto.
Qed.

(** X5: in a reachable store the guard queries return nothing but the
    one active ride: a stored ride with passenger [P] (a number, [null]
    or [undefined]) and status requested, accepted or in_progress is what
    [getPassengerActiveRide(P)] returns, and a stored ride with driver
    [D] and status accepted or in_progress is what
    [getDriverActiveRide(D)] returns. *)
Theorem guard_queries_return_the_active_ride :
  forall s R r,
    reachable s ->
    JsMap.get R (ridesMap s) = Some r ->
    (In (Ride.status r) ["requested"; "accepted"; "in_progress"] ->
     getPassengerActiveRide (Ride.passengerId r) s = (Return (Some r), s)) /\
    (forall D,
       Ride.driverId r = JsVal D ->
       In (Ride.status r) ["accepted"; "in_progress"] ->
       getDriverActiveRide D s = (Return (Some r), s)).
Proof.
  intros s R r Hs G. apply rides_ok_reachable in Hs.
  destruct Hs as [Hnd _ _ _ Hp Hd].
  unfold getPassengerActiveRide, getDriverActiveRide, read. split.
  - intros St. f_equal. f_equal.
    eapply find_unique; eauto. now apply passenger_active_ride_iff.
  - intros D HD St. f_equal. f_equal.
    eapply find_unique; eauto. now apply driver_active_ride_iff.
Qed.

(** In [busy_driver_store] driver 2 drives ride 1 of passenger 1. *)
Lemma guard_queries_return_the_active_ride_witness :
  exists r,
    reachable busy_driver_store /\
    JsMap.get 1 (ridesMap busy_driver_store) = Some r /\
    getPassengerActiveRide (JsVal 1) busy_driver_store =
      (Return (Some r), busy_driver_store) /\
    getDriverActiveRide 2 busy_driver_store =
      (Return (Some r), busy_driver_store).
Proof.
  assert (H : reachable busy_driver_store)
    by (eexists 0, _; reflexivity).
  eexists. split; [exact H|]. split; [reflexivity|].
  destruct (guard_queries_return_the_active_ride busy_driver_store 1 _ H
              eq_refl) as [Hp Hd].
  split.
  - apply Hp. simpl. tauto.
  - apply Hd; [reflexivity | simpl; tauto].
Defined.

(** X6: what [getActiveRideForUser(U)] returns is a stored ride with [U]
    as passenger or driver and status requested, accepted or in_progress.
    When it returns nothing, neither guard stands in the way of [U]:
    [createRide] for passenger [U] returns a ride, and so does
    [acceptRide] by driver [U] on every requested ride. *)
Theorem getActiveRideForUser_none_means_free :
  forall s U,
    (forall r,
       getActiveRideForUser U s = (Return (Some r), s) ->
       In r (rides s) /\
       (Ride.passengerId r = JsVal U \/ Ride.driverId r = JsVal U) /\
       In (Ride.status r) ["requested"; "accepted"; "in_progress"]) /\
    (getActiveRideForUser U s = (Return None, s) ->
     (forall rideData now,
        InsertRide.passengerId rideData = JsVal U ->
        exists ride s', createRide rideData now s = (Return ride, s')) /\
     (forall R r now,
        JsMap.get R (ridesMap s) = Some r ->
        Ride.status r = "requested" ->
        exists ride s', acceptRide R U now s = (Return ride, s'))).
Proof.
  intros s U. unfold getActiveRideForUser, read. split.
  - intros r [= F]. apply find_some in F. destruct F as [Hin Hp].
    unfold user_active_ride in Hp.
    rewrite andb_true_iff, orb_true_iff, !strict_eq_true, includes_iff in Hp.
    tauto.
  - intros [= F].
    assert (Free : forall r, In r (rides s) ->
              In (Ride.status r) ["requested"; "accepted"; "in_progress"] ->
              Ride.passengerId r <> JsVal U /\ Ride.driverId r <> JsVal U).
    { intros r Hin St. pose proof (find_none _ _ F _ Hin) as Hp.
      unfold user_active_ride in Hp.
      apply includes_iff in St. rewrite St, andb_true_r in Hp.
      apply orb_false_iff in Hp. destruct Hp as [H1 H2].
      split; intros E.
      - rewrite E in H1. cbn in H1. rewrite Z.eqb_refl in H1. discriminate.
      - rewrite E in H2. cbn in H2. rewrite Z.eqb_refl in H2. discriminate. }
    split.
    + intros rideData now HP. rewrite createRide_eq, HP.
      replace (find (passenger_active_ride (JsVal U)) (rides s))
        with (@None Ride.t); [eauto|].
      symmetry. apply find_none_iff. intros r Hin.
      destruct (passenger_active_ride _ r) eqn:E; [|reflexivity].
      apply passenger_active_ride_iff in E. destruct E as [E St].
      destruct (Free r Hin St). contradiction.
    + intros R r now G St. rewrite acceptRide_eq, G, St.
      replace (find (driver_active_ride U) (rides s))
        with (@None Ride.t); [cbn; eauto|].
      symmetry. apply find_none_iff. intros r0 Hin.
      destruct (driver_active_ride _ r0) eqn:E; [|reflexivity].
      apply driver_active_ride_iff in E. destruct E as [E St0].
      destruct (Free r0 Hin); [simpl in *; tauto | contradiction].
Qed.

(** User 9 has no ride in [busy_driver_store] and may accept ride 2. *)
Lemma getActiveRideForUser_none_means_free_witness :
  getActiveRideForUser 9 busy_driver_store = (Return None, busy_driver_store)
  /\
  (exists ride s',
      createRide (ride_request (JsVal 9) JsUndefined) 60 busy_driver_store =
      (Return ride, s')) /\
  (exists ride s', acceptRide 2 9 60 busy_driver_store = (Return ride, s')).
Proof.
  split; [reflexivity|].
  destruct (getActiveRideForUser_none_means_free busy_driver_store 9)
    as [_ Hfree].
  destruct (Hfree eq_refl) as [Hc Ha]. split.
  - apply Hc. reflexivity.
  - eapply Ha; reflexivity.
Defined.

(** X7: a participant with an active ride is refused.  While a stored
    ride has status requested, accepted or in_progress, [createRide] with
    the same [passengerId], be it a number, [null] or [undefined], throws
    "Passenger already has an active ride"; while a stored ride of driver
    [D] is accepted or in_progress, [acceptRide] by [D] on any requested
    ride throws "Driver already has an active ride".  The store is
    unchanged in both cases. *)
Theorem busy_participant_is_refused :
  forall s R r,
    JsMap.get R (ridesMap s) = Some r ->
    (In (Ride.status r) ["requested"; "accepted"; "in_progress"] ->
     forall rideData now,
       InsertRide.passengerId rideData = Ride.passengerId r ->
       createRide rideData now s =
         (Throw "Passenger already has an active ride", s)) /\
    (In (Ride.status r) ["accepted"; "in_progress"] ->
     forall D R' r' now,
       Ride.driverId r = JsVal D ->
       JsMap.get R' (ridesMap s) = Some r' ->
       Ride.status r' = "requested" ->
       acceptRide R' D now s =
         (Throw "Driver already has an active ride", s)).
Proof.
  intros s R r G. pose proof (get_In_values _ _ _ G) as Hin. split.
  - intros St rideData now HP. rewrite createRide_eq, HP.
    destruct (find_some_exists
                (passenger_active_ride (Ride.passengerId r)) (rides s) r)
      as [y ->]; trivial.
    now apply passenger_active_ride_iff.
  - intros St D R' r' now HD G' St'. rewrite acceptRide_eq, G', St'.
    destruct (find_some_exists (driver_active_ride D) (rides s) r)
      as [y ->]; trivial.
    now apply driver_active_ride_iff.
Qed.

(** In [busy_driver_store] passenger 1 cannot request again and driver 2
    cannot accept ride 2. *)
Lemma busy_participant_is_refused_witness :
  createRide (ride_request (JsVal 1) JsUndefined) 60 busy_driver_store =
    (Throw "Passenger already has an active ride", busy_driver_store) /\
  acceptRide 2 2 60 busy_driver_store =
    (Throw "Driver already has an active ride", busy_driver_store).
Proof.
  destruct (busy_participant_is_refused busy_driver_store 1 _ eq_refl)
    as [Hp Hd].
  split.
  - apply Hp; [simpl; tauto | reflexivity].
  - eapply Hd; [simpl; tauto | reflexivity | reflexivity | reflexivity].
Defined.

(** ** Rides: the transitions *)

Lemma bind_ret_returns {A B} (m : M A) (f : A -> B) s :
  (exists v s', (x <- m ;; ret (f x)) s = (Return v, s')) <->
  (exists a s', m s = (Return a, s')).
Proof.
  split.
  - intros (v & s' & H). apply bind_ret_return in H.
    destruct H as (a & H & _). eauto.
  - intros (a & s' & H). exists (f a), s'. apply bind_ret_return. eauto.
Qed.

Ltac by_status r E :=
  split;
  [ destruct (negb _) eqn:E;
    [ split;
      [ intros (v & s' & H); discriminate H
      | intros (r0 & [= <-] & Hin); exfalso;
        first [ apply includes_iff in Hin; rewrite Hin in E; discriminate E
              | destruct Hin as [Hin|[]]; rewrite <- Hin in E;
                discriminate E ] ]
    | split;
      [ intros _; exists r; split; [reflexivity|];
        first [ apply status_neq_false in E; rewrite E; now left
              | apply negb_false_iff, includes_iff in E; exact E ]
      | intros _; do 2 eexists; reflexivity ] ]
  | discriminate ].

(** X8: for [declineRide], [markDriverArrived], [startRide],
    [completeRide] and [cancelRide] the status of the ride decides
    alone.  The call returns exactly when a ride is stored under the
    identifier with a status that the transition starts from (requested
    for decline, accepted for arrival and start, in_progress for
    complete, any of the three for cancel); it throws "Ride not found"
    when no ride is stored there. *)
Theorem transition_goes_through_iff :
  forall c R s,
    transition_target c = Some R ->
    required_status c <> [] ->
    ((exists v s', perform c s = (Return v, s')) <->
     (exists r,
         JsMap.get R (ridesMap s) = Some r /\
         In (Ride.status r) (required_status c))) /\
    (JsMap.get R (ridesMap s) = None ->
     perform c s = (Throw "Ride not found", s)).
Proof.
  intros c R s Hc Hreq.
  destruct c; try discriminate; try (now contradiction Hreq);
    injection Hc as ->; unfold perform;
    rewrite bind_ret_returns, bind_ret_throw;
    rewrite ?declineRide_eq, ?markDriverArrived_eq, ?startRide_eq,
      ?completeRide_eq, ?cancelRide_eq; cbn [required_status];
    (destruct (JsMap.get R (ridesMap s)) as [r|] eqn:G;
     [ by_status r E
     | split; [split; [intros (v & s' & H); discriminate
                      | intros (r & H & _); discriminate]
              | reflexivity] ]).
Qed.

(** Starting the requested ride 1 of [requested_store] does not go
    through; cancelling it does. *)
Lemma transition_goes_through_iff_witness :
  ~ (exists v s', perform (StartRide 1 40) requested_store = (Return v, s'))
  /\
  (exists v s', perform (CancelRide 1 40) requested_store = (Return v, s')).
Proof.
  split.
  - intros H.
    destruct (transition_goes_through_iff (StartRide 1 40) 1 requested_store
                eq_refl) as [[Hto _] _]; [discriminate|].
    destruct (Hto H) as (r & [= <-] & [E|[]]). discriminate E.
  - destruct (transition_goes_through_iff (CancelRide 1 40) 1 requested_store
                eq_refl) as [[_ Hfrom] _]; [discriminate|].
    apply Hfrom. eexists. split; [reflexivity|]. simpl. tauto.
Defined.

(** X9: [declineRide] is [cancelRide] restricted to requested rides:
    whenever [declineRide] returns, [cancelRide] with the same arguments
    returns the same ride and leaves the same store, and the ride is
    cancelled with [cancelledAt = now]. *)
Theorem declineRide_is_cancelRide :
  forall s R now ride s',
    declineRide R now s = (Return ride, s') ->
    cancelRide R now s = (Return ride, s') /\
    Ride.status ride = "cancelled" /\
    Ride.cancelledAt ride = JsVal now /\
    JsMap.get R (ridesMap s') = Some ride.
Proof.
  intros s R now ride s'. rewrite declineRide_eq, cancelRide_eq.
  destruct (JsMap.get R (ridesMap s)) as [r|]; [|discriminate].
  destruct (negb _) eqn:E; [discriminate|].
  apply status_neq_false in E. rewrite E. cbn.
  intros [= <- <-]. repeat split. cbn. apply get_set_same.
Qed.

(** Declining the requested ride 1 of [requested_store]. *)
Lemma declineRide_is_cancelRide_witness :
  exists ride s',
    declineRide 1 40 requested_store = (Return ride, s') /\
    cancelRide 1 40 requested_store = (Return ride, s') /\
    Ride.status ride = "cancelled".
Proof.
  do 2 eexists. split; [lazy; reflexivity|].
  destruct (declineRide_is_cancelRide requested_store 1 40 _ _ eq_refl)
    as (Hc & Hs & _).
  split; [exact Hc | exact Hs].
Defined.

Lemma ride_shape_exec c s :
  (forall R r, JsMap.get R (ridesMap s) = Some r -> ride_shape r) ->
  forall R r, JsMap.get R (ridesMap (exec c s)) = Some r -> ride_shape r.
Proof.
  intros H R r.
  destruct (exec_rides_change c s)
    as [Em Ec | rd now F Em Ec | R0 D now r0 G0 St F Em Ec
        | R0 now r0 G0 St Em Ec | R0 now r0 G0 St Em Ec
        | R0 now r0 G0 St Em Ec | R0 now r0 G0 St Em Ec];
    rewrite Em; try exact (H R r);
    intros G; apply get_set_cases in G;
    (destruct G as [[-> ->]|[N G]]; [|eapply H; eassumption]);
    try (pose proof (H _ _ G0) as (S0 & S1 & S2 & S3 & S4 & S5));
    unfold ride_shape, is_set, is_nullish, accepted_ride, cancelled_ride,
      started_ride, completed_ride, requested_ride in *;
    cbn in *.
  - intuition discriminate.
  - specialize (S1 St). intuition (try discriminate; try congruence).
  - specialize (S1 St). intuition (try discriminate; try congruence).
  - specialize (S2 St). intuition (try discriminate; try congruence).
  - specialize (S3 St). intuition (try discriminate; try congruence).
  - destruct St as [St|[St|[St|[]]]]; symmetry in St;
      [specialize (S1 St) | specialize (S2 St) | specialize (S3 St)];
      intuition (try discriminate; try congruence).
Qed.

(** X10: in a reachable store the fields of a ride fit its status.  Every
    ride has its requested time; a requested ride has no other
    timestamp; an accepted ride has a driver and [acceptedAt] only; a
    ride in progress has [startedAt] as well; a completed ride has a
    driver and all of [acceptedAt], [startedAt], [completedAt] but no
    [cancelledAt]; a cancelled ride has [cancelledAt] and no
    [completedAt].  The [id] of a ride is the key under which it is
    stored. *)
Theorem ride_fields_fit_status :
  forall s R r,
    reachable s ->
    JsMap.get R (ridesMap s) = Some r ->
    ride_shape r /\ Ride.id r = R.
Proof.
  intros s R r Hs G. split.
  - destruct Hs as (now & cs & ->). revert R r G.
    induction cs as [|c cs IH] using rev_ind; intros R r G;
      [discriminate|].
    rewrite run_snoc in G. eapply ride_shape_exec; eassumption.
  - apply rides_ok_reachable in Hs. eapply id_is_key; eassumption.
Qed.

(** The completed ride of [one_full_ride]. *)
Lemma ride_fields_fit_status_witness :
  exists r,
    reachable completed_store /\
    JsMap.get 1 (ridesMap completed_store) = Some r /\
    ride_shape r /\ Ride.id r = 1.
Proof.
  assert (H : reachable completed_store)
    by (exists 0, one_full_ride; reflexivity).
  assert (E : exists r, JsMap.get 1 (ridesMap completed_store) = Some r)
    by (vm_compute; eauto).
  destruct E as [r E]. exists r. split; [exact H|]. split; [exact E|].
  exact (ride_fields_fit_status completed_store 1 r H E).
Defined.

(** ** Rides: how the transitions compose *)

Lemma exec_accept s R D now r :
  JsMap.get R (ridesMap s) = Some r -> Ride.status r = "requested" ->
  find (driver_active_ride D) (rides s) = None ->
  exec (AcceptRide R D now) s =
  assign_ridesMap (JsMap.set R (accepted_ride r D now) (ridesMap s)) s.
Proof.
  intros G St F. unfold exec, perform.
  now rewrite snd_bind_ret, acceptRide_eq, G, St, F.
Qed.

Lemma exec_start s R now r :
  JsMap.get R (ridesMap s) = Some r -> Ride.status r = "accepted" ->
  exec (StartRide R now) s =
  assign_ridesMap (JsMap.set R (started_ride r now) (ridesMap s)) s.
Proof.
  intros G St. unfold exec, perform.
  now rewrite snd_bind_ret, startRide_eq, G, St.
Qed.

Lemma exec_complete s R now r :
  JsMap.get R (ridesMap s) = Some r -> Ride.status r = "in_progress" ->
  exec (CompleteRide R now) s =
  assign_ridesMap (JsMap.set R (completed_ride r now) (ridesMap s)) s.
Proof.
  intros G St. unfold exec, perform.
  now rewrite snd_bind_ret, completeRide_eq, G, St.
Qed.

(** X11: the whole life of a ride.  From any store in which ride [R] is
    requested and driver [D] has no accepted or in_progress ride,
    [acceptRide(R, D)], [startRide(R)] and [completeRide(R)] in this
    order all go through.  The ride is then completed, with driver [D]
    and the three times at which the calls were made, and with the data
    of the request untouched; nothing else in the store has changed;
    driver [D] has no active ride any more; and [cancelRide(R)] throws
    "Ride cannot be cancelled". *)
Theorem accept_start_complete :
  forall s R r D t1 t2 t3,
    JsMap.get R (ridesMap s) = Some r ->
    Ride.status r = "requested" ->
    (forall r0, In r0 (rides s) ->
       ~ (Ride.driverId r0 = JsVal D /\
          In (Ride.status r0) ["accepted"; "in_progress"])) ->
    exists r3,
      JsMap.get R
        (ridesMap
           (run [AcceptRide R D t1; StartRide R t2; CompleteRide R t3] s))
        = Some r3 /\
      Ride.status r3 = "completed" /\
      Ride.driverId r3 = JsVal D /\
      Ride.acceptedAt r3 = JsVal t1 /\
      Ride.startedAt r3 = JsVal t2 /\
      Ride.completedAt r3 = JsVal t3 /\
      Ride.cancelledAt r3 = Ride.cancelledAt r /\
      same_request r r3 /\
      only_ride_changed R s
        (run [AcceptRide R D t1; StartRide R t2; CompleteRide R t3] s) /\
      getDriverActiveRide D
        (run [AcceptRide R D t1; StartRide R t2; CompleteRide R t3] s) =
        (Return None,
         run [AcceptRide R D t1; StartRide R t2; CompleteRide R t3] s) /\
      forall t4,
        cancelRide R t4
          (run [AcceptRide R D t1; StartRide R t2; CompleteRide R t3] s) =
        (Throw "Ride cannot be cancelled",
         run [AcceptRide R D t1; StartRide R t2; CompleteRide R t3] s).
Proof.
  intros s R r D t1 t2 t3 G St Hfree.
  assert (F : find (driver_active_ride D) (rides s) = None).
  { apply find_none_iff. intros r0 Hin.
    destruct (driver_active_ride D r0) eqn:E; [|reflexivity].
    apply driver_active_ride_iff in E. exfalso. eapply Hfree; eauto. }
  cbn [run fold_left].
  rewrite (exec_accept s R D t1 r G St F).
  rewrite (exec_start _ R t2 (accepted_ride r D t1));
    [|apply get_set_same | reflexivity].
  rewrite (exec_complete _ R t3 (started_ride (accepted_ride r D t1) t2));
    [|apply get_set_same | reflexivity].
  store_fields. rewrite !set_set_same.
  eexists. split; [apply get_set_same|].
  repeat split.
  - intros R' N. store_fields. now apply get_set_other.
  - unfold getDriverActiveRide, read. f_equal. f_equal.
    apply find_none_iff. intros x Hin. unfold rides in Hin.
    store_fields. apply In_values_set in Hin. destruct Hin as [->|Hin].
    + unfold driver_active_ride. cbn. apply andb_false_r.
    + apply (find_none _ _ F _ Hin).
  - intros t4. rewrite cancelRide_eq. store_fields.
    now rewrite get_set_same.
Qed.

(** Driver 7 takes the requested ride 1 of [requested_store] to its
    end. *)
Lemma accept_start_complete_witness :
  exists r3,
    JsMap.get 1
      (ridesMap
         (run [AcceptRide 1 7 40; StartRide 1 50; CompleteRide 1 60]
            requested_store)) = Some r3 /\
    Ride.status r3 = "completed" /\
    Ride.driverId r3 = JsVal 7 /\
    Ride.completedAt r3 = JsVal 60.
Proof.
  destruct (accept_start_complete requested_store 1 _ 7 40 50 60 eq_refl
              eq_refl) as (r3 & G & St & Hd & _ & _ & Hc & _).
  - intros r0 [<-|[]] [E _]. discriminate E.
  - exists r3. repeat split; assumption.
Defined.

Lemma finishing_returns c R s r v s' :
  transition_target c = Some R ->
  JsMap.get R (ridesMap s) = Some r ->
  perform c s = (Return (RideValue v), s') ->
  terminal (Ride.status v) ->
  s' = assign_ridesMap (JsMap.set R v (ridesMap s)) s /\
  Ride.passengerId v = Ride.passengerId r /\
  Ride.driverId v = Ride.driverId r /\
  In (Ride.status r) ["requested"; "accepted"; "in_progress"].
Proof.
  intros Hc G H T.
  destruct c; try discriminate; injection Hc as ->;
    unfold perform in H; apply bind_ret_return in H;
    destruct H as (a & H & [= <-]); revert H;
    rewrite ?acceptRide_eq, ?declineRide_eq, ?markDriverArrived_eq,
      ?startRide_eq, ?completeRide_eq, ?cancelRide_eq, G;
    destruct (negb _) eqn:E; try discriminate;
    try (destruct (find _ _); try discriminate);
    intros [= <- <-];
    try (destruct T as [T|T]; discriminate T);
    try (apply status_neq_false in E; rewrite E in T;
         destruct T as [T|T]; discriminate T);
    repeat split;
    first [ apply status_neq_false in E; rewrite E; simpl; tauto
          | apply negb_false_iff, includes_iff in E; exact E ].
Qed.

(** X12: ending a ride frees its participants.  When [declineRide],
    [completeRide] or [cancelRide] returns on a reachable store, the
    passenger of the ride has no active ride left, so that [createRide]
    with the same [passengerId] returns a ride again; and if the ride
    was accepted or in progress its driver has no active ride left. *)
Theorem ending_a_ride_frees_its_participants :
  forall s c R r v s',
    reachable s ->
    transition_target c = Some R ->
    JsMap.get R (ridesMap s) = Some r ->
    perform c s = (Return (RideValue v), s') ->
    terminal (Ride.status v) ->
    getPassengerActiveRide (Ride.passengerId v) s' = (Return None, s') /\
    (forall rideData now,
       InsertRide.passengerId rideData = Ride.passengerId v ->
       exists ride s'', createRide rideData now s' = (Return ride, s'')) /\
    (forall D,
       Ride.driverId r = JsVal D ->
       In (Ride.status r) ["accepted"; "in_progress"] ->
       getDriverActiveRide D s' = (Return None, s')).
Proof.
  intros s c R r v s' Hs Hc G H T.
  destruct (finishing_returns c R s r v s' Hc G H T) as (-> & HP & HD & St).
  apply rides_ok_reachable in Hs. destruct Hs as [Hnd _ _ _ Hp Hd].
  assert (Tb : includes ["requested"; "accepted"; "in_progress"]
                 (Ride.status v) = false)
    by (destruct T as [-> | ->]; reflexivity).
  assert (Td : includes ["accepted"; "in_progress"] (Ride.status v) = false)
    by (destruct T as [-> | ->]; reflexivity).
  assert (F : find (passenger_active_ride (Ride.passengerId v))
                (JsMap.values (JsMap.set R v (ridesMap s))) = None).
  { eapply find_none_after_set; eauto.
    - apply passenger_active_ride_iff. now split.
    - unfold passenger_active_ride. rewrite Tb. apply andb_false_r. }
  split; [|split].
  - unfold getPassengerActiveRide, read. store_fields. now rewrite F.
  - intros rideData now E. rewrite createRide_eq. unfold rides.
    store_fields. rewrite E, F. eauto.
  - intros D ED SD. unfold getDriverActiveRide, read. store_fields.
    f_equal. f_equal. eapply find_none_after_set; eauto.
    + apply driver_active_ride_iff. now split.
    + unfold driver_active_ride. rewrite Td. apply andb_false_r.
Qed.

(** The accepted ride 1 of [busy_driver_store] is cancelled: passenger 1
    and driver 2 are free again. *)
Lemma ending_a_ride_frees_its_participants_witness :
  exists r v s',
    reachable busy_driver_store /\
    JsMap.get 1 (ridesMap busy_driver_store) = Some r /\
    perform (CancelRide 1 60) busy_driver_store = (Return (RideValue v), s')
    /\
    getPassengerActiveRide (JsVal 1) s' = (Return None, s') /\
    getDriverActiveRide 2 s' = (Return None, s').
Proof.
  assert (H : reachable busy_driver_store) by (eexists 0, _; reflexivity).
  destruct (ending_a_ride_frees_its_participants busy_driver_store
              (CancelRide 1 60) 1 _ _ _ H eq_refl eq_refl eq_refl
              (or_intror eq_refl)) as (Hp & _ & Hd).
  do 3 eexists. split; [exact H|]. split; [reflexivity|].
  split; [reflexivity|]. split; [exact Hp|].
  apply Hd; [reflexivity | simpl; tauto].
Defined.

(** The second car of driver 2 in [one_car_store]: the first one stays
    the driver's vehicle. *)
Lemma createVehicle_keeps_first_vehicle_witness :
  exists older vehicle s',
    reachable one_car_store /\
    getVehicleByDriver 2 one_car_store = (Return (Some older), one_car_store)
    /\
    createVehicle (car_of 2 "XYZ-9876") one_car_store = (Return vehicle, s')
    /\
    Vehicle.id older = 1 /\ Vehicle.id vehicle = 2 /\
    getVehicleByDriver 2 s' = (Return (Some older), s').
Proof.
  assert (H : reachable one_car_store) by (eexists 0, _; reflexivity).
  destruct (createVehicle_keeps_first_vehicle one_car_store
              (car_of 2 "XYZ-9876") H)
    as (vehicle & s' & Hc & Hid & _ & _ & Hold & _).
  eexists. exists vehicle, s'. split; [exact H|].
  split; [reflexivity|]. split; [exact Hc|]. split; [reflexivity|].
  split; [exact Hid|]. apply Hold. reflexivity.
Defined.

(** ** Ratings *)

Lemma newest_rating_first_times a b :
  newest_rating_first a b = created_time b - created_time a.
Proof.
  unfold newest_rating_first, created_time. cbv zeta.
  now rewrite !getTime_or_0_value.
Qed.

(** X13: [getUserRatings(U)] leaves the store as it is and returns a list
    that holds exactly the stored ratings whose [toUserId] is [U], each
    as often as the store holds it, in descending order of their
    [createdAt] time (taken as 0 for a rating without one). *)
Theorem getUserRatings_history :
  forall s U,
    exists sorted,
      getUserRatings U s = (Return sorted, s) /\
      Permutation sorted
        (filter (rating_for U) (JsMap.values (ratingsMap s))) /\
      (forall rating,
          In rating sorted <->
          In rating (JsMap.values (ratingsMap s)) /\
          Rating.toUserId rating = JsVal U) /\
      StronglySorted created_not_before sorted.
Proof.
  intros s U.
  exists (js_sort newest_rating_first
            (filter (rating_for U) (JsMap.values (ratingsMap s)))).
  pose proof (js_sort_perm newest_rating_first
                (filter (rating_for U) (JsMap.values (ratingsMap s)))) as HP.
  split; [reflexivity|]. split; [exact HP|]. split.
  - intros rating.
    rewrite <- (strict_eq_true (Rating.toUserId rating) (JsVal U)).
    change (strict_eq (Rating.toUserId rating) (JsVal U))
      with (rating_for U rating).
    rewrite <- filter_In.
    split; apply Permutation_in; [exact HP | now apply Permutation_sym].
  - apply (js_sort_sorted created_time newest_rating_first).
    apply newest_rating_first_times.
Qed.

(** The two ratings of driver 7 in [rated_store], created at 70 and 80,
    come back newest first: rating 2, then rating 1. *)
Lemma getUserRatings_history_witness :
  exists sorted,
    getUserRatings 7 rated_store = (Return sorted, rated_store) /\
    map Rating.id sorted = [2; 1] /\
    map Rating.createdAt sorted = [JsVal 80; JsVal 70] /\
    StronglySorted created_not_before sorted.
Proof.
  destruct (getUserRatings_history rated_store 7)
    as (sorted & Hr & _ & _ & Hs).
  assert (E : exists l,
            getUserRatings 7 rated_store = (Return l, rated_store) /\
            map Rating.id l = [2; 1] /\
            map Rating.createdAt l = [JsVal 80; JsVal 70])
    by (eexists; split; [vm_compute; reflexivity | split; reflexivity]).
  destruct E as (l & El & Hid & Ht).
  rewrite El in Hr. injection Hr as ->.
  exists sorted. repeat split; assumption.
Defined.



(** * The request handlers *)

(** ** The handlers, case by case *)

Lemma createRating_eq ratingData now s :
  exists rating,
    createRating ratingData now s =
      (Return rating,
       assign_ratingsMap
         (JsMap.set (ratingIdCounter s) rating (ratingsMap s))
         (assign_ratingIdCounter (ratingIdCounter s + 1) s)) /\
    Rating.id rating = ratingIdCounter s /\
    Rating.rideId rating = InsertRating.rideId ratingData /\
    Rating.fromUserId rating = InsertRating.fromUserId ratingData /\
    Rating.toUserId rating = InsertRating.toUserId ratingData /\
    Rating.rating rating = InsertRating.rating ratingData /\
    Rating.comment rating = InsertRating.comment ratingData.
Proof. run_method. eexists. split; [reflexivity|]. now repeat split. Qed.

Ltac run_handler :=
  unfold get_rides_active, post_rides, patch_rides_cancel,
    patch_rides_accept, patch_rides_decline, patch_rides_arrived,
    patch_rides_start, patch_rides_complete, post_ratings, try_catch,
    getRide_param, getActiveRideForUser, getRide, bind, read, ret;
  cbn beta iota.

Lemma get_rides_active_eq user s :
  get_rides_active user s =
  match user with
  | None => (Return (sendStatus 401), s)
  | Some user =>
      match find (user_active_ride (User.id user)) (rides s) with
      | None => (Return (json 404 (Message "No active ride found")), s)
      | Some activeRide => (Return (json 200 (RideJson activeRide)), s)
      end
  end.
Proof.
  run_handler. destruct user as [user|]; [|reflexivity].
  unfold rides. now destruct (find _ _).
Qed.

Lemma post_rides_eq user body now s :
  post_rides user body now s =
  match user, body with
  | None, _ => (Return (sendStatus 401), s)
  | Some _, None => (Return (json 400 (Invalid "Invalid ride data")), s)
  | Some user, Some body =>
      match find (passenger_active_ride (JsVal (User.id user))) (rides s) with
      | Some _ => (Return (json 500 (Message "Error creating ride")), s)
      | None =>
          let ride :=
            requested_ride (with_passengerId (User.id user) body)
              (rideIdCounter s) now in
          (Return (json 201 (RideJson ride)),
           assign_ridesMap (JsMap.set (rideIdCounter s) ride (ridesMap s))
             (assign_rideIdCounter (rideIdCounter s + 1) s))
      end
  end.
Proof.
  run_handler. destruct user as [user|]; [|reflexivity].
  destruct body as [body|]; [|reflexivity].
  rewrite createRide_eq. cbn [InsertRide.passengerId with_passengerId].
  now destruct (find _ _).
Qed.

Lemma patch_rides_cancel_eq user rideId now s :
  patch_rides_cancel user rideId now s =
  match user with
  | None => (Return (sendStatus 401), s)
  | Some user =>
      match rideId with
      | None => (Return (json 404 (Message "Ride not found")), s)
      | Some id =>
          match JsMap.get id (ridesMap s) with
          | None => (Return (json 404 (Message "Ride not found")), s)
          | Some ride =>
              if not_on_ride user ride
              then (Return (json 403
                              (Message "Not authorized to cancel this ride")),
                    s)
              else if negb (includes ["requested"; "accepted"; "in_progress"]
                              (Ride.status ride))
              then (Return (json 500 (Message "Error cancelling ride")), s)
              else
                (Return (json 200 (RideJson (cancelled_ride ride now))),
                 assign_ridesMap
                   (JsMap.set id (cancelled_ride ride now) (ridesMap s)) s)
          end
      end
  end.
Proof.
  run_handler. destruct user as [user|]; [|reflexivity].
  destruct rideId as [id|]; [|reflexivity].
  destruct (JsMap.get id (ridesMap s)) as [ride|] eqn:G; [|reflexivity].
  destruct (not_on_ride user ride); [reflexivity|].
  rewrite cancelRide_eq, G. now destruct (negb _).
Qed.

Lemma patch_rides_accept_eq user rideId now s :
  patch_rides_accept user rideId now s =
  match user with
  | None => (Return (sendStatus 401), s)
  | Some user =>
      if negb (is_driver user) then (Return (sendStatus 401), s)
      else
        match rideId with
        | None => (Return (json 404 (Message "Ride not found")), s)
        | Some id =>
            match JsMap.get id (ridesMap s) with
            | None => (Return (json 404 (Message "Ride not found")), s)
            | Some ride =>
                if negb (String.eqb (Ride.status ride) "requested")
                then (Return (json 400
                                (Message "Ride is not in requested status")),
                      s)
                else
                  match find (driver_active_ride (User.id user)) (rides s)
                  with
                  | Some _ =>
                      (Return (json 500 (Message "Error accepting ride")), s)
                  | None =>
                      let accepted :=
                        accepted_ride ride (User.id user) now in
                      (Return (json 200 (RideJson accepted)),
                       assign_ridesMap
                         (JsMap.set id accepted (ridesMap s)) s)
                  end
            end
        end
  end.
Proof.
  run_handler. destruct user as [user|]; [|reflexivity].
  destruct (negb (is_driver user)); [reflexivity|].
  destruct rideId as [id|]; [|reflexivity].
  destruct (JsMap.get id (ridesMap s)) as [ride|] eqn:G; [|reflexivity].
  destruct (negb (String.eqb _ _)) eqn:E; [reflexivity|].
  rewrite acceptRide_eq, G, E. now destruct (find _ _).
Qed.

Lemma patch_rides_decline_eq user rideId now s :
  patch_rides_decline user rideId now s =
  match user with
  | None => (Return (sendStatus 401), s)
  | Some user =>
      if negb (is_driver user) then (Return (sendStatus 401), s)
      else
        match rideId with
        | None => (Return (json 404 (Message "Ride not found")), s)
        | Some id =>
            match JsMap.get id (ridesMap s) with
            | None => (Return (json 404 (Message "Ride not found")), s)
            | Some ride =>
                if negb (String.eqb (Ride.status ride) "requested")
                then (Return (json 400
                                (Message "Ride is not in requested status")),
                      s)
                else
                  (Return (json 200 (RideJson (cancelled_ride ride now))),
                   assign_ridesMap
                     (JsMap.set id (cancelled_ride ride now) (ridesMap s)) s)
            end
        end
  end.
Proof.
  run_handler. destruct user as [user|]; [|reflexivity].
  destruct (negb (is_driver user)); [reflexivity|].
  destruct rideId as [id|]; [|reflexivity].
  destruct (JsMap.get id (ridesMap s)) as [ride|] eqn:G; [|reflexivity].
  destruct (negb (String.eqb _ _)) eqn:E; [reflexivity|].
  now rewrite declineRide_eq, G, E.
Qed.

Lemma patch_rides_arrived_eq user rideId s :
  patch_rides_arrived user rideId s =
  match user with
  | None => (Return (sendStatus 401), s)
  | Some user =>
      if negb (is_driver user) then (Return (sendStatus 401), s)
      else
        match rideId with
        | None => (Return (json 404 (Message "Ride not found")), s)
        | Some id =>
            match JsMap.get id (ridesMap s) with
            | None => (Return (json 404 (Message "Ride not found")), s)
            | Some ride =>
                if negb (String.eqb (Ride.status ride) "accepted")
                   || negb (strict_eq (Ride.driverId ride)
                              (JsVal (User.id user)))
                then (Return (json 400
                                (Message "Cannot mark arrival for this ride")),
                      s)
                else (Return (json 200 (RideJson ride)), s)
            end
        end
  end.
Proof.
  run_handler. destruct user as [user|]; [|reflexivity].
  destruct (negb (is_driver user)); [reflexivity|].
  destruct rideId as [id|]; [|reflexivity].
  destruct (JsMap.get id (ridesMap s)) as [ride|] eqn:G; [|reflexivity].
  destruct (negb (String.eqb _ _)) eqn:E; [reflexivity|].
  cbn [orb]. destruct (negb (strict_eq _ _)); [reflexivity|].
  now rewrite markDriverArrived_eq, G, E.
Qed.

Lemma patch_rides_start_eq user rideId now s :
  patch_rides_start user rideId now s =
  match user with
  | None => (Return (sendStatus 401), s)
  | Some user =>
      if negb (is_driver user) then (Return (sendStatus 401), s)
      else
        match rideId with
        | None => (Return (json 404 (Message "Ride not found")), s)
        | Some id =>
            match JsMap.get id (ridesMap s) with
            | None => (Return (json 404 (Message "Ride not found")), s)
            | Some ride =>
                if negb (String.eqb (Ride.status ride) "accepted")
                   || negb (strict_eq (Ride.driverId ride)
                              (JsVal (User.id user)))
                then (Return (json 400 (Message "Cannot start this ride")), s)
                else
                  (Return (json 200 (RideJson (started_ride ride now))),
                   assign_ridesMap
                     (JsMap.set id (started_ride ride now) (ridesMap s)) s)
            end
        end
  end.
Proof.
  run_handler. destruct user as [user|]; [|reflexivity].
  destruct (negb (is_driver user)); [reflexivity|].
  destruct rideId as [id|]; [|reflexivity].
  destruct (JsMap.get id (ridesMap s)) as [ride|] eqn:G; [|reflexivity].
  destruct (negb (String.eqb _ _)) eqn:E; [reflexivity|].
  cbn [orb]. destruct (negb (strict_eq _ _)); [reflexivity|].
  now rewrite startRide_eq, G, E.
Qed.

Lemma patch_rides_complete_eq user rideId now s :
  patch_rides_complete user rideId now s =
  match user with
  | None => (Return (sendStatus 401), s)
  | Some user =>
      if negb (is_driver user) then (Return (sendStatus 401), s)
      else
        match rideId with
        | None => (Return (json 404 (Message "Ride not found")), s)
        | Some id =>
            match JsMap.get id (ridesMap s) with
            | None => (Return (json 404 (Message "Ride not found")), s)
            | Some ride =>
                if negb (String.eqb (Ride.status ride) "in_progress")
                   || negb (strict_eq (Ride.driverId ride)
                              (JsVal (User.id user)))
                then (Return (json 400 (Message "Cannot complete this ride")),
                      s)
                else
                  (Return (json 200 (RideJson (completed_ride ride now))),
                   assign_ridesMap
                     (JsMap.set id (completed_ride ride now) (ridesMap s)) s)
            end
        end
  end.
Proof.
  run_handler. destruct user as [user|]; [|reflexivity].
  destruct (negb (is_driver user)); [reflexivity|].
  destruct rideId as [id|]; [|reflexivity].
  destruct (JsMap.get id (ridesMap s)) as [ride|] eqn:G; [|reflexivity].
  destruct (negb (String.eqb _ _)) eqn:E; [reflexivity|].
  cbn [orb]. destruct (negb (strict_eq _ _)); [reflexivity|].
  now rewrite completeRide_eq, G, E.
Qed.

Lemma post_ratings_eq user body now s :
  post_ratings user body now s =
  match user, body with
  | None, _ => (Return (sendStatus 401), s)
  | Some _, None => (Return (json 400 (Invalid "Invalid rating data")), s)
  | Some user, Some body =>
      match js_number (InsertRating.rideId body) with
      | None => (Return (json 404 (Message "Ride not found")), s)
      | Some id =>
          match JsMap.get id (ridesMap s) with
          | None => (Return (json 404 (Message "Ride not found")), s)
          | Some ride =>
              if not_on_ride user ride
              then (Return (json 403
                              (Message "Not authorized to rate this ride")),
                    s)
              else
                let toUserId :=
                  if strict_eq (JsVal (User.id user)) (Ride.passengerId ride)
                  then Ride.driverId ride
                  else Ride.passengerId ride in
                match createRating
                        (with_toUserId toUserId
                           (with_fromUserId (User.id user) body)) now s with
                | (Return rating, s') =>
                    (Return (json 201 (RatingJson rating)), s')
                | (Throw _, s') =>
                    (Return (json 500 (Message "Error creating rating")), s')
                end
          end
      end
  end.
Proof.
  run_handler. destruct user as [user|]; [|reflexivity].
  destruct body as [body|]; [|reflexivity].
  cbn [InsertRating.rideId with_fromUserId].
  destruct (js_number (InsertRating.rideId body)) as [id|]; [|reflexivity].
  destruct (JsMap.get id (ridesMap s)) as [ride|] eqn:G; [|reflexivity].
  destruct (not_on_ride user ride); [reflexivity|].
  now destruct (createRating _ _ _) as [[rating|e] s'].
Qed.

(** ** What every handler does *)

Lemma exec_create s rideData now :
  find (passenger_active_ride (InsertRide.passengerId rideData)) (rides s)
    = None ->
  exec (CreateRide rideData now) s =
  assign_ridesMap
    (JsMap.set (rideIdCounter s)
       (requested_ride rideData (rideIdCounter s) now) (ridesMap s))
    (assign_rideIdCounter (rideIdCounter s + 1) s).
Proof.
  intros F. unfold exec, perform.
  now rewrite snd_bind_ret, createRide_eq, F.
Qed.

Lemma exec_decline s R now r :
  JsMap.get R (ridesMap s) = Some r -> Ride.status r = "requested" ->
  exec (DeclineRide R now) s =
  assign_ridesMap (JsMap.set R (cancelled_ride r now) (ridesMap s)) s.
Proof.
  intros G St. unfold exec, perform.
  now rewrite snd_bind_ret, declineRide_eq, G, St.
Qed.

Lemma exec_cancel s R now r :
  JsMap.get R (ridesMap s) = Some r ->
  negb (includes ["requested"; "accepted"; "in_progress"] (Ride.status r))
    = false ->
  exec (CancelRide R now) s =
  assign_ridesMap (JsMap.set R (cancelled_ride r now) (ridesMap s)) s.
Proof.
  intros G St. unfold exec, perform.
  now rewrite snd_bind_ret, cancelRide_eq, G, St.
Qed.

Lemma reachable_exec c s : reachable s -> reachable (exec c s).
Proof.
  intros (now & cs & ->). exists now, (cs ++ [c]). now rewrite run_snoc.
Qed.

Lemma or_negb_false a b : negb a || negb b = false -> a = true /\ b = true.
Proof. destruct a, b; simpl; intuition discriminate. Qed.

Lemma handle_cases user req s :
  exists resp s',
    handle user req s = (Return resp, s') /\
    (s' = s /\ statusCode resp <> 200 /\ statusCode resp <> 201 \/
     s' = s /\ statusCode resp = 200 /\
       (req = GetRidesActive \/ exists id, req = PatchRidesArrived id) \/
     (statusCode resp = 200 \/ statusCode resp = 201) /\
       exists c, s' = exec c s).
Proof.
  destruct req; unfold handle;
    rewrite ?get_rides_active_eq, ?post_rides_eq, ?patch_rides_cancel_eq,
      ?patch_rides_accept_eq, ?patch_rides_decline_eq,
      ?patch_rides_arrived_eq, ?patch_rides_start_eq,
      ?patch_rides_complete_eq, ?post_ratings_eq;
    (destruct user as [user|];
     [|do 2 eexists; split; [reflexivity|]; left; now repeat split]).
  - destruct (find _ _); do 2 eexists; (split; [reflexivity|]).
    + right; left. repeat split. now left.
    + left. now repeat split.
  - destruct body as [body|];
      [|do 2 eexists; split; [reflexivity|]; left; now repeat split].
    destruct (find _ _) eqn:F; do 2 eexists; (split; [reflexivity|]).
    + left. now repeat split.
    + right; right. split; [now right|].
      exists (CreateRide (with_passengerId (User.id user) body) now).
      now rewrite exec_create.
  - destruct rideId as [id|];
      [|do 2 eexists; split; [reflexivity|]; left; now repeat split].
    destruct (JsMap.get _ _) as [ride|] eqn:G;
      [|do 2 eexists; split; [reflexivity|]; left; now repeat split].
    destruct (not_on_ride _ _);
      [do 2 eexists; split; [reflexivity|]; left; now repeat split|].
    destruct (negb _) eqn:E; do 2 eexists; (split; [reflexivity|]).
    + left. now repeat split.
    + right; right. split; [now left|].
      exists (CancelRide id now). now rewrite (exec_cancel s id now ride G E).
  - destruct (negb (is_driver user));
      [do 2 eexists; split; [reflexivity|]; left; now repeat split|].
    destruct rideId as [id|];
      [|do 2 eexists; split; [reflexivity|]; left; now repeat split].
    destruct (JsMap.get _ _) as [ride|] eqn:G;
      [|do 2 eexists; split; [reflexivity|]; left; now repeat split].
    destruct (negb _) eqn:E;
      [do 2 eexists; split; [reflexivity|]; left; now repeat split|].
    apply status_neq_false in E.
    destruct (find _ _) eqn:F; do 2 eexists; (split; [reflexivity|]).
    + left. now repeat split.
    + right; right. split; [now left|].
      exists (AcceptRide id (User.id user) now).
      now rewrite (exec_accept s id (User.id user) now ride G E F).
  - destruct (negb (is_driver user));
      [do 2 eexists; split; [reflexivity|]; left; now repeat split|].
    destruct rideId as [id|];
      [|do 2 eexists; split; [reflexivity|]; left; now repeat split].
    destruct (JsMap.get _ _) as [ride|] eqn:G;
      [|do 2 eexists; split; [reflexivity|]; left; now repeat split].
    destruct (negb _) eqn:E; do 2 eexists; (split; [reflexivity|]).
    + left. now repeat split.
    + apply status_neq_false in E. right; right. split; [now left|].
      exists (DeclineRide id now).
      now rewrite (exec_decline s id now ride G E).
  - destruct (negb (is_driver user));
      [do 2 eexists; split; [reflexivity|]; left; now repeat split|].
    destruct rideId as [id|];
      [|do 2 eexists; split; [reflexivity|]; left; now repeat split].
    destruct (JsMap.get _ _) as [ride|] eqn:G;
      [|do 2 eexists; split; [reflexivity|]; left; now repeat split].
    destruct (_ || _) eqn:E; do 2 eexists; (split; [reflexivity|]).
    + left. now repeat split.
    + right; left. repeat split. right. eauto.
  - destruct (negb (is_driver user));
      [do 2 eexists; split; [reflexivity|]; left; now repeat split|].
    destruct rideId as [id|];
      [|do 2 eexists; split; [reflexivity|]; left; now repeat split].
    destruct (JsMap.get _ _) as [ride|] eqn:G;
      [|do 2 eexists; split; [reflexivity|]; left; now repeat split].
    destruct (_ || _) eqn:E; do 2 eexists; (split; [reflexivity|]).
    + left. now repeat split.
    + apply or_negb_false in E. destruct E as [E _].
      apply String.eqb_eq in E. right; right. split; [now left|].
      exists (StartRide id now). now rewrite (exec_start s id now ride G E).
  - destruct (negb (is_driver user));
      [do 2 eexists; split; [reflexivity|]; left; now repeat split|].
    destruct rideId as [id|];
      [|do 2 eexists; split; [reflexivity|]; left; now repeat split].
    destruct (JsMap.get _ _) as [ride|] eqn:G;
      [|do 2 eexists; split; [reflexivity|]; left; now repeat split].
    destruct (_ || _) eqn:E; do 2 eexists; (split; [reflexivity|]).
    + left. now repeat split.
    + apply or_negb_false in E. destruct E as [E _].
      apply String.eqb_eq in E. right; right. split; [now left|].
      exists (CompleteRide id now).
      now rewrite (exec_complete s id now ride G E).
  - destruct body as [body|];
      [|do 2 eexists; split; [reflexivity|]; left; now repeat split].
    destruct (js_number _) as [id|];
      [|do 2 eexists; split; [reflexivity|]; left; now repeat split].
    destruct (JsMap.get _ _) as [ride|] eqn:G;
      [|do 2 eexists; split; [reflexivity|]; left; now repeat split].
    destruct (not_on_ride _ _);
      [do 2 eexists; split; [reflexivity|]; left; now repeat split|].
    cbv zeta.
    match goal with
    | |- context [createRating ?d now s] =>
        destruct (createRating_eq d now s) as (rating & E & _);
        rewrite E; do 2 eexists; (split; [reflexivity|]);
        right; right; split; [now right|];
        exists (CreateRating d now); unfold exec, perform;
        now rewrite snd_bind_ret, E
    end.
Qed.

(** X15: a handler never throws: it always answers.  It leaves the
    store as it is or changes it as one call of the store does, so that
    the store stays reachable, and it changes the store only when it
    answers 200 or 201. *)
Theorem handler_is_one_store_call :
  forall user req s,
    exists resp s',
      handle user req s = (Return resp, s') /\
      (s' = s \/ exists c, s' = exec c s) /\
      (reachable s -> reachable s') /\
      (statusCode resp <> 200 -> statusCode resp <> 201 -> s' = s).
Proof.
  intros user req s.
  destruct (handle_cases user req s)
    as (resp & s' & H & [(-> & N1 & N2) | [(-> & E & _) | (E & c & ->)]]);
    exists resp; eexists; (split; [exact H|]).
  - split; [now left|]. split; trivial.
  - split; [now left|]. split; trivial.
  - split; [right; eauto|]. split; [apply reachable_exec|].
    intros N1 N2. destruct E; contradiction.
Qed.

(** X16: a request without an authenticated user is answered 401 and
    changes nothing; so is a request to accept, decline, mark the
    arrival at, start or complete a ride by a user whose [userType] is
    not "driver". *)
Theorem unauthorised_request_is_401 :
  forall user req s,
    user = None \/
    (driver_route req = true /\
     exists u, user = Some u /\ is_driver u = false) ->
    handle user req s = (Return (sendStatus 401), s).
Proof.
  intros user req s [-> | (Hr & u & -> & Hd)].
  - now destruct req.
  - destruct req; try discriminate; unfold handle;
      rewrite ?patch_rides_accept_eq, ?patch_rides_decline_eq,
        ?patch_rides_arrived_eq, ?patch_rides_start_eq,
        ?patch_rides_complete_eq, Hd; reflexivity.
Qed.

(** The passenger of the seeded user may not accept ride 1. *)
Lemma unauthorised_request_is_401_witness :
  handle (Some test_passenger) (PatchRidesAccept (Some 1) 40) requested_store
  = (Return (sendStatus 401), requested_store).
Proof.
  apply unauthorised_request_is_401. right. split; [reflexivity|].
  exists test_passenger. split; reflexivity.
Defined.

(** A ride is accepted by driver 2 ([dora]) through the handler. *)
Lemma handler_is_one_store_call_witness :
  exists resp s',
    handle (Some dora) (PatchRidesAccept (Some 1) 40) requested_store =
      (Return resp, s') /\
    (reachable requested_store -> reachable s').
Proof.
  destruct (handler_is_one_store_call (Some dora)
              (PatchRidesAccept (Some 1) 40) requested_store)
    as (resp & s' & H & _ & Hr & _).
  exists resp, s'. split; assumption.
Defined.

Lemma not_on_ride_false user ride :
  not_on_ride user ride = false <->
  Ride.passengerId ride = JsVal (User.id user) \/
  Ride.driverId ride = JsVal (User.id user).
Proof.
  unfold not_on_ride.
  rewrite <- !strict_eq_true.
  destruct (strict_eq (Ride.passengerId ride) _),
           (strict_eq (Ride.driverId ride) _); cbn; intuition discriminate.
Qed.

Lemma find_some_iff {A} (p : A -> bool) (l : list A) :
  (exists x, find p l = Some x) <-> exists x, In x l /\ p x = true.
Proof.
  split.
  - intros [x F]. apply find_some in F. eauto.
  - intros (x & Hin & Hp). eapply find_some_exists; eauto.
Qed.

(** X17: a handler answers 500 only when the store refuses a request
    that the handler has let through, and then always: the passenger who
    requests a ride has an active ride; the driver who accepts a
    requested ride has an accepted or in_progress ride; or the ride that
    one of its participants cancels is not requested, accepted or
    in_progress any more.  The handlers for the active ride, decline,
    arrival, start, complete and ratings never answer 500. *)
Theorem internal_error_iff_store_refuses :
  forall user req s resp s',
    handle user req s = (Return resp, s') ->
    (statusCode resp = 500 <-> store_refuses user req s).
Proof.
  intros user req s resp s'. unfold store_refuses.
  destruct req; unfold handle;
    rewrite ?get_rides_active_eq, ?post_rides_eq, ?patch_rides_cancel_eq,
      ?patch_rides_accept_eq, ?patch_rides_decline_eq,
      ?patch_rides_arrived_eq, ?patch_rides_start_eq,
      ?patch_rides_complete_eq, ?post_ratings_eq;
    (destruct user as [user|];
     [|intros [= <- <-]; cbn [statusCode json sendStatus]; split; [discriminate | tauto]]).
  - destruct (find _ _); intros [= <- <-]; cbn [statusCode json sendStatus]; split;
      [discriminate | tauto | discriminate | tauto].
  - destruct body as [body|];
      [|intros [= <- <-]; cbn [statusCode json sendStatus]; split; [discriminate | tauto]].
    destruct (find _ _) eqn:F; intros [= <- <-]; cbn [statusCode json sendStatus]; split;
      try discriminate; try reflexivity.
    + intros _. apply find_some in F. destruct F as [Hin Hp].
      apply passenger_active_ride_iff in Hp. exists t. tauto.
    + intros (r & Hin & HP & St).
      pose proof (find_none _ _ F _ Hin) as Hp.
      assert (passenger_active_ride (JsVal (User.id user)) r = true)
        by now apply passenger_active_ride_iff.
      congruence.
  - destruct rideId as [id|];
      [|intros [= <- <-]; cbn [statusCode json sendStatus]; split; [discriminate | tauto]].
    destruct (JsMap.get _ _) as [ride|] eqn:G;
      [|intros [= <- <-]; cbn [statusCode json sendStatus]; split;
        [discriminate | intros (r & H & _); discriminate]].
    destruct (not_on_ride _ _) eqn:N.
    { intros [= <- <-]. cbn [statusCode json sendStatus]. split; [discriminate|].
      intros (r & [= <-] & Hon & _). apply not_on_ride_false in Hon.
      congruence. }
    apply not_on_ride_false in N.
    destruct (negb _) eqn:E; intros [= <- <-]; cbn [statusCode json sendStatus]; split;
      try discriminate; try reflexivity.
    + intros _. exists ride. split; [reflexivity|]. split; [assumption|].
      intros Hin. apply includes_iff in Hin. rewrite Hin in E. discriminate.
    + intros (r & [= <-] & _ & Hnot). exfalso. apply Hnot.
      apply negb_false_iff, includes_iff in E. exact E.
  - destruct (negb (is_driver user)) eqn:Dr.
    { intros [= <- <-]. cbn [statusCode json sendStatus]. split; [discriminate|].
      destruct rideId; [|tauto]. intros (Hd & _).
      rewrite Hd in Dr. discriminate. }
    apply negb_false_iff in Dr.
    destruct rideId as [id|];
      [|intros [= <- <-]; cbn [statusCode json sendStatus]; split; [discriminate | tauto]].
    destruct (JsMap.get _ _) as [ride|] eqn:G;
      [|intros [= <- <-]; cbn [statusCode json sendStatus]; split;
        [discriminate | intros (_ & (r & H & _) & _); discriminate]].
    destruct (negb _) eqn:E.
    { intros [= <- <-]. cbn [statusCode json sendStatus]. split; [discriminate|].
      intros (_ & (r & [= <-] & St) & _).
      rewrite St in E. discriminate. }
    apply status_neq_false in E.
    destruct (find _ _) eqn:F; intros [= <- <-]; cbn [statusCode json sendStatus]; split;
      try discriminate; try reflexivity.
    + intros _. split; [assumption|]. split; [eauto|].
      apply find_some in F. destruct F as [Hin Hp].
      apply driver_active_ride_iff in Hp. exists t. tauto.
    + intros (_ & _ & r & Hin & HD & St).
      pose proof (find_none _ _ F _ Hin) as Hp.
      assert (driver_active_ride (User.id user) r = true)
        by now apply driver_active_ride_iff.
      congruence.
  - destruct (negb (is_driver user));
      [intros [= <- <-]; cbn [statusCode json sendStatus]; split; [discriminate | tauto]|].
    destruct rideId as [id|];
      [|intros [= <- <-]; cbn [statusCode json sendStatus]; split; [discriminate | tauto]].
    destruct (JsMap.get _ _) as [ride|];
      [|intros [= <- <-]; cbn [statusCode json sendStatus]; split; [discriminate | tauto]].
    destruct (negb _); intros [= <- <-]; cbn [statusCode json sendStatus]; split;
      first [discriminate | tauto].
  - destruct (negb (is_driver user));
      [intros [= <- <-]; cbn [statusCode json sendStatus]; split; [discriminate | tauto]|].
    destruct rideId as [id|];
      [|intros [= <- <-]; cbn [statusCode json sendStatus]; split; [discriminate | tauto]].
    destruct (JsMap.get _ _) as [ride|];
      [|intros [= <- <-]; cbn [statusCode json sendStatus]; split; [discriminate | tauto]].
    destruct (_ || _); intros [= <- <-]; cbn [statusCode json sendStatus]; split;
      first [discriminate | tauto].
  - destruct (negb (is_driver user));
      [intros [= <- <-]; cbn [statusCode json sendStatus]; split; [discriminate | tauto]|].
    destruct rideId as [id|];
      [|intros [= <- <-]; cbn [statusCode json sendStatus]; split; [discriminate | tauto]].
    destruct (JsMap.get _ _) as [ride|];
      [|intros [= <- <-]; cbn [statusCode json sendStatus]; split; [discriminate | tauto]].
    destruct (_ || _); intros [= <- <-]; cbn [statusCode json sendStatus]; split;
      first [discriminate | tauto].
  - destruct (negb (is_driver user));
      [intros [= <- <-]; cbn [statusCode json sendStatus]; split; [discriminate | tauto]|].
    destruct rideId as [id|];
      [|intros [= <- <-]; cbn [statusCode json sendStatus]; split; [discriminate | tauto]].
    destruct (JsMap.get _ _) as [ride|];
      [|intros [= <- <-]; cbn [statusCode json sendStatus]; split; [discriminate | tauto]].
    destruct (_ || _); intros [= <- <-]; cbn [statusCode json sendStatus]; split;
      first [discriminate | tauto].
  - destruct body as [body|];
      [|intros [= <- <-]; cbn [statusCode json sendStatus]; split; [discriminate | tauto]].
    destruct (js_number _) as [id|];
      [|intros [= <- <-]; cbn [statusCode json sendStatus]; split; [discriminate | tauto]].
    destruct (JsMap.get _ _) as [ride|];
      [|intros [= <- <-]; cbn [statusCode json sendStatus]; split; [discriminate | tauto]].
    destruct (not_on_ride _ _);
      [intros [= <- <-]; cbn [statusCode json sendStatus]; split; [discriminate | tauto]|].
    cbv zeta.
    match goal with
    | |- context [createRating ?d now s] =>
        destruct (createRating_eq d now s) as (rating & E & _); rewrite E
    end.
    intros [= <- <-]. cbn [statusCode json sendStatus]. split; [discriminate | tauto].
Qed.

(** Cancelling the completed ride 1 of [completed_store] by its
    passenger is answered 500. *)
Lemma internal_error_iff_store_refuses_witness :
  exists resp,
    handle (Some test_passenger) (PatchRidesCancel (Some 1) 70)
      completed_store = (Return resp, completed_store) /\
    statusCode resp = 500.
Proof.
  assert (E : exists resp,
            handle (Some test_passenger) (PatchRidesCancel (Some 1) 70)
              completed_store = (Return resp, completed_store))
    by (vm_compute; eauto).
  destruct E as [resp E]. exists resp. split; [exact E|].
  apply (internal_error_iff_store_refuses _ _ _ _ _ E).
  assert (G : exists ride,
            JsMap.get 1 (ridesMap completed_store) = Some ride /\
            Ride.passengerId ride = JsVal (User.id test_passenger) /\
            Ride.status ride = "completed")
    by (vm_compute; eauto).
  destruct G as (ride & G & HP & St). exists ride.
  split; [exact G|]. split; [now left|].
  rewrite St. simpl. intuition discriminate.
Defined.

(** X18: only the driver of a ride marks the arrival, starts or
    completes it.  Such a request is answered 200 exactly when the user
    is a driver, a ride is stored under the identifier, its [driverId]
    is the user's identifier and its status is accepted (in_progress for
    complete); every other answer leaves the store as it is. *)
Theorem only_the_assigned_driver_moves_a_ride :
  forall u req id s resp s',
    driver_step req = Some id ->
    handle (Some u) req s = (Return resp, s') ->
    (statusCode resp = 200 <->
     is_driver u = true /\
     exists ride,
       JsMap.get id (ridesMap s) = Some ride /\
       Ride.driverId ride = JsVal (User.id u) /\
       Ride.status ride =
         match req with
         | PatchRidesComplete _ _ => "in_progress"
         | _ => "accepted"
         end) /\
    (statusCode resp <> 200 -> s' = s).
Proof.
  intros u req id s resp s' Hreq.
  destruct req as [| | | | |[id0|]|[id0|] now|[id0|] now|];
    try discriminate; injection Hreq as ->; unfold handle;
    rewrite ?patch_rides_arrived_eq, ?patch_rides_start_eq,
      ?patch_rides_complete_eq;
    (destruct (negb (is_driver u)) eqn:Dr;
     [ intros [= <- <-]; cbn [statusCode json sendStatus];
       split; [|reflexivity]; split; [discriminate|];
       intros (Hd & _); rewrite Hd in Dr; discriminate |]);
    apply negb_false_iff in Dr;
    (destruct (JsMap.get id (ridesMap s)) as [ride|] eqn:G;
     [| intros [= <- <-]; cbn [statusCode json sendStatus];
        split; [|reflexivity]; split; [discriminate|];
        intros (_ & r & H & _); discriminate ]);
    (destruct (_ || _) eqn:E; intros [= <- <-];
     cbn [statusCode json sendStatus];
     [ split; [|reflexivity]; split; [discriminate|];
       intros (_ & r & [= <-] & HD & St);
       rewrite HD, St in E; cbn in E; rewrite Z.eqb_refl in E;
       discriminate
     | split; [|congruence]; split; [|reflexivity]; intros _;
       apply or_negb_false in E; destruct E as [E1 E2];
       apply String.eqb_eq in E1; apply strict_eq_true in E2;
       split; [assumption|]; exists ride; now repeat split ]).
Qed.

(** Driver 2 starts ride 1 of [busy_driver_store], which that driver has
    accepted. *)
Lemma only_the_assigned_driver_moves_a_ride_witness :
  exists resp,
    handle (Some dora) (PatchRidesStart (Some 1) 60) busy_driver_store =
      (Return resp, snd (handle (Some dora) (PatchRidesStart (Some 1) 60)
                           busy_driver_store)) /\
    statusCode resp = 200.
Proof.
  assert (E : exists resp s',
            handle (Some dora) (PatchRidesStart (Some 1) 60)
              busy_driver_store = (Return resp, s'))
    by (vm_compute; eauto).
  destruct E as (resp & s' & E). exists resp. rewrite E.
  split; [reflexivity|].
  apply (only_the_assigned_driver_moves_a_ride dora
           (PatchRidesStart (Some 1) 60) 1 _ _ _ eq_refl E).
  split; [reflexivity|].
  assert (G : exists ride,
            JsMap.get 1 (ridesMap busy_driver_store) = Some ride /\
            Ride.driverId ride = JsVal (User.id dora) /\
            Ride.status ride = "accepted")
    by (vm_compute; eauto).
  exact G.
Defined.

(** X19: the passenger of a ride created through [POST /api/rides] is
    the authenticated user, whatever the body says.  A valid body is
    answered 201 when the user has no ride with status requested,
    accepted or in_progress as a passenger, and 500 otherwise; with 201
    the ride of the answer is stored under its identifier, requested at
    [now] and with no other timestamp, with the user as passenger and
    every other field of the body as the body gives it: driver,
    addresses, coordinates, distance, duration, fare, vehicle type and
    payment method.  The [passengerId] and the [status] of the body are
    not used. *)
Theorem post_rides_passenger_is_the_user :
  forall u body now s resp s',
    handle (Some u) (PostRides (Some body) now) s = (Return resp, s') ->
    (statusCode resp = 201 \/ statusCode resp = 500) /\
    (statusCode resp = 201 <->
     forall r, In r (rides s) ->
       ~ (Ride.passengerId r = JsVal (User.id u) /\
          In (Ride.status r) ["requested"; "accepted"; "in_progress"])) /\
    (statusCode resp = 201 ->
     exists ride,
       payload resp = RideJson ride /\
       JsMap.get (Ride.id ride) (ridesMap s') = Some ride /\
       Ride.id ride = rideIdCounter s /\
       Ride.passengerId ride = JsVal (User.id u) /\
       Ride.status ride = "requested" /\
       Ride.requestedAt ride = JsVal now /\
       Ride.acceptedAt ride = JsUndefined /\
       Ride.startedAt ride = JsUndefined /\
       Ride.completedAt ride = JsUndefined /\
       Ride.cancelledAt ride = JsUndefined /\
       Ride.driverId ride = InsertRide.driverId body /\
       Ride.originAddress ride = InsertRide.originAddress body /\
       Ride.destinationAddress ride = InsertRide.destinationAddress body /\
       Ride.originLat ride = InsertRide.originLat body /\
       Ride.originLng ride = InsertRide.originLng body /\
       Ride.destinationLat ride = InsertRide.destinationLat body /\
       Ride.destinationLng ride = InsertRide.destinationLng body /\
       Ride.distance ride = InsertRide.distance body /\
       Ride.duration ride = InsertRide.duration body /\
       Ride.fare ride = InsertRide.fare body /\
       Ride.vehicleType ride = InsertRide.vehicleType body /\
       Ride.paymentMethod ride = InsertRide.paymentMethod body).
Proof.
  intros u body now s resp s'. unfold handle. rewrite post_rides_eq.
  destruct (find _ _) eqn:F; intros [= <- <-];
    cbn [statusCode payload json].
  - split; [now right|]. split; [|discriminate].
    split; [discriminate|]. intros H. exfalso.
    apply find_some in F. destruct F as [Hin Hp].
    apply passenger_active_ride_iff in Hp. eapply H; eauto.
  - split; [now left|]. split.
    + split; [|reflexivity]. intros _ r Hin Hp.
      apply passenger_active_ride_iff in Hp.
      rewrite (find_none _ _ F _ Hin) in Hp. discriminate.
    + intros _. eexists. split; [reflexivity|].
      cbn [ridesMap assign_ridesMap]. split; [apply get_set_same|].
      now repeat split.
Qed.

(** The seeded user requests a ride with a body that names passenger 5
    and driver 7. *)
Lemma post_rides_passenger_is_the_user_witness :
  exists resp s' ride,
    handle (Some test_passenger)
      (PostRides (Some (ride_request (JsVal 5) (JsVal 7))) 30)
      (new_MemStorage 0) = (Return resp, s') /\
    statusCode resp = 201 /\
    payload resp = RideJson ride /\
    Ride.passengerId ride = JsVal 1 /\
    Ride.driverId ride = JsVal 7 /\
    Ride.vehicleType ride = JsVal "economy" /\
    Ride.paymentMethod ride = JsVal "credit_card".
Proof.
  assert (E : exists resp s',
            handle (Some test_passenger)
              (PostRides (Some (ride_request (JsVal 5) (JsVal 7))) 30)
              (new_MemStorage 0) = (Return resp, s') /\
            statusCode resp = 201)
    by (vm_compute; eauto).
  destruct E as (resp & s' & E & C).
  destruct (post_rides_passenger_is_the_user _ _ _ _ _ _ E)
    as (_ & _ & H).
  destruct (H C)
    as (ride & Hp & _ & _ & HP & _ & _ & _ & _ & _ & _ & HD & _ & _ & _ & _
        & _ & _ & _ & _ & _ & HV & HM).
  exists resp, s', ride. repeat split; assumption.
Defined.

(** X20: [POST /api/ratings] decides who rates whom.  A valid body is
    answered 201 exactly when it names a stored ride of which the user
    is the passenger or the driver, whatever the status of the ride, and
    404 or 403 otherwise.  The rating of the answer is stored under the
    next identifier; it is from the authenticated user and, whatever the
    body says, for the driver of the ride when the user is its
    passenger and for its passenger otherwise. *)
Theorem post_ratings_names_the_other_party :
  forall u body now s resp s',
    handle (Some u) (PostRatings (Some body) now) s = (Return resp, s') ->
    (statusCode resp = 201 \/ statusCode resp = 403 \/ statusCode resp = 404)
    /\
    (statusCode resp = 201 <->
     exists id ride,
       InsertRating.rideId body = JsVal id /\
       JsMap.get id (ridesMap s) = Some ride /\
       (Ride.passengerId ride = JsVal (User.id u) \/
        Ride.driverId ride = JsVal (User.id u))) /\
    (statusCode resp = 201 ->
     exists id ride rating,
       InsertRating.rideId body = JsVal id /\
       JsMap.get id (ridesMap s) = Some ride /\
       payload resp = RatingJson rating /\
       JsMap.get (ratingIdCounter s) (ratingsMap s') = Some rating /\
       Rating.id rating = ratingIdCounter s /\
       Rating.fromUserId rating = JsVal (User.id u) /\
       Rating.toUserId rating =
         (if strict_eq (JsVal (User.id u)) (Ride.passengerId ride)
          then Ride.driverId ride else Ride.passengerId ride) /\
       Rating.rating rating = InsertRating.rating body /\
       Rating.rideId rating = JsVal id).
Proof.
  intros u body now s resp s'. unfold handle. rewrite post_ratings_eq.
  destruct (InsertRating.rideId body) as [| |id] eqn:Hid; cbn [js_number];
    try (intros [= <- <-]; cbn [statusCode payload json];
         split; [tauto|]; split; [|discriminate];
         split; [discriminate | intros (i & r & H & _); discriminate]).
  destruct (JsMap.get id (ridesMap s)) as [ride|] eqn:G;
    [| intros [= <- <-]; cbn [statusCode payload json];
       split; [tauto|]; split; [|discriminate];
       split; [discriminate|];
       intros (i & r & [= <-] & H & _); congruence ].
  destruct (not_on_ride u ride) eqn:N.
  { intros [= <- <-]. cbn [statusCode payload json].
    split; [tauto|]. split; [|discriminate]. split; [discriminate|].
    intros (i & r & [= <-] & H & Hon). rewrite G in H. injection H as <-.
    apply not_on_ride_false in Hon. congruence. }
  apply not_on_ride_false in N. cbv zeta.
  match goal with
  | |- context [createRating ?d now s] =>
      destruct (createRating_eq d now s)
        as (rating & E & R1 & R2 & R3 & R4 & R5 & R6); rewrite E
  end.
  intros [= <- <-]. cbn [statusCode payload json].
  split; [tauto|]. split.
  - split; [|reflexivity]. intros _. exists id, ride. tauto.
  - intros _. exists id, ride, rating.
    cbn [ratingsMap assign_ratingsMap].
    rewrite get_set_same. cbn in R2, R3, R4, R5. rewrite Hid in R2.
    now repeat split.
Qed.

(** Passenger 1 rates the completed ride 1: the rating is for driver 7,
    although the body names nobody. *)
Lemma post_ratings_names_the_other_party_witness :
  exists resp s' rating,
    handle (Some test_passenger) (PostRatings (Some (five_stars 1)) 70)
      completed_store = (Return resp, s') /\
    statusCode resp = 201 /\
    payload resp = RatingJson rating /\
    Rating.fromUserId rating = JsVal 1 /\
    Rating.toUserId rating = JsVal 7.
Proof.
  assert (E : exists resp s',
            handle (Some test_passenger) (PostRatings (Some (five_stars 1)) 70)
              completed_store = (Return resp, s') /\
            statusCode resp = 201)
    by (vm_compute; eauto).
  destruct E as (resp & s' & E & C).
  destruct (post_ratings_names_the_other_party _ _ _ _ _ _ E)
    as (_ & _ & H).
  destruct (H C) as (id & ride & rating & Hid & G & Hp & _ & _ & Hf & Ht & _).
  exists resp, s', rating.
  split; [exact E|]. split; [exact C|]. split; [exact Hp|].
  split; [exact Hf|].
  injection Hid as <-.
  assert (G' : exists ride',
            JsMap.get 1 (ridesMap completed_store) = Some ride' /\
            Ride.passengerId ride' = JsVal 1 /\
            Ride.driverId ride' = JsVal 7)
    by (vm_compute; eauto).
  destruct G' as (ride' & G' & HP & HD).
  rewrite G in G'. injection G' as <-.
  rewrite Ht, HP, HD. reflexivity.
Defined.
